(** * A shallow embedding of the high-score service

    Source: [highscore-cloudrun-service/main.py].  The service is a single
    HTTP handler [main] that dispatches to [list_highscores] and [submit];
    both go through the storage gateway [read_storage] / [write_storage],
    which keeps one JSON text in one blob.

    The Python values that flow through the handler are embedded as follows.
    - [str] is [string]; one [ascii] is one character (code points below 256).
    - [float] is IEEE-754 binary64, written with [spec_float] of the Standard
      Library ([prec = 53], [emax = 1024]); [int] is [Z].
    - a value obtained from [json.loads] is a [json] tree; a Python [dict] is
      an association list in insertion order.
    - exceptions and the blob store are threaded explicitly: a handler is a
      function from the state of the bucket to a result and a new state. *)

From Stdlib Require Import ZArith NArith List String Ascii Bool Lia.
From Stdlib Require Import Permutation Sorting.Sorted.
From Stdlib Require Import Floats.SpecFloat.
Import ListNotations.

Open Scope string_scope.
Open Scope list_scope.
Open Scope Z_scope.

(* ================================================================== *)
(** * Python numbers *)

(** ** binary64 *)

Definition f64_prec : Z := 53.
Definition f64_emax : Z := 1024.

Definition f64_div : spec_float -> spec_float -> spec_float :=
  SFdiv f64_prec f64_emax.
Definition f64_lt : spec_float -> spec_float -> bool := SFltb.
Definition f64_le : spec_float -> spec_float -> bool := SFleb.
Definition f64_neg : spec_float -> spec_float := SFopp.

Definition is_nan (x : spec_float) : bool :=
  match x with S754_nan => true | _ => false end.

(** The binary64 number nearest to [n / d] (ties to even).  [SFdiv] rounds
    the exact quotient of its two arguments, whatever their size. *)
Definition f64_of_ratio (neg : bool) (n d : positive) : spec_float :=
  f64_div (S754_finite neg n 0) (S754_finite false d 0).

(** The binary64 number nearest to [(-1)^neg * m * 10^e10]: what the
    decimal-to-binary conversion of CPython ([_Py_dg_strtod]) computes,
    overflow giving an infinity and underflow a zero. *)
Definition float_of_decimal (neg : bool) (m : N) (e10 : Z) : spec_float :=
  match m with
  | N0 => S754_zero neg
  | Npos p =>
      f64_of_ratio neg (p * Z.to_pos (10 ^ Z.max 0 e10))
                       (Z.to_pos (10 ^ Z.max 0 (- e10)))
  end.

(** [float(z)] for an [int]. *)
Definition float_of_Z (z : Z) : spec_float :=
  match z with
  | Z0 => S754_zero false
  | Zpos p => f64_of_ratio false p 1
  | Zneg p => f64_of_ratio true p 1
  end.

(** ** Characters *)

Definition code (c : ascii) : N := N_of_ascii c.

Definition is_digit (c : ascii) : bool :=
  ((48 <=? code c) && (code c <=? 57))%N.

Definition digit_val (c : ascii) : N := (code c - 48)%N.

(** The characters that [float] strips from both ends of its argument: the
    ASCII white space and, below 256, the two other Unicode spaces. *)
Definition is_space (c : ascii) : bool :=
  let n := code c in
  (((9 <=? n) && (n <=? 13)) || (n =? 32) || (n =? 133) || (n =? 160))%N.

Definition lower (c : ascii) : ascii :=
  let n := code c in
  if ((65 <=? n) && (n <=? 90))%N then ascii_of_N (n + 32) else c.

Fixpoint lower_str (s : string) : string :=
  match s with
  | EmptyString => EmptyString
  | String c t => String (lower c) (lower_str t)
  end.

Fixpoint lstrip (s : string) : string :=
  match s with
  | String c t => if is_space c then lstrip t else s
  | EmptyString => s
  end.

Fixpoint rstrip (s : string) : string :=
  match s with
  | EmptyString => EmptyString
  | String c t =>
      match rstrip t with
      | EmptyString => if is_space c then EmptyString else String c EmptyString
      | r => String c r
      end
  end.

(** ** [float(s)] for a [str] *)

(** Underscores may only stand between two digits; they are dropped before
    the number is read ([_Py_string_to_number_with_underscores]). *)
Fixpoint drop_underscores (prev : ascii) (s : string) : option string :=
  match s with
  | EmptyString => if Ascii.eqb prev "_" then None else Some EmptyString
  | String c t =>
      if Ascii.eqb c "_" then
        if is_digit prev then drop_underscores c t else None
      else if Ascii.eqb prev "_" && negb (is_digit c) then None
      else option_map (String c) (drop_underscores c t)
  end.

Definition read_sign (s : string) : bool * string :=
  match s with
  | String c t =>
      if Ascii.eqb c "-" then (true, t)
      else if Ascii.eqb c "+" then (false, t)
      else (false, s)
  | EmptyString => (false, s)
  end.

(** Reads a run of digits: the number read so far, how many digits were
    read, and what is left. *)
Fixpoint read_digits (s : string) (acc : N) (cnt : Z) : N * Z * string :=
  match s with
  | String c t =>
      if is_digit c then read_digits t (10 * acc + digit_val c)%N (cnt + 1)
      else (acc, cnt, s)
  | EmptyString => (acc, cnt, s)
  end.

(** An exponent part [e[+-]digits]; [None] when the text does not start with
    a well-formed one (it is then not consumed). *)
Definition read_exponent (s : string) : option (Z * string) :=
  match s with
  | String c t =>
      if Ascii.eqb (lower c) "e" then
        let '(neg, t1) := read_sign t in
        let '(e, n, rest) := read_digits t1 0%N 0 in
        if (n =? 0)%Z then None
        else Some ((if neg then - Z.of_N e else Z.of_N e), rest)
      else None
  | EmptyString => None
  end.

Definition parse_inf_or_nan (s : string) : option spec_float :=
  let '(neg, t) := read_sign s in
  let l := lower_str t in
  if String.eqb l "inf" || String.eqb l "infinity" then Some (S754_infinity neg)
  else if String.eqb l "nan" then Some S754_nan
  else None.

(** A decimal literal, read to the end of the text. *)
Definition parse_decimal (s : string) : option spec_float :=
  let '(neg, s1) := read_sign s in
  let '(m1, n1, s2) := read_digits s1 0%N 0 in
  let '(m2, n2, s3) :=
    match s2 with
    | String c t => if Ascii.eqb c "." then read_digits t m1 0 else (m1, 0, s2)
    | EmptyString => (m1, 0, s2)
    end in
  if (n1 + n2 =? 0)%Z then None
  else
    let '(e, rest) :=
      match read_exponent s3 with Some r => r | None => (0, s3) end in
    match rest with
    | EmptyString => Some (float_of_decimal neg m2 (e - n2))
    | _ => None
    end.

(** [float(s)]: [None] stands for the [ValueError]. *)
Definition py_float (s : string) : option spec_float :=
  match drop_underscores "000" (rstrip (lstrip s)) with
  | None => None
  | Some t =>
      match parse_inf_or_nan t with
      | Some x => Some x
      | None => parse_decimal t
      end
  end.

(** ** [round(x, 1)] *)

(** The integer nearest to [n / d], ties to the even one. *)
Definition div_half_even (n d : Z) : Z :=
  let q := n / d in
  let r := n mod d in
  match 2 * r ?= d with
  | Lt => q
  | Gt => q + 1
  | Eq => if Z.even q then q else q + 1
  end.

(** The number of tenths nearest to the exact value of [m * 2^e]. *)
Definition nearest_tenths (m : positive) (e : Z) : Z :=
  if 0 <=? e then 10 * Zpos m * 2 ^ e
  else div_half_even (10 * Zpos m) (2 ^ (- e)).

(** [round(x, 1)] ([float.__round__] with [ndigits = 1]): a NaN or an
    infinity is returned as it is; a finite [x] is written in decimal with
    one digit after the point, correctly rounded, and read back. *)
Definition py_round1 (x : spec_float) : spec_float :=
  match x with
  | S754_finite s m e =>
      float_of_decimal s (Z.to_N (nearest_tenths m e)) (-1)
  | _ => x
  end.

(** ** [repr(x)] for a [float] *)

(** The decimal digits of a natural number, most significant first. *)
Fixpoint digits_aux (fuel : nat) (n : N) (acc : string) : string :=
  match fuel with
  | O => acc
  | S fuel' =>
      let acc' := String (ascii_of_N (48 + n mod 10)) acc in
      if (n / 10 =? 0)%N then acc' else digits_aux fuel' (n / 10)%N acc'
  end.

Definition digits_of_N (n : N) : string :=
  digits_aux (S (N.to_nat (N.log2 n))) n EmptyString.

Definition digits_of_Z (z : Z) : string :=
  match z with
  | Zneg p => String "-" (digits_of_N (Npos p))
  | _ => digits_of_N (Z.to_N z)
  end.

Fixpoint zeros (n : nat) : string :=
  match n with
  | O => EmptyString
  | S n' => String "0" (zeros n')
  end.

(** [n / d] scaled by [10^k], as a fraction. *)
Definition scale10 (n d k : Z) : Z * Z :=
  if 0 <=? k then (n * 10 ^ k, d) else (n, d * 10 ^ (- k)).

(** [10^k <= n / d]. *)
Definition pow10_le (k n d : Z) : bool :=
  let '(n', d') := scale10 n d (- k) in d' <=? n'.

(** The decimal exponent [k] of a positive [n / d]:
    [10^(k-1) <= n / d < 10^k]. *)
Definition decimal_exponent (n d : Z) : Z :=
  let est := (Z.log2 n - Z.log2 d) * 30103 / 100000 in
  if pow10_le (est + 2) n d then est + 3
  else if pow10_le (est + 1) n d then est + 2
  else if pow10_le est n d then est + 1
  else if pow10_le (est - 1) n d then est
  else est - 1.

(** The exact value of a finite binary64 magnitude, as a fraction. *)
Definition exact_ratio (m : positive) (e : Z) : Z * Z :=
  if 0 <=? e then (Zpos m * 2 ^ e, 1) else (Zpos m, 2 ^ (- e)).

(** The [p]-digit decimal that reads back as [m * 2^e], if there is one:
    of the two [p]-digit neighbours of the exact value, the nearer one that
    is read back as the same binary64 number.  The result is the digits as a
    number, with the power of ten they are scaled by. *)
Definition digits_at (m : positive) (e : Z) (p : Z) : option (N * Z) :=
  let '(n, d) := exact_ratio m e in
  let k := decimal_exponent n d in
  let '(n', d') := scale10 n d (p - k) in
  let lo := n' / d' in
  let r := n' mod d' in
  let x := S754_finite false m e in
  let ok c := match float_of_decimal false (Z.to_N c) (k - p) with
              | S754_finite false m' e' => Pos.eqb m' m && (e' =? e)%Z
              | _ => false
              end in
  let first :=
    if r =? 0 then lo
    else match 2 * r ?= d' with
         | Lt => lo
         | Gt => lo + 1
         | Eq => if Z.even lo then lo else lo + 1
         end in
  let second := if first =? lo then lo + 1 else lo in
  if ok first then Some (Z.to_N first, k - p)
  else if negb (r =? 0) && ok second then Some (Z.to_N second, k - p)
  else None.

(** The shortest decimal that reads back as the number, tried from one digit
    up to seventeen. *)
Fixpoint shortest_digits (m : positive) (e : Z) (fuel : nat) (p : Z)
  : N * Z :=
  match fuel with
  | O => let '(n, d) := exact_ratio m e in (Z.to_N n, 0)
  | S fuel' =>
      match digits_at m e p with
      | Some r => r
      | None => shortest_digits m e fuel' (p + 1)
      end
  end.

Fixpoint drop_trailing_zeros (fuel : nat) (n : N) (e10 : Z) : N * Z :=
  match fuel with
  | O => (n, e10)
  | S fuel' =>
      if ((n mod 10 =? 0) && negb (n =? 0))%N
      then drop_trailing_zeros fuel' (n / 10)%N (e10 + 1)
      else (n, e10)
  end.

(** [float_repr_style = 'short']: fixed notation when the decimal point falls
    within the digits or up to sixteen places after the first one, and
    scientific notation otherwise. *)
Definition format_short (digits : string) (decpt : Z) : string :=
  let nd := Z.of_nat (String.length digits) in
  if (decpt <=? -4) || (16 <? decpt) then
    let mant :=
      match digits with
      | String c EmptyString => digits
      | String c t => String c (String "." t)
      | EmptyString => digits
      end in
    let ex := decpt - 1 in
    let exs := digits_of_N (Z.to_N (Z.abs ex)) in
    let exs := if Z.abs ex <? 10 then String "0" exs else exs in
    let sg := if ex <? 0 then "-"%char else "+"%char in
    (mant ++ String "e" (String sg exs))%string
  else if decpt <=? 0 then
    ("0." ++ zeros (Z.to_nat (- decpt)) ++ digits)%string
  else if nd <=? decpt then
    (digits ++ zeros (Z.to_nat (decpt - nd)) ++ ".0")%string
  else
    (substring 0 (Z.to_nat decpt) digits ++ "." ++
     substring (Z.to_nat decpt) (Z.to_nat (nd - decpt)) digits)%string.

(** [float.__repr__]. *)
Definition float_repr (x : spec_float) : string :=
  match x with
  | S754_nan => "nan"
  | S754_infinity s => if s then "-inf" else "inf"
  | S754_zero s => if s then "-0.0" else "0.0"
  | S754_finite s m e =>
      let '(n, e10) := shortest_digits m e 17 1 in
      let '(n, e10) := drop_trailing_zeros 17 n e10 in
      let ds := digits_of_N n in
      let body := format_short ds (Z.of_nat (String.length ds) + e10) in
      if s then String "-" body else body
  end.

(* ================================================================== *)
(** * JSON *)

(** A Python number as [json] produces and consumes it. *)
Inductive pynum : Type :=
| PInt (z : Z)
| PFloat (x : spec_float).

#[local] Set Warnings "-register-all".

(** The values of [json.loads].  An object is a [dict]: its keys in
    insertion order, each key once. *)
Inductive json : Type :=
| JNull
| JBool (b : bool)
| JNum (n : pynum)
| JStr (s : string)
| JArr (l : list json)
| JObj (d : list (string * json)).

Definition quote : ascii := "034".
Definition backslash : ascii := "092".

(** ** [json.dumps] *)

Definition hex_digit (n : N) : ascii :=
  if (n <? 10)%N then ascii_of_N (48 + n) else ascii_of_N (87 + n).

(** One character of a string, as [ensure_ascii=True] writes it. *)
Definition escape_char (c : ascii) : string :=
  let n := code c in
  if (n =? 34)%N then String backslash (String quote EmptyString)
  else if (n =? 92)%N then String backslash (String backslash EmptyString)
  else if (n =? 10)%N then String backslash "n"
  else if (n =? 13)%N then String backslash "r"
  else if (n =? 9)%N then String backslash "t"
  else if (n =? 8)%N then String backslash "b"
  else if (n =? 12)%N then String backslash "f"
  else if ((32 <=? n) && (n <=? 126))%N then String c EmptyString
  else String backslash
         (String "u" (String "0" (String "0"
            (String (hex_digit (n / 16)) (String (hex_digit (n mod 16))
               EmptyString))))).

Fixpoint escape (s : string) : string :=
  match s with
  | EmptyString => EmptyString
  | String c t => (escape_char c ++ escape t)%string
  end.

Definition encode_string (s : string) : string :=
  String quote (escape s ++ String quote EmptyString).

(** [float.__repr__], except for the three values the encoder names. *)
Definition encode_float (x : spec_float) : string :=
  match x with
  | S754_nan => "NaN"
  | S754_infinity false => "Infinity"
  | S754_infinity true => "-Infinity"
  | _ => float_repr x
  end.

Definition encode_num (n : pynum) : string :=
  match n with
  | PInt z => digits_of_Z z
  | PFloat x => encode_float x
  end.

Fixpoint join (sep : string) (l : list string) : string :=
  match l with
  | [] => EmptyString
  | [x] => x
  | x :: t => (x ++ sep ++ join sep t)%string
  end.

(** [json.dumps(v)] with the default separators. *)
Fixpoint json_dumps (v : json) : string :=
  match v with
  | JNull => "null"
  | JBool true => "true"
  | JBool false => "false"
  | JNum n => encode_num n
  | JStr s => encode_string s
  | JArr l => ("[" ++ join ", " (map json_dumps l) ++ "]")%string
  | JObj d =>
      ("{" ++ join ", "
         (map (fun kv => encode_string (fst kv) ++ ": " ++ json_dumps (snd kv))
              d) ++ "}")%string
  end.

(** ** [json.loads] *)

Definition is_json_ws (c : ascii) : bool :=
  let n := code c in
  ((n =? 32) || (n =? 9) || (n =? 10) || (n =? 13))%N.

Fixpoint skip_ws (s : string) : string :=
  match s with
  | String c t => if is_json_ws c then skip_ws t else s
  | EmptyString => s
  end.

Definition hex_val (c : ascii) : option N :=
  let n := code c in
  if ((48 <=? n) && (n <=? 57))%N then Some (n - 48)%N
  else if ((97 <=? n) && (n <=? 102))%N then Some (n - 87)%N
  else if ((65 <=? n) && (n <=? 70))%N then Some (n - 55)%N
  else None.

Definition hex4 (a b c d : ascii) : option N :=
  match hex_val a, hex_val b, hex_val c, hex_val d with
  | Some x, Some y, Some z, Some w => Some (((x * 16 + y) * 16 + z) * 16 + w)%N
  | _, _, _, _ => None
  end.

Definition unescape (c : ascii) : option ascii :=
  let n := code c in
  if (n =? 34)%N then Some quote
  else if (n =? 92)%N then Some backslash
  else if (n =? 47)%N then Some "/"%char
  else if (n =? 98)%N then Some "008"%char
  else if (n =? 102)%N then Some "012"%char
  else if (n =? 110)%N then Some "010"%char
  else if (n =? 114)%N then Some "013"%char
  else if (n =? 116)%N then Some "009"%char
  else None.

Definition cons_char (c : ascii) (r : option (string * string))
  : option (string * string) :=
  match r with
  | Some (s, rest) => Some (String c s, rest)
  | None => None
  end.

(** The body of a string, after its opening quote: the decoded text and
    what follows the closing quote.  Control characters must be escaped.  An
    escape [\uXXXX] of a code point from 256 on has no counterpart in
    [string]: such a text is outside the embedding and is not read. *)
Fixpoint scanstring (s : string) : option (string * string) :=
  match s with
  | EmptyString => None
  | String c t =>
      if (code c =? 34)%N then Some (EmptyString, t)
      else if (code c =? 92)%N then
        match t with
        | String e t' =>
            if (code e =? 117)%N then
              match t' with
              | String h1 (String h2 (String h3 (String h4 r))) =>
                  match hex4 h1 h2 h3 h4 with
                  | Some n =>
                      if (n <? 256)%N
                      then cons_char (ascii_of_N n) (scanstring r)
                      else None
                  | None => None
                  end
              | _ => None
              end
            else
              match unescape e with
              | Some ch => cons_char ch (scanstring t')
              | None => None
              end
        | EmptyString => None
        end
      else if (code c <? 32)%N then None
      else cons_char c (scanstring t)
  end.

(** A number: an optional minus sign, an integer part without a leading
    zero (or a single zero), then optionally a point with digits and an
    exponent.  With a fraction or an exponent it is a [float], otherwise an
    [int]. *)
Definition scan_minus (s : string) : bool * string :=
  match s with
  | String c t => if Ascii.eqb c "-" then (true, t) else (false, s)
  | EmptyString => (false, s)
  end.

Definition scan_int (s : string) : option (N * string) :=
  match s with
  | String c t =>
      if is_digit c then
        if Ascii.eqb c "0" then Some (0%N, t)
        else let '(ip, _, r) := read_digits s 0%N 0 in Some (ip, r)
      else None
  | EmptyString => None
  end.

(** The fraction: a point that a digit follows.  The digits extend the
    integer part [ip]; their number is the second component. *)
Definition scan_frac (ip : N) (s : string) : N * Z * string :=
  match s with
  | String p (String d _ as t) =>
      if Ascii.eqb p "." && is_digit d then read_digits t ip 0 else (ip, 0, s)
  | _ => (ip, 0, s)
  end.

Definition scan_number (s : string) : option (pynum * string) :=
  let '(neg, s1) := scan_minus s in
  match scan_int s1 with
  | None => None
  | Some (ip, s2) =>
      let '(m, nf, s3) := scan_frac ip s2 in
      match read_exponent s3 with
      | Some (e, s4) => Some (PFloat (float_of_decimal neg m (e - nf)), s4)
      | None =>
          if (nf =? 0)%Z
          then Some (PInt (if neg then - Z.of_N ip else Z.of_N ip), s3)
          else Some (PFloat (float_of_decimal neg m (- nf)), s3)
      end
  end.

(** [s] without the prefix [p], when it starts with it. *)
Fixpoint strip_prefix (p s : string) : option string :=
  match p, s with
  | EmptyString, _ => Some s
  | String a p', String b s' =>
      if Ascii.eqb a b then strip_prefix p' s' else None
  | String _ _, EmptyString => None
  end.

(** [d[k] = v] on a [dict]. *)
Fixpoint dict_set (k : string) (v : json) (d : list (string * json))
  : list (string * json) :=
  match d with
  | [] => [(k, v)]
  | (k', v') :: t =>
      if String.eqb k k' then (k, v) :: t else (k', v') :: dict_set k v t
  end.

Definition dict_of_pairs (l : list (string * json)) : list (string * json) :=
  fold_left (fun d kv => dict_set (fst kv) (snd kv) d) l [].

Section Scanner.
(** The scanner for one value, on which the loops below call back. *)
Variable scan : string -> option (json * string).

(** The items of an array, after the first [skip_ws]. *)
Fixpoint array_items (fuel : nat) (s : string)
  : option (list json * string) :=
  match fuel with
  | O => None
  | S fuel' =>
      match scan s with
      | None => None
      | Some (v, r) =>
          match skip_ws r with
          | String "," r' =>
              match array_items fuel' (skip_ws r') with
              | Some (vs, rest) => Some (v :: vs, rest)
              | None => None
              end
          | String "]" r' => Some ([v], r')
          | _ => None
          end
      end
  end.

(** The members of an object, from the quote that opens a key. *)
Fixpoint object_items (fuel : nat) (s : string)
  : option (list (string * json) * string) :=
  match fuel with
  | O => None
  | S fuel' =>
      match s with
      | String q t =>
          if (code q =? 34)%N then
            match scanstring t with
            | None => None
            | Some (k, r) =>
                match skip_ws r with
                | String ":" r1 =>
                    match scan (skip_ws r1) with
                    | None => None
                    | Some (v, r2) =>
                        match skip_ws r2 with
                        | String "," r3 =>
                            match object_items fuel' (skip_ws r3) with
                            | Some (kvs, rest) => Some ((k, v) :: kvs, rest)
                            | None => None
                            end
                        | String "}" r3 => Some ([(k, v)], r3)
                        | _ => None
                        end
                    end
                | _ => None
                end
            end
          else None
      | EmptyString => None
      end
  end.
End Scanner.

(** One JSON value at the head of the text, and the rest of the text.  The
    fuel bounds the nesting depth and the number of items of one array or
    object; [json_loads] gives it the length of the text. *)
Fixpoint scan_once (fuel : nat) (s : string) : option (json * string) :=
  match fuel with
  | O => None
  | S fuel' =>
      match s with
      | EmptyString => None
      | String c t =>
          if (code c =? 34)%N then
            match scanstring t with
            | Some (x, r) => Some (JStr x, r)
            | None => None
            end
          else if Ascii.eqb c "{" then
            match skip_ws t with
            | String "}" r => Some (JObj [], r)
            | t' =>
                match object_items (scan_once fuel') fuel' t' with
                | Some (kvs, r) => Some (JObj (dict_of_pairs kvs), r)
                | None => None
                end
            end
          else if Ascii.eqb c "[" then
            match skip_ws t with
            | String "]" r => Some (JArr [], r)
            | t' =>
                match array_items (scan_once fuel') fuel' t' with
                | Some (vs, r) => Some (JArr vs, r)
                | None => None
                end
            end
          else
            match strip_prefix "null" s with
            | Some r => Some (JNull, r)
            | None =>
            match strip_prefix "true" s with
            | Some r => Some (JBool true, r)
            | None =>
            match strip_prefix "false" s with
            | Some r => Some (JBool false, r)
            | None =>
            match strip_prefix "NaN" s with
            | Some r => Some (JNum (PFloat S754_nan), r)
            | None =>
            match strip_prefix "Infinity" s with
            | Some r => Some (JNum (PFloat (S754_infinity false)), r)
            | None =>
            match strip_prefix "-Infinity" s with
            | Some r => Some (JNum (PFloat (S754_infinity true)), r)
            | None =>
            match scan_number s with
            | Some (n, r) => Some (JNum n, r)
            | None => None
            end end end end end end end
      end
  end.

(** [json.loads(s)]: [None] stands for the [JSONDecodeError]. *)
Definition json_loads (s : string) : option json :=
  match scan_once (S (String.length s)) (skip_ws s) with
  | Some (v, r) =>
      match skip_ws r with
      | EmptyString => Some v
      | _ => None
      end
  | None => None
  end.

(* ================================================================== *)
(** * Python operations the handler uses *)

(** ** Comparing numbers

    Python compares an [int] with a [float] by their exact values; a
    comparison with a NaN is neither less, equal nor greater. *)

Definition Zcompare_float (z : Z) (x : spec_float) : option comparison :=
  match x with
  | S754_nan => None
  | S754_infinity s => Some (if s then Gt else Lt)
  | S754_zero _ => Some (z ?= 0)
  | S754_finite s m e =>
      let v := if s then Zneg m else Zpos m in
      if 0 <=? e then Some (z ?= v * 2 ^ e) else Some (z * 2 ^ (- e) ?= v)
  end.

Definition num_compare (a b : pynum) : option comparison :=
  match a, b with
  | PInt x, PInt y => Some (x ?= y)
  | PFloat x, PFloat y => SFcompare x y
  | PInt x, PFloat y => Zcompare_float x y
  | PFloat x, PInt y => option_map CompOpp (Zcompare_float y x)
  end.

(** [a < b], [a <= b] and [a > b]. *)
Definition num_lt (a b : pynum) : bool :=
  match num_compare a b with Some Lt => true | _ => false end.
Definition num_le (a b : pynum) : bool :=
  match num_compare a b with Some (Lt | Eq) => true | _ => false end.
Definition num_gt (a b : pynum) : bool := num_lt b a.

(** ** Exceptions *)

Inductive exn : Type :=
| KeyError            (* a missing request parameter or dict key *)
| ValueError          (* [float] of a text that is not a number *)
| RuntimeError        (* a bare [raise] outside a handler *)
| TypeError
| AttributeError
| JSONDecodeError
| NotFound            (* the blob store: the object does not exist *)
| Forbidden           (* the blob store: no permission *)
| ServiceUnavailable. (* the blob store: transport failure *)

Inductive result (A : Type) : Type :=
| Ok (a : A)
| Raise (e : exn).
Arguments Ok {A} a.
Arguments Raise {A} e.

Definition rbind {A B} (r : result A) (f : A -> result B) : result B :=
  match r with
  | Ok a => f a
  | Raise e => Raise e
  end.

Notation "x <-- r ;;; k" := (rbind r (fun x => k))
  (at level 61, r at next level, right associativity).

Definition or_raise {A} (e : exn) (o : option A) : result A :=
  match o with
  | Some a => Ok a
  | None => Raise e
  end.

(** ** Subscripts, negation, [list.insert] and [sorted] *)

(** [d[key]] on the parameters of a request (a [MultiDict]): the first value
    given for the key. *)
Fixpoint getitem (d : list (string * string)) (key : string) : result string :=
  match d with
  | [] => Raise KeyError
  | (k, v) :: t => if String.eqb k key then Ok v else getitem t key
  end.

Fixpoint dict_get (key : string) (d : list (string * json)) : option json :=
  match d with
  | [] => None
  | (k, v) :: t => if String.eqb k key then Some v else dict_get key t
  end.

(** [x[key]] for a text key on a JSON value: only a [dict] has one. *)
Definition subscript (x : json) (key : string) : result json :=
  match x with
  | JObj d => or_raise KeyError (dict_get key d)
  | _ => Raise TypeError
  end.

(** Unary minus. *)
Definition negate (v : json) : result pynum :=
  match v with
  | JNum (PInt z) => Ok (PInt (- z))
  | JNum (PFloat x) => Ok (PFloat (f64_neg x))
  | JBool b => Ok (PInt (if b then -1 else 0))
  | _ => Raise TypeError
  end.

(** [data.insert(0, x)]: only a list has the method. *)
Definition insert0 (data : json) (x : json) : result (list json) :=
  match data with
  | JArr l => Ok (x :: l)
  | _ => Raise AttributeError
  end.

Fixpoint map_result {A B} (f : A -> result B) (l : list A) : result (list B) :=
  match l with
  | [] => Ok []
  | x :: t => y <-- f x ;;; ys <-- map_result f t ;;; Ok (y :: ys)
  end.

Section InsertionSort.
Context {A : Type}.
(** [lt y x]: [y] is smaller than [x]. *)
Variable lt : A -> A -> bool.

(** Puts [x] into a list already in order, after the elements smaller
    than [x] that the list starts with. *)
Fixpoint insert_sorted (x : A) (l : list A) : list A :=
  match l with
  | [] => [x]
  | y :: t => if lt y x then y :: insert_sorted x t else x :: l
  end.

(** A stable sort that compares with [lt] only. *)
Definition insertion_sort (l : list A) : list A :=
  fold_right insert_sorted [] l.
End InsertionSort.

(** Pairs of a key and an element are compared by their keys. *)
Definition pair_lt (p q : pynum * json) : bool := num_lt (fst p) (fst q).

(** [sorted(l, key=key)]: the keys are computed first, one per element;
    the elements are then put in ascending order of their keys, with [<] as
    the only comparison, elements of equal keys staying in their order.
    On keys that [<] orders totally this is the list that CPython returns. *)
Definition sorted (l : list json) (key : json -> result pynum)
  : result (list json) :=
  keys <-- map_result key l ;;;
  Ok (map snd (insertion_sort pair_lt (combine keys l))).

(* ================================================================== *)
(** * The blob store *)

(** The object [highscores.json] of the bucket [asteroids-highscores] as
    the service sees it: its text when it exists, the failure that the
    store answers a download or an upload with, and the uploads made so
    far, the latest first. *)
Record cloud : Type := {
  object : option string;
  download_fault : option exn;
  upload_fault : option exn;
  uploads : list string
}.

(** A computation on the store that may raise. *)
Definition M (A : Type) : Type := cloud -> result A * cloud.

Definition ret {A} (a : A) : M A := fun st => (Ok a, st).

Definition bind {A B} (m : M A) (f : A -> M B) : M B :=
  fun st =>
    match m st with
    | (Ok a, st') => f a st'
    | (Raise e, st') => (Raise e, st')
    end.

Definition lift {A} (r : result A) : M A := fun st => (r, st).

Notation "x <- m ;; k" := (bind m (fun x => k))
  (at level 61, m at next level, right associativity).

(** [blob.download_as_text()]. *)
Definition download_as_text : M string :=
  fun st =>
    match download_fault st with
    | Some e => (Raise e, st)
    | None => (or_raise NotFound (object st), st)
    end.

(** [blob.upload_from_string(data)]: the object is replaced as a whole. *)
Definition upload_from_string (data : string) : M unit :=
  fun st =>
    match upload_fault st with
    | Some e => (Raise e, st)
    | None =>
        (Ok tt, {| object := Some data;
                   download_fault := download_fault st;
                   upload_fault := upload_fault st;
                   uploads := data :: uploads st |})
    end.

(* ================================================================== *)
(** * The service: [main.py] *)

Definition bucket_name : string := "asteroids-highscores".
Definition object_name : string := "highscores.json".
Definition headers : list (string * string) :=
  [("Access-Control-Allow-Origin", "*")].

(** What the handler reads of a request.  [args] are the parameters of the
    query string, [form] those of a form-encoded body. *)
Record Request : Type := {
  path : string;
  method : string;
  args : list (string * string);
  form : list (string * string)
}.

(** A response body: a text, or a value that the framework serialises. *)
Inductive body : Type :=
| Text (s : string)
| Data (v : json).

Definition response : Type := (body * Z * list (string * string))%type.

Definition read_storage : M string := download_as_text.

Definition write_storage (data : json) : M unit :=
  let data := json_dumps data in
  upload_from_string data.

Definition list_highscores : M response :=
  data <- read_storage ;;
  ret (Text data, 200, headers).

(** The [try] block of [submit]: the validated name and the rounded score,
    or the exception that ends it. *)
Definition submit_try (request : Request) : result (string * spec_float) :=
  name <-- getitem (args request) "name" ;;;
  if (String.length name =? 0)%nat || (20 <? String.length name)%nat
  then Raise RuntimeError
  else
    text <-- getitem (args request) "score" ;;;
    x <-- or_raise ValueError (py_float text) ;;;
    let score := py_round1 x in
    if num_le (PFloat score) (PInt 0) || num_gt (PFloat score) (PInt 100000)
    then Raise RuntimeError
    else Ok (name, score).

(** The entry that [submit] inserts. *)
Definition new_entry (name : string) (score : spec_float) (now : string)
  : json :=
  JObj [("name", JStr name); ("score", JNum (PFloat score));
        ("timestamp", JStr now)].

(** The key that [submit] sorts by: [lambda x: -x["score"]]. *)
Definition score_key (x : json) : result pynum :=
  v <-- subscript x "score" ;;; negate v.

(** [submit(request)]; [now] is [datetime.datetime.now().isoformat()]. *)
Definition submit (now : string) (request : Request) : M response :=
  match submit_try request with
  | Raise _ => ret (Text "Bad request", 400, headers)
  | Ok (name, score) =>
      data <- read_storage ;;
      data <- lift (or_raise JSONDecodeError (json_loads data)) ;;
      data <- lift (insert0 data (new_entry name score now)) ;;
      data <- lift (sorted data score_key) ;;
      let data := JArr (firstn 10 data) in
      _ <- write_storage data ;;
      ret (Data data, 200, headers)
  end.

Definition main (now : string) (request : Request) : M response :=
  if String.eqb (path request) "/" then list_highscores
  else if String.eqb (path request) "/submit"
          && String.eqb (method request) "POST"
  then submit now request
  else ret (Text "Bad request", 400, headers).

(* ================================================================== *)
(** * Notions used in the statements *)

(** The score of a leaderboard entry, when it is a [float]. *)
Definition fscore (x : json) : option spec_float :=
  match x with
  | JObj d =>
      match dict_get "score" d with
      | Some (JNum (PFloat f)) => Some f
      | _ => None
      end
  | _ => None
  end.

(** An entry that carries a score which is a number: an object whose
    ["score"] is a [float] other than NaN. *)
Definition well_scored (x : json) : bool :=
  match fscore x with
  | Some f => negb (is_nan f)
  | None => false
  end.

(** [x] has a score at least as high as [y], and a strictly higher one. *)
Definition score_ge (x y : json) : Prop :=
  match fscore x, fscore y with
  | Some a, Some b => f64_le b a = true
  | _, _ => False
  end.

Definition score_gt (x y : json) : Prop :=
  match fscore x, fscore y with
  | Some a, Some b => f64_lt b a = true
  | _, _ => False
  end.

(** [x] and [y] have equal scores ([==] of Python). *)
Definition same_score (x y : json) : bool :=
  match fscore x, fscore y with
  | Some a, Some b => SFeqb a b
  | _, _ => false
  end.

(** A valid submission in the words of the specification (4.3): [name] is
    present, not empty and of at most 20 characters; [score] is present and
    parses as a number which, rounded to one decimal place, is greater than
    0 and at most 100000.  The result is the name and the rounded score. *)
Definition valid_submission (request : Request)
  : option (string * spec_float) :=
  match getitem (args request) "name", getitem (args request) "score" with
  | Ok name, Ok text =>
      match py_float text with
      | Some x =>
          let r := py_round1 x in
          if (1 <=? String.length name)%nat && (String.length name <=? 20)%nat
             && num_lt (PInt 0) (PFloat r) && num_le (PFloat r) (PInt 100000)
          then Some (name, r)
          else None
      | None => None
      end
  | _, _ => None
  end.

(** The range check of [submit] on a rounded score [r]. *)
Definition score_rejected (r : spec_float) : bool :=
  num_le (PFloat r) (PInt 0) || num_gt (PFloat r) (PInt 100000).

(** An invalid submission in the words of claim C3. *)
Definition invalid_submission (request : Request) : Prop :=
  getitem (args request) "name" = Raise KeyError
  \/ (exists name, getitem (args request) "name" = Ok name
        /\ (String.length name = 0 \/ 20 < String.length name)%nat)
  \/ getitem (args request) "score" = Raise KeyError
  \/ (exists text, getitem (args request) "score" = Ok text
        /\ py_float text = None)
  \/ (exists text x, getitem (args request) "score" = Ok text
        /\ py_float text = Some x
        /\ (num_le (PFloat (py_round1 x)) (PInt 0) = true
            \/ num_gt (PFloat (py_round1 x)) (PInt 100000) = true)).

(** The store after [text] has been uploaded. *)
Definition uploaded (text : string) (st : cloud) : cloud :=
  {| object := Some text;
     download_fault := download_fault st;
     upload_fault := upload_fault st;
     uploads := text :: uploads st |}.

(** The order of two entries by the key of [submit], and the sort it gives:
    [sorted] with [score_key], on elements that all have a key. *)
Definition key_lt (y x : json) : bool :=
  match score_key y, score_key x with
  | Ok a, Ok b => num_lt a b
  | _, _ => false
  end.

Definition sort_entries (l : list json) : list json :=
  insertion_sort key_lt l.

(** The list that a successful [submit] computes from the entry and the
    list read from the store. *)
Definition top10 (entry : json) (l : list json) : list json :=
  firstn 10 (sort_entries (entry :: l)).

(** ** The leaderboard of the data model *)

Record ScoreEntry : Type := {
  entry_name : string;
  entry_score : spec_float;
  entry_timestamp : string
}.

(** The [dict] that stands for an entry, and the list for a leaderboard. *)
Definition entry_json (e : ScoreEntry) : json :=
  new_entry (entry_name e) (entry_score e) (entry_timestamp e).

Definition leaderboard_json (l : list ScoreEntry) : json :=
  JArr (map entry_json l).

(** The text that the encoder writes for the number is read back as that
    number.  CPython guarantees it of the [repr] of every finite [float];
    here it is a property that evaluation decides for a given number. *)
Definition float_text_ok (x : spec_float) : Prop :=
  scan_number (encode_float x) = Some (PFloat x, EmptyString).

(** The characters that follow a value inside an array or an object. *)
Definition is_delim (c : ascii) : Prop :=
  c = ","%char \/ c = "}"%char \/ c = "]"%char.

(** ** The texts of arrays and objects

    [scans_back f v]: inside an array or an object, the text of [v] is read
    as [v] by the scanner with fuel [f]. *)
Definition scans_back (f : nat) (v : json) : Prop :=
  forall c r, is_delim c ->
    scan_once f (json_dumps v ++ String c r) = Some (v, String c r).

(** The text of the items of an array, up to the closing bracket, and of
    the members of an object, up to the closing brace. *)
Definition items_text (l : list json) (rest : string) : string :=
  (join ", " (map json_dumps l) ++ String "]" rest)%string.

Definition member_text (kv : string * json) : string :=
  (encode_string (fst kv) ++ ": " ++ json_dumps (snd kv))%string.

Definition members_text (d : list (string * json)) (rest : string) : string :=
  (join ", " (map member_text d) ++ String "}" rest)%string.

(** ** Example data *)

Definition store_of (l : list json) : cloud :=
  {| object := Some (json_dumps (JArr l));
     download_fault := None;
     upload_fault := None;
     uploads := [] |}.

(** A store that cannot be reached, and one that refuses uploads. *)
Definition store_down (l : list json) : cloud :=
  {| object := Some (json_dumps (JArr l));
     download_fault := Some ServiceUnavailable;
     upload_fault := Some ServiceUnavailable;
     uploads := [] |}.

Definition store_read_only (l : list json) : cloud :=
  {| object := Some (json_dumps (JArr l));
     download_fault := None;
     upload_fault := Some Forbidden;
     uploads := [] |}.

Definition post_submit (a : list (string * string)) : Request :=
  {| path := "/submit"; method := "POST"; args := a; form := [] |}.

Definition submission (name score : string) : list (string * string) :=
  [("name", name); ("score", score)].

(** The same parameters, sent in a form-encoded body. *)
Definition form_submit (f : list (string * string)) : Request :=
  {| path := "/submit"; method := "POST"; args := []; form := f |}.

(** A request with other form-encoded parameters. *)
Definition with_form (f : list (string * string)) (request : Request)
  : Request :=
  {| path := path request; method := method request;
     args := args request; form := f |}.

Definition board_AB : list json :=
  [new_entry "A" (float_of_Z 50) "2024-05-01T10:00:00.000001";
   new_entry "B" (float_of_Z 40) "2024-05-01T11:00:00.000002"].

Definition now0 : string := "2024-05-02T09:30:00.000003".

(** A leaderboard of the data model; the second name holds a quote, a
    backslash, a line feed and a character above 127. *)
Definition sample_board : list ScoreEntry :=
  [ {| entry_name := "A"; entry_score := float_of_Z 50;
       entry_timestamp := "2024-05-01T10:00:00.000001" |};
    {| entry_name :=
         String quote (String backslash (String "010" (String "233" "B")));
       entry_score := float_of_decimal false 999999 (-1);
       entry_timestamp := "2024-05-01T11:00:00.000002" |} ].

(** The score of [k] tenths, and the scores from [k] tenths on, [n] of
    them. *)
Definition tenths (k : positive) : spec_float :=
  float_of_decimal false (Npos k) (-1).

Fixpoint tenths_from (n : nat) (k : positive) : list spec_float :=
  match n with
  | O => []
  | S n' => tenths k :: tenths_from n' (Pos.succ k)
  end.

(** [float_text_ok], decided. *)
Definition float_text_check (x : spec_float) : bool :=
  match scan_number (encode_float x), x with
  | Some (PFloat (S754_finite s m e), EmptyString), S754_finite s' m' e' =>
      Bool.eqb s s' && Pos.eqb m m' && Z.eqb e e'
  | Some (PFloat (S754_zero s), EmptyString), S754_zero s' => Bool.eqb s s'
  | _, _ => false
  end.

(** Ten entries of score 50. *)
Definition board_full : list json :=
  map (fun n => new_entry n (float_of_Z 50) "2024-05-01T10:00:00.000001")
      ["P0"; "P1"; "P2"; "P3"; "P4"; "P5"; "P6"; "P7"; "P8"; "P9"].

(** A request for the list, sent as a POST with parameters. *)
Definition root_request : Request :=
  {| path := "/"; method := "POST";
     args := submission "C" "50"; form := [] |}.

(** Stores whose object is missing, is not JSON, is not an array, and is an
    array with an entry that has no score. *)
Definition store_missing : cloud :=
  {| object := None; download_fault := None; upload_fault := None;
     uploads := [] |}.

Definition store_text (text : string) : cloud :=
  {| object := Some text; download_fault := None; upload_fault := None;
     uploads := [] |}.

Definition nameless_entry : json := JObj [("name", JStr "A")].

(** The submission of [{C,50}] with parameters before, between and after
    that [submit] does not look at. *)
Definition noisy_submission : list (string * string) :=
  [("lang", "en"); ("name", "C"); ("score", "50"); ("score", "99999");
   ("name", "Z")].

(** Requests of one session: two submissions, a listing, a submission
    without a name, a request for another path, a third submission. *)
Definition session : list (string * Request) :=
  [ ("2024-05-02T09:30:00.000003", post_submit (submission "C" "50"));
    ("2024-05-02T09:31:00.000004", post_submit (submission "D" "70.25"));
    ("2024-05-02T09:32:00.000005", root_request);
    ("2024-05-02T09:33:00.000006", post_submit [("score", "12")]);
    ("2024-05-02T09:34:00.000007",
     {| path := "/reset"; method := "POST"; args := []; form := [] |});
    ("2024-05-02T09:35:00.000008", post_submit (submission "E" "50")) ].

(* ================================================================== *)
(** * The service over several requests *)

(** The framework calls [main] once for each request.  [serve] is one
    instance handling requests one after the other, each with the time at
    which it is handled: the answers in order, and the store at the end. *)
Fixpoint serve (requests : list (string * Request)) (st : cloud)
  : list (result response) * cloud :=
  match requests with
  | [] => ([], st)
  | (now, request) :: rest =>
      let '(answer, st1) := main now request st in
      let '(answers, st2) := serve rest st1 in
      (answer :: answers, st2)
  end.

(** The store answers downloads and uploads and holds the text of the
    leaderboard [L]. *)
Definition persisted (st : cloud) (L : list ScoreEntry) : Prop :=
  download_fault st = None /\ upload_fault st = None
  /\ object st = Some (json_dumps (leaderboard_json L)).

Definition entry_ge (a b : ScoreEntry) : Prop :=
  f64_le (entry_score b) (entry_score a) = true.

(** A store in good order: it holds a leaderboard of at most ten entries,
    in non-increasing order of scores that are written as numbers. *)
Definition healthy (st : cloud) : Prop :=
  exists L, persisted st L
    /\ Forall (fun e => float_text_ok (entry_score e)) L
    /\ (List.length L <= 10)%nat
    /\ StronglySorted entry_ge L.

(** A request that, if [submit] accepts it, carries a score that is written
    as a number (which leaves out the NaN). *)
Definition numeric_request (request : Request) : bool :=
  match submit_try request with
  | Ok (_, score) => float_text_check score
  | Raise _ => true
  end.

(** The order of [submit] on the entries of the data model. *)
Definition entry_lt (a b : ScoreEntry) : bool :=
  key_lt (entry_json a) (entry_json b).

(** What a request for "/" is answered, read off the store. *)
Definition listing (st : cloud) : result response :=
  match download_fault st, object st with
  | Some e, _ => Raise e
  | None, None => Raise NotFound
  | None, Some text => Ok (Text text, 200, headers)
  end.

(* ================================================================== *)
(** * The text of a score *)

(** A score of the data model: a decimal number with one digit after the
    point, above 0 and at most 100000, as the binary64 number nearest to
    it. *)
Definition model_score (x : spec_float) : Prop :=
  exists k : positive, (k <= 1000000)%positive /\ x = tenths k.

(** ** Rounding to binary64, in integers *)

(** A mantissa of 53 bits with its exponent; a mantissa that was rounded up
    to [2^53] is written [2^52] with the next exponent. *)
Definition norm53 (m e : Z) : Z * Z :=
  if m =? 2 ^ 53 then (2 ^ 52, e + 1) else (m, e).

(** The mantissa and the exponent of the binary64 number nearest to
    [n / d], where [e] is such that [2^(e+52) <= n / d < 2^(e+53)]. *)
Definition round_ratio (n d e : Z) : Z * Z :=
  norm53 (div_half_even (n * 2 ^ (- e)) d) e.

Definition finite53 (s : bool) (me : Z * Z) : spec_float :=
  S754_finite s (Z.to_pos (fst me)) (snd me).

(** [p * 10^e10] is at least [2^-5] and less than [2^52]. *)
Definition dec_range (p : positive) (e10 : Z) : Prop :=
  10 ^ Z.max 0 (- e10) <= Zpos p * 10 ^ Z.max 0 e10 * 2 ^ 5
  /\ Zpos p * 10 ^ Z.max 0 e10 < 10 ^ Z.max 0 (- e10) * 2 ^ 52.

(** [10^k <= n / d], for a [k] of either sign: what [pow10_le] decides. *)
Definition ge10 (k n d : Z) : Prop :=
  d * 10 ^ Z.max 0 k <= n * 10 ^ Z.max 0 (- k).

(** Between [2^L] and [2^(L+1)], the estimate that [decimal_exponent]
    starts from is at most three below the decimal exponent and at most one
    above it. *)
Definition est_check (L : Z) : bool :=
  let est := L * 30103 / 100000 in
  (2 ^ 53 * 10 ^ Z.max 0 (- (est + 3)) <=? 2 ^ (52 - L) * 10 ^ Z.max 0 (est + 3))
  && (2 ^ (52 - L) * 10 ^ Z.max 0 (est - 2)
      <=? 2 ^ 52 * 10 ^ Z.max 0 (- (est - 2))).

(** [m * 2^e] is a binary64 number of 53 bits with the decimal exponent
    [K]: it is at least [10^(K-1)] and less than [10^K]. *)
Definition float_in_decade (m : positive) (e K : Z) : Prop :=
  2 ^ 52 <= Zpos m < 2 ^ 53 /\ -57 <= e <= -30 /\ 1 <= K <= 14
  /\ 2 ^ (- e) * 10 ^ (K - 1) <= Zpos m < 2 ^ (- e) * 10 ^ K.

(** ** Digit strings *)

Fixpoint all_digits (s : string) : bool :=
  match s with
  | EmptyString => true
  | String c t => is_digit c && all_digits t
  end.

(** The number that [read_digits] makes of a digit string, from [acc]. *)
Fixpoint str_val (s : string) (acc : N) : N :=
  match s with
  | EmptyString => acc
  | String c t => str_val t (10 * acc + digit_val c)%N
  end.

Definition no_digit_head (s : string) : Prop :=
  match s with
  | String c _ => is_digit c = false
  | EmptyString => True
  end.

(** A text that starts with a character other than the zero. *)
Definition no_leading_zero (s : string) : Prop :=
  match s with
  | String c _ => Ascii.eqb c "0" = false
  | EmptyString => False
  end.

(** [D] is the decimal writing of [n]: digits only, as many as [n] needs,
    that [read_digits] reads as [n]. *)
Definition digits_of (D : string) (n : N) : Prop :=
  all_digits D = true
  /\ (forall a, Z.of_N (str_val D a)
                = Z.of_N a * 10 ^ Z.of_nat (String.length D) + Z.of_N n)
  /\ Z.of_N n < 10 ^ Z.of_nat (String.length D)
  /\ (1 <= String.length D)%nat
  /\ (0 < Z.of_N n ->
      10 ^ (Z.of_nat (String.length D) - 1) <= Z.of_N n
      /\ no_leading_zero D).

(* ================================================================== *)
(** * The order of scores *)

(** The place of a number other than NaN in the order of [SFcompare]:
    its class, then exponent and mantissa. *)
Definition rank (x : spec_float) : Z * Z * Z :=
  match x with
  | S754_nan => (0, 0, 0)
  | S754_zero _ => (0, 0, 0)
  | S754_infinity s => (if s then -2 else 2, 0, 0)
  | S754_finite true m e => (-1, - e, Zneg m)
  | S754_finite false m e => (1, e, Zpos m)
  end.

Definition lex_lt (a b : Z * Z * Z) : Prop :=
  let '(a1, a2, a3) := a in
  let '(b1, b2, b3) := b in
  a1 < b1 \/ (a1 = b1 /\ (a2 < b2 \/ (a2 = b2 /\ a3 < b3))).

Lemma SFcompare_rank (a b : spec_float) :
  is_nan a = false -> is_nan b = false ->
  exists c, SFcompare a b = Some c /\
    match c with
    | Lt => lex_lt (rank a) (rank b)
    | Eq => rank a = rank b
    | Gt => lex_lt (rank b) (rank a)
    end.
Proof.
  intros Ha Hb.
  destruct a as [sa|sa| |sa ma ea], b as [sb|sb| |sb mb eb];
    try discriminate; simpl;
    try (destruct sa); try (destruct sb); simpl;
    try (eexists; split; [reflexivity|]; simpl; try reflexivity; lia).
  all: change (Pos.compare_cont Eq ma mb) with (Pos.compare ma mb).
  all: destruct (Z.compare_spec ea eb) as [He|He|He];
       try (eexists; split; [reflexivity|]; simpl; lia).
  all: destruct (Pos.compare_spec ma mb) as [Hm|Hm|Hm];
       eexists; (split; [reflexivity|]); simpl; subst; try reflexivity; lia.
Qed.

Lemma lex_lt_irrefl (a : Z * Z * Z) : ~ lex_lt a a.
Proof. destruct a as [[a1 a2] a3]; simpl; lia. Qed.

Lemma lex_lt_trans (a b c : Z * Z * Z) : lex_lt a b -> lex_lt b c -> lex_lt a c.
Proof.
  destruct a as [[a1 a2] a3], b as [[b1 b2] b3], c as [[c1 c2] c3]; simpl; lia.
Qed.

Lemma lex_lt_total (a b : Z * Z * Z) : lex_lt a b \/ a = b \/ lex_lt b a.
Proof.
  destruct a as [[a1 a2] a3], b as [[b1 b2] b3]; simpl.
  destruct (Z.lt_total a1 b1) as [?|[?|?]]; [lia| |lia].
  destruct (Z.lt_total a2 b2) as [?|[?|?]]; [lia| |lia].
  destruct (Z.lt_total a3 b3) as [?|[?|?]]; [lia| |lia].
  right; left; congruence.
Qed.

Lemma f64_lt_spec (a b : spec_float) :
  is_nan a = false -> is_nan b = false ->
  f64_lt a b = true <-> lex_lt (rank a) (rank b).
Proof.
  intros Ha Hb. unfold f64_lt, SFltb.
  destruct (SFcompare_rank a b Ha Hb) as [c [-> Hc]].
  destruct c; split; intro H; try discriminate; try reflexivity; try assumption.
  - rewrite Hc in H. now apply lex_lt_irrefl in H.
  - exfalso. apply (lex_lt_irrefl (rank a)). eapply lex_lt_trans; eassumption.
Qed.

Lemma f64_le_spec (a b : spec_float) :
  is_nan a = false -> is_nan b = false ->
  f64_le a b = true <-> ~ lex_lt (rank b) (rank a).
Proof.
  intros Ha Hb. unfold f64_le, SFleb.
  destruct (SFcompare_rank a b Ha Hb) as [c [-> Hc]].
  destruct c; split; intro H; try discriminate; try reflexivity.
  - rewrite Hc. apply lex_lt_irrefl.
  - intro H'. apply (lex_lt_irrefl (rank a)). eapply lex_lt_trans; eassumption.
  - contradiction.
Qed.

Lemma SFeqb_spec (a b : spec_float) :
  is_nan a = false -> is_nan b = false ->
  SFeqb a b = true <-> rank a = rank b.
Proof.
  intros Ha Hb. unfold SFeqb.
  destruct (SFcompare_rank a b Ha Hb) as [c [-> Hc]].
  destruct c; split; intro H; try discriminate; try reflexivity; try assumption.
  - rewrite H in Hc. now apply lex_lt_irrefl in Hc.
  - rewrite H in Hc. now apply lex_lt_irrefl in Hc.
Qed.

Lemma is_nan_neg (a : spec_float) : is_nan (f64_neg a) = is_nan a.
Proof. now destruct a. Qed.

Lemma rank_neg_lt (a b : spec_float) :
  is_nan a = false -> is_nan b = false ->
  lex_lt (rank (f64_neg a)) (rank (f64_neg b)) <-> lex_lt (rank b) (rank a).
Proof.
  intros Ha Hb.
  destruct a as [sa|sa| |sa ma ea], b as [sb|sb| |sb mb eb];
    try discriminate; simpl;
    try (destruct sa); try (destruct sb); simpl; lia.
Qed.

(** Negating both sides reverses [<]. *)
Lemma f64_lt_neg (a b : spec_float) :
  is_nan a = false -> is_nan b = false ->
  f64_lt (f64_neg a) (f64_neg b) = f64_lt b a.
Proof.
  intros Ha Hb.
  apply eq_true_iff_eq.
  rewrite !f64_lt_spec by (rewrite ?is_nan_neg; assumption).
  now apply rank_neg_lt.
Qed.

(* ================================================================== *)
(** * The insertion sort *)

Section InsertionSortFacts.
Context {A : Type}.
Variable lt : A -> A -> bool.

Lemma insert_sorted_split (x : A) (l : list A) :
  exists pre post,
    l = pre ++ post /\
    insert_sorted lt x l = pre ++ x :: post /\
    Forall (fun y => lt y x = true) pre /\
    (forall h t, post = h :: t -> lt h x = false).
Proof.
  induction l as [|y t IH]; simpl.
  - exists [], []. repeat split; auto. intros; discriminate.
  - destruct (lt y x) eqn:E.
    + destruct IH as (pre & post & Hl & Hi & Hpre & Hpost).
      exists (y :: pre), post. rewrite Hi. repeat split; simpl.
      * now f_equal.
      * now constructor.
      * assumption.
    + exists [], (y :: t). repeat split; auto.
      intros h t' [= <- <-]. assumption.
Qed.

Lemma insert_sorted_perm (x : A) (l : list A) :
  Permutation (insert_sorted lt x l) (x :: l).
Proof.
  destruct (insert_sorted_split x l) as (pre & post & -> & -> & _).
  symmetry. apply Permutation_middle.
Qed.

Lemma insertion_sort_perm (l : list A) : Permutation (insertion_sort lt l) l.
Proof.
  induction l as [|x l IH]; simpl.
  - constructor.
  - etransitivity; [apply insert_sorted_perm|]. now constructor.
Qed.

Lemma insertion_sort_length (l : list A) :
  List.length (insertion_sort lt l) = List.length l.
Proof. apply Permutation_length, insertion_sort_perm. Qed.

Lemma insertion_sort_In (l : list A) (x : A) :
  In x (insertion_sort lt l) <-> In x l.
Proof.
  split; apply Permutation_in;
    [|symmetry]; apply insertion_sort_perm.
Qed.

(** A list that is in order already is left as it is. *)
Lemma insertion_sort_sorted (l : list A) :
  Sorted (fun x y => lt y x = false) l -> insertion_sort lt l = l.
Proof.
  induction 1 as [|x l Hs IH Hhd]; simpl.
  - reflexivity.
  - rewrite IH. destruct Hhd as [|y t Hy]; simpl.
    + reflexivity.
    + now rewrite Hy.
Qed.

(** The elements that the comparison is well behaved on. *)
Variable good : A -> Prop.
Hypothesis lt_asym :
  forall x y, good x -> good y -> lt x y = true -> lt y x = false.
Hypothesis lt_negtrans :
  forall x y z, good x -> good y -> good z ->
    lt x y = false -> lt y z = false -> lt x z = false.

Lemma insert_sorted_order (x : A) (l : list A) :
  good x -> Forall good l ->
  StronglySorted (fun a b => lt b a = false) l ->
  StronglySorted (fun a b => lt b a = false) (insert_sorted lt x l).
Proof.
  intros Hx Hl Hs. induction Hs as [|y t Hs IH Hy]; simpl.
  - repeat constructor.
  - inversion Hl as [|? ? Hgy Hgt]; subst.
    destruct (lt y x) eqn:E.
    + constructor; [now apply IH|].
      apply Forall_forall. intros z Hz.
      apply (Permutation_in _ (insert_sorted_perm x t)) in Hz.
      destruct Hz as [<-|Hz].
      * now apply lt_asym.
      * rewrite Forall_forall in Hy. now apply Hy.
    + constructor; [now constructor|].
      constructor; [assumption|].
      rewrite Forall_forall in Hy, Hgt |- *. intros z Hz.
      apply (lt_negtrans z y x); auto.
Qed.

(** The sort puts the list in order. *)
Lemma insertion_sort_order (l : list A) :
  Forall good l ->
  StronglySorted (fun a b => lt b a = false) (insertion_sort lt l).
Proof.
  induction 1 as [|x l Hx Hl IH]; simpl.
  - constructor.
  - apply insert_sorted_order; auto.
    rewrite Forall_forall in Hl |- *. intros z Hz.
    now apply Hl, insertion_sort_In.
Qed.

(** The first element of the input goes before everything that is not
    smaller: all that precedes it in the result is smaller, nothing that
    follows it is. *)
Lemma insertion_sort_head (x : A) (l : list A) :
  good x -> Forall good l ->
  exists pre post,
    insertion_sort lt l = pre ++ post /\
    insertion_sort lt (x :: l) = pre ++ x :: post /\
    Forall (fun y => lt y x = true) pre /\
    Forall (fun y => lt y x = false) post.
Proof.
  intros Hx Hl. simpl.
  destruct (insert_sorted_split x (insertion_sort lt l))
    as (pre & post & Hs & Hi & Hpre & Hpost).
  exists pre, post. repeat split; auto.
  pose proof (insertion_sort_order l Hl) as Hord.
  assert (Hg : Forall good (insertion_sort lt l)).
  { rewrite Forall_forall in Hl |- *. intros z Hz.
    now apply Hl, insertion_sort_In. }
  rewrite Hs in Hord, Hg.
  apply Forall_app in Hg as [_ Hg].
  clear Hs Hi Hpre.
  induction pre as [|p pre IH]; simpl in Hord.
  - destruct post as [|h t]; [constructor|].
    specialize (Hpost h t eq_refl).
    inversion Hord as [|? ? Hs' Hall]; subst.
    constructor; [assumption|].
    rewrite Forall_forall in Hall, Hg |- *. intros z Hz.
    apply (lt_negtrans z h x); auto.
    + apply Hg. now right.
    + apply Hg. now left.
  - inversion Hord; subst. now apply IH.
Qed.


End InsertionSortFacts.

(** Sorting the images is taking the images of the sorted list, when the
    two comparisons agree. *)
Lemma insertion_sort_map {A B : Type} (ltA : A -> A -> bool)
  (ltB : B -> B -> bool) (f : A -> B) (l : list A) :
  (forall a a', In a l -> In a' l -> ltA a a' = ltB (f a) (f a')) ->
  map f (insertion_sort ltA l) = insertion_sort ltB (map f l).
Proof.
  induction l as [|x l IH]; intros H; simpl.
  - reflexivity.
  - rewrite <- IH by (intros; apply H; now right).
    assert (Hin : forall a, In a (insertion_sort ltA l) -> In a l)
      by (intros a; apply insertion_sort_In).
    revert Hin. generalize (insertion_sort ltA l) as s.
    induction s as [|y t IHt]; intros Hin; simpl.
    + reflexivity.
    + rewrite <- (H y x)
        by first [now left | right; apply Hin; now left].
      destruct (ltA y x); simpl.
      * f_equal. apply IHt. intros a Ha. apply Hin. now right.
      * reflexivity.
Qed.

(* ================================================================== *)
(** * Entries and their keys *)

Lemma well_scored_key (x : json) :
  well_scored x = true ->
  exists f, fscore x = Some f /\ is_nan f = false /\
            score_key x = Ok (PFloat (f64_neg f)).
Proof.
  unfold well_scored, fscore, score_key, subscript.
  destruct x as [| | | | |d]; try discriminate.
  destruct (dict_get "score" d) as [[| |[z|f]| | |]|]; try discriminate.
  intros H. exists f. repeat split. now destruct (is_nan f).
Qed.

Lemma key_lt_scores (y x : json) (fy fx : spec_float) :
  fscore y = Some fy -> is_nan fy = false -> well_scored y = true ->
  fscore x = Some fx -> is_nan fx = false -> well_scored x = true ->
  key_lt y x = f64_lt fx fy.
Proof.
  intros Hy Ny Wy Hx Nx Wx.
  destruct (well_scored_key y Wy) as (fy' & Hy' & _ & Ky).
  destruct (well_scored_key x Wx) as (fx' & Hx' & _ & Kx).
  rewrite Hy in Hy'. rewrite Hx in Hx'.
  injection Hy' as <-. injection Hx' as <-.
  unfold key_lt. rewrite Ky, Kx. unfold num_lt; simpl.
  now apply f64_lt_neg.
Qed.

Ltac scores x f :=
  let H := fresh "S" x in
  let N := fresh "N" x in
  let W := fresh "W" x in
  match goal with
  | Wx : well_scored x = true |- _ =>
      pose proof Wx as W;
      destruct (well_scored_key x Wx) as (f & H & N & _)
  end.

Lemma key_lt_asym (x y : json) :
  well_scored x = true -> well_scored y = true ->
  key_lt x y = true -> key_lt y x = false.
Proof.
  intros Wx Wy. scores x fx. scores y fy.
  rewrite (key_lt_scores x y fx fy), (key_lt_scores y x fy fx) by assumption.
  intros H. apply f64_lt_spec in H; auto.
  apply not_true_is_false. intros H'. apply f64_lt_spec in H'; auto.
  apply (lex_lt_irrefl (rank fx)). eapply lex_lt_trans; eassumption.
Qed.

Lemma key_lt_negtrans (x y z : json) :
  well_scored x = true -> well_scored y = true -> well_scored z = true ->
  key_lt x y = false -> key_lt y z = false -> key_lt x z = false.
Proof.
  intros Wx Wy Wz. scores x fx. scores y fy. scores z fz.
  rewrite (key_lt_scores x y fx fy), (key_lt_scores y z fy fz),
    (key_lt_scores x z fx fz) by assumption.
  intros H1 H2. apply not_true_is_false. intros H3.
  apply f64_lt_spec in H3; auto.
  destruct (lex_lt_total (rank fy) (rank fx)) as [L|[L|L]].
  - apply f64_lt_spec in L; auto. congruence.
  - rewrite <- L in H3. apply f64_lt_spec in H3; auto. congruence.
  - assert (L' : lex_lt (rank fz) (rank fy)) by (eapply lex_lt_trans; eassumption).
    apply f64_lt_spec in L'; auto. congruence.
Qed.

(** An entry that is not before another one has a score at most its score. *)
Lemma key_lt_false_ge (x y : json) :
  well_scored x = true -> well_scored y = true ->
  key_lt y x = false -> score_ge x y.
Proof.
  intros Wx Wy. scores x fx. scores y fy.
  rewrite (key_lt_scores y x fy fx) by assumption.
  intros H. unfold score_ge. rewrite Sx, Sy.
  apply f64_le_spec; auto.
  intros L. apply f64_lt_spec in L; auto. congruence.
Qed.

Lemma key_lt_true_gt (x y : json) :
  well_scored x = true -> well_scored y = true ->
  key_lt y x = true -> score_gt y x.
Proof.
  intros Wx Wy. scores x fx. scores y fy.
  rewrite (key_lt_scores y x fy fx) by assumption.
  intros H. unfold score_gt. now rewrite Sx, Sy.
Qed.


Lemma map_result_keys (l : list json) (keys : list pynum) :
  map_result score_key l = Ok keys ->
  List.length keys = List.length l /\
  forall p, In p (combine keys l) -> score_key (snd p) = Ok (fst p).
Proof.
  revert keys. induction l as [|x l IH]; simpl; intros keys H.
  - injection H as <-. split; [reflexivity|]. intros p [].
  - destruct (score_key x) as [k|e] eqn:Kx; [|discriminate]. simpl in H.
    destruct (map_result score_key l) as [ks|e]; [|discriminate]. simpl in H.
    injection H as <-. destruct (IH ks eq_refl) as [Hlen Hin].
    split; [simpl; now f_equal|].
    intros p [<-|Hp]; [assumption|now apply Hin].
Qed.

(** With a key for every element, [sorted] is the sort of the entries. *)
Lemma sorted_sort_entries (l : list json) (keys : list pynum) :
  map_result score_key l = Ok keys ->
  sorted l score_key = Ok (sort_entries l).
Proof.
  intros H. unfold sorted. rewrite H. simpl. f_equal.
  destruct (map_result_keys l keys H) as [Hlen Hin].
  rewrite (insertion_sort_map pair_lt key_lt snd).
  - unfold sort_entries. f_equal.
    clear H Hin. revert keys Hlen.
    induction l as [|x l IH]; intros [|k ks] Hlen; simpl in *;
      try discriminate; try reflexivity.
    f_equal. apply IH. now injection Hlen.
  - intros p q Hp Hq. unfold key_lt, pair_lt.
    now rewrite (Hin p Hp), (Hin q Hq).
Qed.

Lemma well_scored_keys (l : list json) :
  forallb well_scored l = true ->
  exists keys, map_result score_key l = Ok keys.
Proof.
  induction l as [|x l IH]; simpl; intros H.
  - now exists [].
  - apply andb_true_iff in H as [Hx Hl].
    destruct (well_scored_key x Hx) as (f & _ & _ & ->).
    destruct (IH Hl) as [ks ->]. simpl. now eexists.
Qed.

Lemma new_entry_well_scored (name now : string) (score : spec_float) :
  is_nan score = false -> well_scored (new_entry name score now) = true.
Proof. intros H. unfold well_scored. simpl. now rewrite H. Qed.

Lemma new_entry_fscore (name now : string) (score : spec_float) :
  fscore (new_entry name score now) = Some score.
Proof. reflexivity. Qed.

(* ================================================================== *)
(** * The handlers *)

(** A valid submission passes the checks of [submit], with a score that is
    a number. *)
Lemma valid_submission_try (request : Request) (name : string)
  (score : spec_float) :
  valid_submission request = Some (name, score) ->
  submit_try request = Ok (name, score) /\ is_nan score = false.
Proof.
  unfold valid_submission, submit_try.
  destruct (getitem (args request) "name") as [n|]; [|discriminate].
  destruct (getitem (args request) "score") as [t|]; [|discriminate].
  cbn [rbind].
  destruct (py_float t) as [x|]; [|discriminate].
  cbn [rbind or_raise]. generalize (py_round1 x) as r. intros r.
  destruct (1 <=? String.length n)%nat eqn:L1; [|discriminate].
  destruct (String.length n <=? 20)%nat eqn:L2; [|discriminate].
  destruct (num_lt (PInt 0) (PFloat r)) eqn:P; [|discriminate].
  destruct (num_le (PFloat r) (PInt 100000)) eqn:Q; [|discriminate].
  cbn [andb]. intros [= <- <-].
  apply Nat.leb_le in L1, L2.
  replace (String.length n =? 0)%nat with false
    by (symmetry; apply Nat.eqb_neq; lia).
  replace (20 <? String.length n)%nat with false
    by (symmetry; apply Nat.ltb_ge; lia).
  cbn [orb].
  unfold num_le, num_gt, num_lt, num_compare in *.
  destruct (Zcompare_float 0 r) as [[]|] eqn:C0; try discriminate.
  destruct (Zcompare_float 100000 r) as [[]|] eqn:C1; try discriminate;
    cbn [option_map CompOpp orb]; (split; [reflexivity|]);
    destruct r; try reflexivity; discriminate.
Qed.

(** What an accepted submission does on a store that answers, holds a list
    and accepts the upload. *)
Lemma submit_accepted (now : string) (request : Request) (st : cloud)
  (name : string) (score : spec_float) (text : string) (l : list json)
  (keys : list pynum) :
  submit_try request = Ok (name, score) ->
  download_fault st = None -> object st = Some text ->
  json_loads text = Some (JArr l) ->
  map_result score_key (new_entry name score now :: l) = Ok keys ->
  upload_fault st = None ->
  let data := JArr (top10 (new_entry name score now) l) in
  submit now request st
  = (Ok (Data data, 200, headers), uploaded (json_dumps data) st).
Proof.
  intros Ht Hd Ho Hj Hk Hu data. subst data.
  destruct st as [o df uf ups]. cbn in Hd, Ho, Hu. subst o df uf.
  unfold submit. rewrite Ht.
  unfold bind, read_storage, download_as_text, lift, write_storage,
    upload_from_string, ret, uploaded, top10.
  cbn [or_raise object download_fault upload_fault uploads].
  rewrite Hj. cbn [or_raise insert0].
  rewrite (sorted_sort_entries _ keys Hk).
  reflexivity.
Qed.

Lemma submit_valid (now : string) (request : Request) (st : cloud)
  (name : string) (score : spec_float) (text : string) (l : list json) :
  valid_submission request = Some (name, score) ->
  download_fault st = None -> upload_fault st = None ->
  object st = Some text -> json_loads text = Some (JArr l) ->
  forallb well_scored l = true ->
  let data := JArr (top10 (new_entry name score now) l) in
  submit now request st
  = (Ok (Data data, 200, headers), uploaded (json_dumps data) st).
Proof.
  intros Hv Hd Hu Ho Hj Hw.
  destruct (valid_submission_try _ _ _ Hv) as [Ht Hn].
  destruct (well_scored_keys (new_entry name score now :: l)) as [keys Hk].
  { simpl forallb. rewrite Hw, (new_entry_well_scored _ _ _ Hn). reflexivity. }
  now apply (submit_accepted now request st name score text l keys).
Qed.

(* ================================================================== *)
(** * The list that [submit] writes *)

Lemma StronglySorted_firstn {A : Type} (R : A -> A -> Prop) (n : nat)
  (l : list A) :
  StronglySorted R l -> StronglySorted R (firstn n l).
Proof.
  intros H. revert n. induction H as [|x l Hs IH Hx]; intros [|n]; simpl;
    try constructor.
  - apply IH.
  - rewrite Forall_forall in Hx |- *. intros y Hy.
    apply Hx. revert Hy. clear. revert n.
    induction l as [|z l IHl]; intros [|n]; simpl; intros H; try contradiction.
    destruct H as [H|H]; [now left|right; now apply (IHl n)].
Qed.

Lemma StronglySorted_weaken {A : Type} (R R' : A -> A -> Prop) (l : list A) :
  (forall x y, In x l -> In y l -> R x y -> R' x y) ->
  StronglySorted R l -> StronglySorted R' l.
Proof.
  intros H Hs. induction Hs as [|x l Hs IH Hx].
  - constructor.
  - constructor.
    + apply IH. intros a b Ha Hb. apply H; now right.
    + rewrite Forall_forall in Hx |- *. intros y Hy.
      apply H; [now left|now right|now apply Hx].
Qed.

Lemma forallb_well_scored (l : list json) :
  forallb well_scored l = true <-> Forall (fun x => well_scored x = true) l.
Proof.
  rewrite forallb_forall, Forall_forall. reflexivity.
Qed.

Section Top10.
Variables (entry : json) (l : list json).
Hypothesis entry_ok : well_scored entry = true.
Hypothesis l_ok : forallb well_scored l = true.

Lemma entries_ok : Forall (fun x => well_scored x = true) (entry :: l).
Proof. constructor; [assumption|now apply forallb_well_scored]. Qed.

Lemma sort_entries_ok :
  Forall (fun x => well_scored x = true) (sort_entries (entry :: l)).
Proof.
  rewrite Forall_forall. intros x Hx.
  apply insertion_sort_In in Hx.
  pose proof entries_ok as H. rewrite Forall_forall in H. now apply H.
Qed.

(** The sorted sequence is in non-increasing order of scores. *)
Lemma sort_entries_descending :
  StronglySorted score_ge (sort_entries (entry :: l)).
Proof.
  pose proof sort_entries_ok as Hok. rewrite Forall_forall in Hok.
  apply StronglySorted_weaken with (R := fun a b => key_lt b a = false).
  - intros x y Hx Hy. apply key_lt_false_ge; now apply Hok.
  - apply insertion_sort_order with (good := fun x => well_scored x = true).
    + exact key_lt_asym.
    + exact key_lt_negtrans.
    + exact entries_ok.
Qed.

(** It is a rearrangement of the entry and the prior list. *)
Lemma sort_entries_permutation :
  Permutation (sort_entries (entry :: l)) (entry :: l).
Proof. apply insertion_sort_perm. Qed.


(** The new entry stands after the entries of a strictly higher score and
    before all others. *)
Lemma sort_entries_new_entry :
  exists pre post,
    sort_entries l = pre ++ post /\
    sort_entries (entry :: l) = pre ++ entry :: post /\
    Forall (fun y => score_gt y entry) pre /\
    Forall (fun y => score_ge entry y) post.
Proof.
  pose proof entries_ok as Hall. inversion Hall as [|? ? _ Hl]; subst.
  destruct (insertion_sort_head key_lt (fun x => well_scored x = true)
              key_lt_asym key_lt_negtrans entry l entry_ok Hl)
    as (pre & post & Hs & Hi & Hpre & Hpost).
  exists pre, post. repeat split; try assumption.
  - assert (Hw : Forall (fun x => well_scored x = true) pre).
    { rewrite Forall_forall in Hl |- *. intros x Hx. apply Hl.
      apply (insertion_sort_In key_lt).
      rewrite Hs. apply in_or_app. now left. }
    rewrite Forall_forall in Hpre, Hw |- *. intros y Hy.
    apply key_lt_true_gt; auto.
  - assert (Hw : Forall (fun x => well_scored x = true) post).
    { rewrite Forall_forall in Hl |- *. intros x Hx. apply Hl.
      apply (insertion_sort_In key_lt).
      rewrite Hs. apply in_or_app. now right. }
    rewrite Forall_forall in Hpost, Hw |- *. intros y Hy.
    apply key_lt_false_ge; auto.
Qed.

Lemma top10_length :
  List.length (top10 entry l) = Nat.min (List.length l + 1) 10.
Proof.
  unfold top10. rewrite length_firstn.
  unfold sort_entries. rewrite insertion_sort_length.
  cbn [List.length]. lia.
Qed.

Lemma top10_descending : StronglySorted score_ge (top10 entry l).
Proof. apply StronglySorted_firstn, sort_entries_descending. Qed.
End Top10.

(** A strictly higher score is not an equal one. *)
Lemma score_gt_not_same (y x : json) :
  score_gt y x -> same_score y x = true -> False.
Proof.
  unfold score_gt, same_score.
  destruct (fscore y) as [fy|]; [|contradiction].
  destruct (fscore x) as [fx|]; [|contradiction].
  intros L E.
  assert (Ny : is_nan fy = false)
    by (destruct fy; try reflexivity; destruct fx; discriminate).
  assert (Nx : is_nan fx = false) by (destruct fx; try reflexivity; discriminate).
  apply f64_lt_spec in L; auto. apply SFeqb_spec in E; auto.
  rewrite E in L. now apply lex_lt_irrefl in L.
Qed.

(* ================================================================== *)
(** * Claims on accepted submissions *)

(** C1.  A valid submission, processed against a store that holds a
    leaderboard (a list of entries whose scores are numbers), makes [submit]
    write back a list of at most 10 elements whose scores are in
    non-increasing order: every element has a score at least that of every
    element after it. *)
Theorem C1_written_list_bounded_and_descending
  (now : string) (request : Request) (st : cloud) (name : string)
  (score : spec_float) (text : string) (l : list json) :
  valid_submission request = Some (name, score) ->
  download_fault st = None -> upload_fault st = None ->
  object st = Some text -> json_loads text = Some (JArr l) ->
  forallb well_scored l = true ->
  exists l' st',
    submit now request st = (Ok (Data (JArr l'), 200, headers), st') /\
    object st' = Some (json_dumps (JArr l')) /\
    uploads st' = json_dumps (JArr l') :: uploads st /\
    (List.length l' <= 10)%nat /\
    StronglySorted score_ge l'.
Proof.
  intros Hv Hd Hu Ho Hj Hw.
  destruct (valid_submission_try _ _ _ Hv) as [_ Hn].
  exists (top10 (new_entry name score now) l). eexists.
  split; [now apply (submit_valid now request st name score text l)|].
  repeat split.
  - rewrite top10_length. lia.
  - apply top10_descending; [now apply new_entry_well_scored|assumption].
Qed.

Lemma C1_witness :
  valid_submission (post_submit (submission "C" "50"))
  = Some ("C", float_of_Z 50) /\
  exists l' st',
    submit now0 (post_submit (submission "C" "50")) (store_of board_AB)
    = (Ok (Data (JArr l'), 200, headers), st') /\
    object st' = Some (json_dumps (JArr l')) /\
    uploads st' = json_dumps (JArr l') :: uploads (store_of board_AB) /\
    (List.length l' <= 10)%nat /\
    StronglySorted score_ge l'.
Proof.
  split; [vm_compute; reflexivity|].
  apply (C1_written_list_bounded_and_descending now0
           (post_submit (submission "C" "50")) (store_of board_AB)
           "C" (float_of_Z 50) (json_dumps (JArr board_AB)) board_AB);
    vm_compute; reflexivity.
Defined.

(** C2.  On a tie the new entry wins: in the list that [submit] computes,
    the entries before the new one all have a strictly higher score, so
    every prior entry of the same score comes after it (when the first ten
    stop before the new entry, no entry of its score is left).  With
    [{A,50},{B,40}] persisted, submitting [{C,50}] gives
    [{C,50},{A,50},{B,40}]. *)
Theorem C2_new_entry_before_equal_scores :
  (forall (now : string) (request : Request) (st : cloud) (name : string)
          (score : spec_float) (text : string) (l : list json),
      valid_submission request = Some (name, score) ->
      download_fault st = None -> upload_fault st = None ->
      object st = Some text -> json_loads text = Some (JArr l) ->
      forallb well_scored l = true ->
      let entry := new_entry name score now in
      exists pre post,
        submit now request st
        = (Ok (Data (JArr (firstn 10 (pre ++ entry :: post))), 200, headers),
           uploaded (json_dumps (JArr (firstn 10 (pre ++ entry :: post)))) st)
        /\ Permutation (pre ++ post) l
        /\ Forall (fun y => score_gt y entry) pre
        /\ Forall (fun y => score_ge entry y) post
        /\ (forall y, In y l -> same_score y entry = true -> In y post))
  /\ submit now0 (post_submit (submission "C" "50")) (store_of board_AB)
     = (Ok (Data (JArr (new_entry "C" (float_of_Z 50) now0 :: board_AB)),
            200, headers),
        uploaded
          (json_dumps (JArr (new_entry "C" (float_of_Z 50) now0 :: board_AB)))
          (store_of board_AB)).
Proof.
  split.
  - intros now request st name score text l Hv Hd Hu Ho Hj Hw entry.
    destruct (valid_submission_try _ _ _ Hv) as [_ Hn].
    destruct (sort_entries_new_entry entry l
                (new_entry_well_scored name now score Hn) Hw)
      as (pre & post & Hs & Hi & Hpre & Hpost).
    assert (Hperm : Permutation (pre ++ post) l)
      by (rewrite <- Hs; apply insertion_sort_perm).
    exists pre, post. repeat split; try assumption.
    + rewrite <- Hi.
      now apply (submit_valid now request st name score text l).
    + intros y Hy Hsame.
      apply (Permutation_in _ (Permutation_sym Hperm)) in Hy.
      apply in_app_or in Hy as [Hy|Hy]; [|assumption].
      rewrite Forall_forall in Hpre.
      now destruct (score_gt_not_same y entry (Hpre y Hy)).
  - vm_compute. reflexivity.
Qed.

Lemma C2_witness :
  valid_submission (post_submit (submission "C" "50"))
  = Some ("C", float_of_Z 50) /\
  let entry := new_entry "C" (float_of_Z 50) now0 in
  exists pre post,
    submit now0 (post_submit (submission "C" "50")) (store_of board_AB)
    = (Ok (Data (JArr (firstn 10 (pre ++ entry :: post))), 200, headers),
       uploaded (json_dumps (JArr (firstn 10 (pre ++ entry :: post))))
         (store_of board_AB))
    /\ Permutation (pre ++ post) board_AB
    /\ Forall (fun y => score_gt y entry) pre
    /\ Forall (fun y => score_ge entry y) post
    /\ (forall y, In y board_AB -> same_score y entry = true -> In y post).
Proof.
  split; [vm_compute; reflexivity|].
  apply (proj1 C2_new_entry_before_equal_scores now0
           (post_submit (submission "C" "50")) (store_of board_AB)
           "C" (float_of_Z 50) (json_dumps (JArr board_AB)) board_AB);
    vm_compute; reflexivity.
Defined.



Lemma score_gt_irrefl (x : json) : ~ score_gt x x.
Proof.
  unfold score_gt. destruct (fscore x) as [f|]; [|tauto].
  unfold f64_lt, SFltb. intros H.
  destruct (is_nan f) eqn:N.
  - destruct f; discriminate.
  - destruct (SFcompare_rank f f N N) as [c [E Hc]]. rewrite E in H.
    destruct c; try discriminate. now apply lex_lt_irrefl in Hc.
Qed.

(** A list in non-increasing order of scores is not rearranged. *)
Lemma sort_entries_sorted (l : list json) :
  forallb well_scored l = true ->
  Sorted score_ge l -> sort_entries l = l.
Proof.
  intros Hw Hs. apply insertion_sort_sorted.
  apply forallb_well_scored in Hw.
  induction Hs as [|x l Hs IH Hhd]; constructor.
  - apply IH. now inversion Hw.
  - inversion Hw as [|? ? Wx Wl]; subst.
    destruct Hhd as [|y t Hy]; constructor.
    inversion Wl as [|? ? Wy _]; subst.
    scores x fx. scores y fy.
    rewrite (key_lt_scores y x fy fx) by assumption.
    unfold score_ge in Hy. rewrite Sx, Sy in Hy.
    apply f64_le_spec in Hy; auto.
    apply not_true_is_false. intros L. apply f64_lt_spec in L; auto.
Qed.

Lemma firstn_app_short {A : Type} (n : nat) (l1 l2 : list A) :
  (n <= List.length l1)%nat -> firstn n (l1 ++ l2) = firstn n l1.
Proof.
  intros H. rewrite firstn_app.
  replace (n - List.length l1)%nat with 0%nat by lia.
  simpl. apply app_nil_r.
Qed.

Lemma In_firstn {A : Type} (n : nat) (l : list A) (x : A) :
  In x (firstn n l) -> In x l.
Proof.
  revert n. induction l as [|y l IH]; intros [|n]; simpl; try tauto.
  intros [H|H]; [now left|right; now apply (IH n)].
Qed.

(** C10, as amended.  For a valid submission against a persisted list of
    [n] entries, the resulting list has exactly [min (n+1) 10] elements.  It
    is the first ten of [pre ++ entry :: post], where [pre ++ post] is a
    rearrangement of the prior entries, [pre] those of a strictly higher
    score than the new entry: every element is the new entry or a prior
    entry as it was, and none is merged with or replaced by another,
    whatever the names.  The new entry is part of the result exactly when
    fewer than ten prior entries have a strictly higher score; with fewer
    than ten prior entries all of them are kept with it.  When the prior
    list was in non-increasing order, [pre ++ post] is that list itself. *)
Theorem C10_result_keeps_entries_unchanged
  (now : string) (request : Request) (st : cloud) (name : string)
  (score : spec_float) (text : string) (l : list json) :
  valid_submission request = Some (name, score) ->
  download_fault st = None -> upload_fault st = None ->
  object st = Some text -> json_loads text = Some (JArr l) ->
  forallb well_scored l = true ->
  let entry := new_entry name score now in
  exists l' pre post,
    submit now request st
    = (Ok (Data (JArr l'), 200, headers), uploaded (json_dumps (JArr l')) st)
    /\ List.length l' = Nat.min (List.length l + 1) 10
    /\ l' = firstn 10 (pre ++ entry :: post)
    /\ Permutation (pre ++ post) l
    /\ Forall (fun y => score_gt y entry) pre
    /\ Forall (fun y => score_ge entry y) post
    /\ (In entry l' <-> (List.length pre < 10)%nat)
    /\ ((List.length l < 10)%nat -> Permutation l' (entry :: l))
    /\ (Sorted score_ge l -> pre ++ post = l).
Proof.
  intros Hv Hd Hu Ho Hj Hw entry.
  destruct (valid_submission_try _ _ _ Hv) as [_ Hn].
  pose proof (new_entry_well_scored name now score Hn) as He.
  destruct (sort_entries_new_entry entry l He Hw)
    as (pre & post & Hs & Hi & Hpre & Hpost).
  exists (top10 entry l), pre, post.
  split; [now apply (submit_valid now request st name score text l)|].
  split; [now apply top10_length|].
  split; [unfold top10; now rewrite Hi|].
  split; [rewrite <- Hs; apply insertion_sort_perm|].
  split; [assumption|].
  split; [assumption|].
  split; [|split].
  - unfold top10. rewrite Hi. split.
    + intros Hin.
      destruct (Nat.lt_ge_cases (List.length pre) 10) as [|Hge]; [assumption|].
      rewrite firstn_app_short in Hin by assumption.
      apply In_firstn in Hin. rewrite Forall_forall in Hpre.
      now apply Hpre, score_gt_irrefl in Hin.
    + intros Hlt.
      rewrite firstn_app.
      apply in_or_app. right.
      destruct (10 - List.length pre)%nat eqn:E; [lia|]. now left.
  - intros Hlen. unfold top10.
    rewrite firstn_all2.
    + apply sort_entries_permutation.
    + unfold sort_entries. rewrite insertion_sort_length. simpl. lia.
  - intros Hsorted. rewrite <- Hs. now apply sort_entries_sorted.
Qed.

Lemma C10_witness :
  valid_submission (post_submit (submission "C" "50"))
  = Some ("C", float_of_Z 50) /\
  let entry := new_entry "C" (float_of_Z 50) now0 in
  exists l' pre post,
    submit now0 (post_submit (submission "C" "50")) (store_of board_AB)
    = (Ok (Data (JArr l'), 200, headers),
       uploaded (json_dumps (JArr l')) (store_of board_AB))
    /\ List.length l' = Nat.min (List.length board_AB + 1) 10
    /\ l' = firstn 10 (pre ++ entry :: post)
    /\ Permutation (pre ++ post) board_AB
    /\ Forall (fun y => score_gt y entry) pre
    /\ Forall (fun y => score_ge entry y) post
    /\ (In entry l' <-> (List.length pre < 10)%nat)
    /\ ((List.length board_AB < 10)%nat -> Permutation l' (entry :: board_AB))
    /\ (Sorted score_ge board_AB -> pre ++ post = board_AB).
Proof.
  split; [vm_compute; reflexivity|].
  apply (C10_result_keeps_entries_unchanged now0
           (post_submit (submission "C" "50")) (store_of board_AB)
           "C" (float_of_Z 50) (json_dumps (JArr board_AB)) board_AB);
    vm_compute; reflexivity.
Defined.

(** C10, as stated, fails: with ten entries of score 50 persisted, a valid
    submission of score 10 is answered with the ten prior entries; the new
    entry is not part of the resulting list. *)
Lemma C10_counterexample :
  valid_submission (post_submit (submission "K" "10"))
  = Some ("K", float_of_Z 10) /\
  submit now0 (post_submit (submission "K" "10")) (store_of board_full)
  = (Ok (Data (JArr board_full), 200, headers),
     uploaded (json_dumps (JArr board_full)) (store_of board_full)) /\
  ~ In (new_entry "K" (float_of_Z 10) now0) board_full.
Proof.
  split; [vm_compute; reflexivity|].
  split; [vm_compute; reflexivity|].
  intros H. simpl in H.
  repeat (destruct H as [H|H]; [discriminate|]). exact H.
Qed.

(* ================================================================== *)
(** * Claims on rejected requests *)

Lemma submit_rejects (now : string) (request : Request) (st : cloud)
  (e : exn) :
  submit_try request = Raise e ->
  submit now request st = (Ok (Text "Bad request", 400, headers), st).
Proof. intros H. unfold submit. now rewrite H. Qed.

Lemma invalid_submission_try (request : Request) :
  invalid_submission request -> exists e, submit_try request = Raise e.
Proof.
  unfold invalid_submission, submit_try.
  intros [H|[(name & H & Hlen)|[H|[(text & H & Hp)|(text & x & H & Hp & Hr)]]]].
  - rewrite H. now eexists.
  - rewrite H. cbn [rbind].
    replace ((String.length name =? 0)%nat || (20 <? String.length name)%nat)
      with true; [now eexists|].
    symmetry. apply orb_true_iff.
    destruct Hlen as [Hlen|Hlen];
      [left; now apply Nat.eqb_eq|right; now apply Nat.ltb_lt].
  - destruct (getitem (args request) "name") as [n|]; [|now eexists].
    cbn [rbind]. rewrite H.
    destruct (_ || _); now eexists.
  - destruct (getitem (args request) "name") as [n|]; [|now eexists].
    cbn [rbind]. rewrite H. cbn [rbind]. rewrite Hp.
    destruct (_ || _); now eexists.
  - destruct (getitem (args request) "name") as [n|]; [|now eexists].
    cbn [rbind]. rewrite H. cbn [rbind]. rewrite Hp. cbn [rbind or_raise].
    replace (num_le (PFloat (py_round1 x)) (PInt 0)
             || num_gt (PFloat (py_round1 x)) (PInt 100000)) with true.
    + destruct (_ || _); now eexists.
    + symmetry. apply orb_true_iff. tauto.
Qed.

(** C3.  A submission whose [name] is missing, empty or longer than 20
    characters, or whose [score] is missing, does not parse as a float, or
    after rounding to one decimal place is [<= 0] or [> 100000], is answered
    with status 400 and body "Bad request", and the store is left as it was:
    nothing is uploaded. *)
Theorem C3_invalid_submission_rejected
  (now : string) (request : Request) (st : cloud) :
  invalid_submission request ->
  submit now request st = (Ok (Text "Bad request", 400, headers), st)
  /\ (path request = "/submit" -> method request = "POST" ->
      main now request st = (Ok (Text "Bad request", 400, headers), st)).
Proof.
  intros H. destruct (invalid_submission_try request H) as [e He].
  split; [now apply (submit_rejects now request st e)|].
  intros Hp Hm. unfold main. rewrite Hp, Hm. cbn.
  now apply (submit_rejects now request st e).
Qed.

Lemma C3_witness :
  invalid_submission (post_submit (submission EmptyString "50"))
  /\ submit now0 (post_submit (submission EmptyString "50")) (store_of board_AB)
     = (Ok (Text "Bad request", 400, headers), store_of board_AB)
  /\ main now0 (post_submit (submission EmptyString "50")) (store_of board_AB)
     = (Ok (Text "Bad request", 400, headers), store_of board_AB).
Proof.
  assert (H : invalid_submission (post_submit (submission EmptyString "50"))).
  { right; left. exists EmptyString. split; [reflexivity|left; reflexivity]. }
  split; [exact H|].
  destruct (C3_invalid_submission_rejected now0
              (post_submit (submission EmptyString "50")) (store_of board_AB) H)
    as [H1 H2].
  split; [exact H1|apply H2; reflexivity].
Defined.

(** C6.  A request whose path is not "/" and which is not a POST to
    "/submit" is answered with status 400 and body "Bad request"; the store
    is left as it was. *)
Theorem C6_unrouted_request_rejected
  (now : string) (request : Request) (st : cloud) :
  path request <> "/" ->
  ~ (path request = "/submit" /\ method request = "POST") ->
  main now request st = (Ok (Text "Bad request", 400, headers), st).
Proof.
  intros H1 H2. unfold main.
  apply String.eqb_neq in H1. rewrite H1.
  destruct (String.eqb_spec (path request) "/submit") as [Hp|Hp];
    [|reflexivity].
  destruct (String.eqb_spec (method request) "POST") as [Hm|Hm];
    [|reflexivity].
  exfalso. apply H2. now split.
Qed.

Lemma C6_witness :
  main now0 {| path := "/submit"; method := "GET";
               args := submission "C" "50"; form := [] |} (store_of board_AB)
  = (Ok (Text "Bad request", 400, headers), store_of board_AB).
Proof.
  apply C6_unrouted_request_rejected; cbn [path method].
  - discriminate.
  - intros [_ H]. discriminate.
Defined.

(** C7, as amended.  [submit] takes [name] and [score] from the query
    parameters alone.  The form-encoded parameters of a request have no
    influence on its response or on the store, and a POST to "/submit" that
    carries no query parameters is answered 400 "Bad request" without a
    write, whatever its form-encoded body holds. *)
Theorem C7_parameters_come_from_query_only
  (now : string) (request : Request) (st : cloud)
  (f : list (string * string)) :
  main now (with_form f request) st = main now request st
  /\ (args request = [] -> path request = "/submit" ->
      method request = "POST" ->
      main now request st = (Ok (Text "Bad request", 400, headers), st)).
Proof.
  split.
  - reflexivity.
  - intros Ha Hp Hm. unfold main. rewrite Hp, Hm. cbn.
    apply (submit_rejects now request st KeyError).
    unfold submit_try. now rewrite Ha.
Qed.

Lemma C7_witness :
  main now0 (with_form (submission "D" "60")
               (form_submit (submission "C" "50")))
       (store_of board_AB)
  = main now0 (form_submit (submission "C" "50")) (store_of board_AB)
  /\ main now0 (form_submit (submission "C" "50")) (store_of board_AB)
     = (Ok (Text "Bad request", 400, headers), store_of board_AB).
Proof.
  destruct (C7_parameters_come_from_query_only now0
              (form_submit (submission "C" "50")) (store_of board_AB)
              (submission "D" "60")) as [H1 H2].
  split; [exact H1|apply H2; reflexivity].
Defined.

(** C7, as stated, fails: the same [name] and [score] are accepted as query
    parameters and rejected when they are form-encoded. *)
Lemma C7_counterexample :
  main now0 (form_submit (submission "C" "50")) (store_of board_AB)
  = (Ok (Text "Bad request", 400, headers), store_of board_AB)
  /\ main now0 (post_submit (submission "C" "50")) (store_of board_AB)
     = (Ok (Data (JArr (new_entry "C" (float_of_Z 50) now0 :: board_AB)),
            200, headers),
        uploaded
          (json_dumps (JArr (new_entry "C" (float_of_Z 50) now0 :: board_AB)))
          (store_of board_AB)).
Proof. split; vm_compute; reflexivity. Qed.

(* ================================================================== *)
(** * Storage failures *)

Lemma submit_read_fails (now : string) (request : Request) (st st' : cloud)
  (name : string) (score : spec_float) (e : exn) :
  submit_try request = Ok (name, score) ->
  read_storage st = (Raise e, st') ->
  submit now request st = (Raise e, st').
Proof.
  intros Ht Hr. unfold submit. rewrite Ht. unfold bind. now rewrite Hr.
Qed.

Lemma submit_upload_fails (now : string) (request : Request) (st : cloud)
  (name : string) (score : spec_float) (text : string) (l : list json)
  (keys : list pynum) (e : exn) :
  submit_try request = Ok (name, score) ->
  download_fault st = None -> object st = Some text ->
  json_loads text = Some (JArr l) ->
  map_result score_key (new_entry name score now :: l) = Ok keys ->
  upload_fault st = Some e ->
  submit now request st = (Raise e, st).
Proof.
  intros Ht Hd Ho Hj Hk Hu.
  unfold submit. rewrite Ht.
  unfold bind, read_storage, download_as_text, lift, write_storage,
    upload_from_string, ret.
  rewrite Hd, Ho. cbn [or_raise]. rewrite Hj. cbn [or_raise insert0].
  rewrite (sorted_sort_entries _ keys Hk).
  now rewrite Hu.
Qed.

(** An accepted submission is never answered 400. *)
Lemma submit_ok_status (now : string) (request : Request) (st st' : cloud)
  (name : string) (score : spec_float) (r : response) :
  submit_try request = Ok (name, score) ->
  submit now request st = (Ok r, st') ->
  snd (fst r) = 200.
Proof.
  intros Ht. unfold submit. rewrite Ht.
  unfold bind, lift, ret.
  destruct (read_storage st) as [[t|e] s1]; [|discriminate].
  destruct (or_raise JSONDecodeError (json_loads t)) as [d|e]; [|discriminate].
  destruct (insert0 d _) as [d1|e]; [|discriminate].
  destruct (sorted d1 score_key) as [d2|e]; [|discriminate].
  destruct (write_storage _ s1) as [[u|e] s2]; [|discriminate].
  intros [= <- _]. reflexivity.
Qed.

(** C9.  A failure of the store is not turned into a 400 response.  When
    the download raises [e], [list_highscores] and an accepted [submit] both
    raise [e]; when the upload raises [e], an accepted [submit] that got as
    far as the upload raises [e].  [submit] answers 400 only when its
    validation fails, in which case it has not touched the store, and
    [list_highscores] answers with status 200 whenever it answers. *)
Theorem C9_storage_failure_propagates
  (now : string) (request : Request) (st : cloud) (e : exn) :
  (read_storage st = (Raise e, st) ->
     list_highscores st = (Raise e, st)
     /\ forall name score, submit_try request = Ok (name, score) ->
          submit now request st = (Raise e, st))
  /\ (upload_fault st = Some e ->
      forall name score text l keys,
        submit_try request = Ok (name, score) ->
        download_fault st = None -> object st = Some text ->
        json_loads text = Some (JArr l) ->
        map_result score_key (new_entry name score now :: l) = Ok keys ->
        submit now request st = (Raise e, st))
  /\ (forall r st', submit now request st = (Ok r, st') ->
        snd (fst r) = 400 ->
        st' = st /\ exists e', submit_try request = Raise e')
  /\ (forall r st', list_highscores st = (Ok r, st') -> snd (fst r) = 200).
Proof.
  split; [|split; [|split]].
  - intros Hr. split.
    + unfold list_highscores, bind. now rewrite Hr.
    + intros name score Ht.
      now apply (submit_read_fails now request st st name score e).
  - intros Hu name score text l keys Ht Hd Ho Hj Hk.
    now apply (submit_upload_fails now request st name score text l keys e).
  - intros r st' Hs H400.
    destruct (submit_try request) as [[name score]|e'] eqn:Ht.
    + rewrite (submit_ok_status now request st st' name score r Ht Hs) in H400.
      discriminate.
    + rewrite (submit_rejects now request st e' Ht) in Hs.
      injection Hs as _ <-. split; [reflexivity|now exists e'].
  - intros r st'. unfold list_highscores, bind, ret.
    destruct (read_storage st) as [[t|e'] s1]; [|discriminate].
    intros [= <- _]. reflexivity.
Qed.

Lemma C9_witness :
  (list_highscores (store_down board_AB)
   = (Raise ServiceUnavailable, store_down board_AB)
   /\ submit now0 (post_submit (submission "C" "50")) (store_down board_AB)
      = (Raise ServiceUnavailable, store_down board_AB))
  /\ submit now0 (post_submit (submission "C" "50"))
       (store_read_only board_AB)
     = (Raise Forbidden, store_read_only board_AB).
Proof.
  split.
  - destruct (C9_storage_failure_propagates now0
                (post_submit (submission "C" "50")) (store_down board_AB)
                ServiceUnavailable) as [H _].
    destruct (H eq_refl) as [H1 H2].
    split; [exact H1|].
    apply (H2 "C" (float_of_Z 50)). vm_compute. reflexivity.
  - destruct (C9_storage_failure_propagates now0
                (post_submit (submission "C" "50"))
                (store_read_only board_AB) Forbidden) as (_ & H & _).
    apply (H eq_refl "C" (float_of_Z 50) (json_dumps (JArr board_AB))
             board_AB
             [PFloat (float_of_Z (-50)); PFloat (float_of_Z (-50));
              PFloat (float_of_Z (-40))]);
      vm_compute; reflexivity.
Defined.

(* ================================================================== *)
(** * The range of accepted scores *)

Lemma Zcompare_float_defined (z : Z) (r : spec_float) :
  is_nan r = false -> exists c, Zcompare_float z r = Some c.
Proof.
  destruct r as [s|s| |s m e]; try discriminate; intros _; simpl;
    try (now eexists).
  destruct (0 <=? e); now eexists.
Qed.

(** On numbers the check accepts exactly the range above 0 and up to
    100000. *)
Lemma score_range (r : spec_float) :
  is_nan r = false ->
  score_rejected r = false
  <-> num_lt (PInt 0) (PFloat r) = true
      /\ num_le (PFloat r) (PInt 100000) = true.
Proof.
  intros N. unfold score_rejected, num_gt, num_le, num_lt, num_compare.
  destruct (Zcompare_float_defined 0 r N) as [c0 ->].
  destruct (Zcompare_float_defined 100000 r N) as [c1 ->].
  destruct c0, c1; simpl; intuition discriminate.
Qed.

(** A zero of either sign and every negative number are rejected. *)
Lemma score_zero_rejected (s : bool) : score_rejected (S754_zero s) = true.
Proof. reflexivity. Qed.

Lemma score_negative_rejected (r : spec_float) :
  f64_lt r (S754_zero false) = true -> score_rejected r = true.
Proof.
  unfold score_rejected, num_le, num_compare, Zcompare_float.
  destruct r as [s|[]| |[] m e]; try discriminate; intros _;
    try reflexivity.
  destruct (0 <=? e) eqn:E; cbn [option_map].
  - apply Z.leb_le in E.
    assert (P : 0 < 2 ^ e) by (apply Z.pow_pos_nonneg; lia).
    pose proof (Pos2Z.neg_is_neg m) as Hm.
    destruct (Z.compare_spec 0 (Z.neg m * 2 ^ e)) as [H'|H'|H'];
      cbn [CompOpp orb]; try reflexivity; nia.
  - rewrite Z.mul_0_l. reflexivity.
Qed.

(** What the [try] block accepts: the checks of the specification, with
    the range check as the code writes it. *)
Lemma submit_try_accepts (request : Request) (name : string)
  (r : spec_float) :
  submit_try request = Ok (name, r)
  <-> getitem (args request) "name" = Ok name
      /\ (1 <= String.length name <= 20)%nat
      /\ exists text x,
           getitem (args request) "score" = Ok text
           /\ py_float text = Some x
           /\ r = py_round1 x
           /\ score_rejected r = false.
Proof.
  unfold submit_try, score_rejected. split.
  - destruct (getitem (args request) "name") as [n|]; [|discriminate].
    cbn [rbind].
    destruct (String.length n =? 0)%nat eqn:L0; [discriminate|].
    destruct (20 <? String.length n)%nat eqn:L20; [discriminate|].
    cbn [orb].
    destruct (getitem (args request) "score") as [t|]; [|discriminate].
    cbn [rbind].
    destruct (py_float t) as [x|] eqn:Ex; [|discriminate].
    cbn [rbind or_raise].
    destruct (_ || _) eqn:R; [discriminate|].
    intros [= <- <-].
    apply Nat.eqb_neq in L0. apply Nat.ltb_ge in L20.
    repeat split; try lia.
    exists t, x. now repeat split.
  - intros (Hn & Hlen & t & x & Ht & Hx & -> & Hr).
    rewrite Hn. cbn [rbind].
    replace (String.length name =? 0)%nat with false
      by (symmetry; apply Nat.eqb_neq; lia).
    replace (20 <? String.length name)%nat with false
      by (symmetry; apply Nat.ltb_ge; lia).
    cbn [orb]. rewrite Ht. cbn [rbind]. rewrite Hx. cbn [rbind or_raise].
    now rewrite Hr.
Qed.

(** The submissions that the code accepts and the specification calls
    invalid are those whose rounded score is NaN. *)
Lemma valid_submission_iff (request : Request) (name : string)
  (r : spec_float) :
  valid_submission request = Some (name, r)
  <-> submit_try request = Ok (name, r) /\ is_nan r = false.
Proof.
  split; [apply valid_submission_try|].
  intros [Ht Hn]. apply submit_try_accepts in Ht.
  destruct Ht as (Hname & Hlen & t & x & Ht & Hx & -> & Hr).
  apply score_range in Hr; [|assumption]. destruct Hr as [H0 H1].
  unfold valid_submission. rewrite Hname, Ht, Hx.
  replace (1 <=? String.length name)%nat with true
    by (symmetry; apply Nat.leb_le; lia).
  replace (String.length name <=? 20)%nat with true
    by (symmetry; apply Nat.leb_le; lia).
  cbn [andb]. now rewrite H0, H1.
Qed.

(** The scores named in the specification: 0, a negative score and
    100000.1 are answered 400; 100000 is accepted. *)
Lemma score_boundaries :
  let answer s :=
    fst (submit now0 (post_submit (submission "C" s)) (store_of board_AB)) in
  answer "0" = Ok (Text "Bad request", 400, headers)
  /\ answer "0.04" = Ok (Text "Bad request", 400, headers)
  /\ answer "-1" = Ok (Text "Bad request", 400, headers)
  /\ answer "100000.1" = Ok (Text "Bad request", 400, headers)
  /\ answer "100000.05" = Ok (Text "Bad request", 400, headers)
  /\ answer "100000"
     = Ok (Data (JArr (new_entry "C" (float_of_Z 100000) now0 :: board_AB)),
           200, headers)
  /\ answer "100000.04"
     = Ok (Data (JArr (new_entry "C" (float_of_Z 100000) now0 :: board_AB)),
           200, headers).
Proof. repeat split; vm_compute; reflexivity. Qed.

(** C4.  The code accepts a score outside the range: the text "nan" parses
    as a float, [round] gives NaN back, and neither [score <= 0] nor
    [score > 100000] holds for a NaN.  The submission is not valid by the
    specification, yet it is answered 200 and the NaN entry is uploaded. *)
Theorem C4_nan_score_accepted :
  py_float "nan" = Some S754_nan
  /\ py_round1 S754_nan = S754_nan
  /\ score_rejected S754_nan = false
  /\ valid_submission (post_submit (submission "X" "nan")) = None
  /\ submit now0 (post_submit (submission "X" "nan")) (store_of board_AB)
     = (Ok (Data (JArr (new_entry "X" S754_nan now0 :: board_AB)),
            200, headers),
        uploaded
          (json_dumps (JArr (new_entry "X" S754_nan now0 :: board_AB)))
          (store_of board_AB)).
Proof. repeat split; vm_compute; reflexivity. Qed.

(* ================================================================== *)
(** * Reading back what [json.dumps] writes *)

Lemma append_assoc (a b c : string) : ((a ++ b) ++ c = a ++ (b ++ c))%string.
Proof. induction a as [|x a IH]; simpl; [reflexivity|now rewrite IH]. Qed.

Lemma length_append (a b : string) :
  String.length (a ++ b) = (String.length a + String.length b)%nat.
Proof. induction a as [|x a IH]; simpl; [reflexivity|now rewrite IH]. Qed.

Lemma scanstring_escape_char (c : ascii) (t : string) :
  scanstring (escape_char c ++ t) = cons_char c (scanstring t).
Proof.
  destruct c as [b0 b1 b2 b3 b4 b5 b6 b7].
  destruct b0, b1, b2, b3, b4, b5, b6, b7; reflexivity.
Qed.

Lemma scanstring_escape (s rest : string) :
  scanstring (escape s ++ String quote rest) = Some (s, rest).
Proof.
  induction s as [|c s IH]; simpl.
  - reflexivity.
  - rewrite append_assoc, scanstring_escape_char, IH. reflexivity.
Qed.

Lemma scan_once_string (fuel : nat) (s rest : string) :
  scan_once (S fuel) (encode_string s ++ rest) = Some (JStr s, rest).
Proof.
  unfold encode_string. cbn [append scan_once].
  change (code quote =? 34)%N with true. cbv iota.
  rewrite append_assoc. cbn [append].
  now rewrite scanstring_escape.
Qed.

(** ** Numbers *)
Lemma is_delim_facts (c : ascii) :
  is_delim c ->
  is_digit c = false /\ Ascii.eqb c "-" = false /\ Ascii.eqb c "+" = false
  /\ Ascii.eqb c "." = false /\ Ascii.eqb (lower c) "e" = false
  /\ is_json_ws c = false.
Proof. intros [ -> | [ -> | -> ] ]; repeat split. Qed.

Lemma read_digits_app (c : ascii) (r s : string) (acc : N) (cnt : Z) :
  is_digit c = false ->
  read_digits (s ++ String c r) acc cnt
  = let '(a, n, s') := read_digits s acc cnt in (a, n, (s' ++ String c r)%string).
Proof.
  intros Hc. revert acc cnt. induction s as [|x s IH]; intros acc cnt; simpl.
  - now rewrite Hc.
  - destruct (is_digit x); [apply IH|reflexivity].
Qed.

Lemma read_sign_app (c : ascii) (r s : string) :
  is_delim c ->
  read_sign (s ++ String c r)
  = let '(b, s') := read_sign s in (b, (s' ++ String c r)%string).
Proof.
  intros Hc. destruct (is_delim_facts c Hc) as (_ & Hm & Hp & _).
  destruct s as [|x s]; simpl.
  - now rewrite Hm, Hp.
  - destruct (Ascii.eqb x "-"); [reflexivity|].
    destruct (Ascii.eqb x "+"); reflexivity.
Qed.

Lemma read_exponent_app (c : ascii) (r s : string) :
  is_delim c ->
  read_exponent (s ++ String c r)
  = option_map (fun p => (fst p, (snd p ++ String c r)%string)) (read_exponent s).
Proof.
  intros Hc. destruct (is_delim_facts c Hc) as (Hd & _ & _ & _ & He & _).
  destruct s as [|x s]; simpl.
  - now rewrite He.
  - destruct (Ascii.eqb (lower x) "e"); [|reflexivity].
    rewrite (read_sign_app c r s Hc).
    destruct (read_sign s) as [b s1].
    rewrite (read_digits_app c r s1 _ _ Hd).
    destruct (read_digits s1 0%N 0) as [[e n] rest].
    destruct (n =? 0)%Z; reflexivity.
Qed.

Lemma scan_minus_app (c : ascii) (r s : string) :
  is_delim c ->
  scan_minus (s ++ String c r)
  = let '(b, s') := scan_minus s in (b, (s' ++ String c r)%string).
Proof.
  intros Hc. destruct (is_delim_facts c Hc) as (_ & Hm & _).
  destruct s as [|x s]; simpl.
  - now rewrite Hm.
  - destruct (Ascii.eqb x "-"); reflexivity.
Qed.

Lemma scan_int_app (c : ascii) (r s : string) :
  is_delim c ->
  scan_int (s ++ String c r)
  = option_map (fun p => (fst p, (snd p ++ String c r)%string)) (scan_int s).
Proof.
  intros Hc. destruct (is_delim_facts c Hc) as (Hd & _).
  destruct s as [|x s].
  - simpl. now rewrite Hd.
  - unfold scan_int. cbn [append].
    destruct (is_digit x) eqn:Dx; [|reflexivity].
    destruct (Ascii.eqb x "0"); [reflexivity|].
    change (String x (s ++ String c r)) with (String x s ++ String c r)%string.
    rewrite (read_digits_app c r _ _ _ Hd).
    destruct (read_digits (String x s) 0%N 0) as [[ip n] rest]. reflexivity.
Qed.

Lemma scan_frac_app (c : ascii) (r s : string) (ip : N) :
  is_delim c ->
  scan_frac ip (s ++ String c r)
  = let '(m, n, s') := scan_frac ip s in (m, n, (s' ++ String c r)%string).
Proof.
  intros Hc. destruct (is_delim_facts c Hc) as (Hd & _ & _ & Hp & _).
  destruct s as [|p [|d s]].
  - cbn [append scan_frac]. destruct r; [reflexivity|]. now rewrite Hp.
  - cbn [append scan_frac]. rewrite Hd, andb_false_r. reflexivity.
  - cbn [append scan_frac].
    destruct (Ascii.eqb p "." && is_digit d); [|reflexivity].
    change (String d (s ++ String c r)) with (String d s ++ String c r)%string.
    apply (read_digits_app c r _ _ _ Hd).
Qed.

Lemma scan_number_app (c : ascii) (r s s' : string) (n : pynum) :
  is_delim c ->
  scan_number s = Some (n, s') ->
  scan_number (s ++ String c r) = Some (n, (s' ++ String c r)%string).
Proof.
  intros Hc. unfold scan_number.
  rewrite (scan_minus_app c r s Hc).
  destruct (scan_minus s) as [neg s1].
  rewrite (scan_int_app c r s1 Hc).
  destruct (scan_int s1) as [[ip s2]|]; [|discriminate]. cbn [option_map fst snd].
  rewrite (scan_frac_app c r s2 ip Hc).
  destruct (scan_frac ip s2) as [[m nf] s3].
  rewrite (read_exponent_app c r s3 Hc).
  destruct (read_exponent s3) as [[e s4]|]; cbn [option_map fst snd].
  - intros [= <- <-]. reflexivity.
  - destruct (nf =? 0)%Z; intros [= <- <-]; reflexivity.
Qed.

Lemma digit_cases (a : ascii) :
  is_digit a = true ->
  In a ["0"; "1"; "2"; "3"; "4"; "5"; "6"; "7"; "8"; "9"]%char.
Proof.
  destruct a as [b0 b1 b2 b3 b4 b5 b6 b7].
  destruct b0, b1, b2, b3, b4, b5, b6, b7; intros H;
    try discriminate H; simpl; tauto.
Qed.

Lemma scan_number_first (s s' : string) (n : pynum) :
  scan_number s = Some (n, s') ->
  exists a t, s = String a t /\
    (is_digit a = true \/
     (a = "-"%char /\ exists d t', t = String d t' /\ is_digit d = true)).
Proof.
  unfold scan_number. destruct s as [|a t]; [discriminate|].
  cbn [scan_minus]. intros H. exists a, t. split; [reflexivity|].
  destruct (Ascii.eqb a "-") eqn:E.
  - right. apply Ascii.eqb_eq in E. split; [assumption|].
    destruct t as [|d t']; [discriminate|].
    exists d, t'. split; [reflexivity|].
    cbn [scan_int] in H. destruct (is_digit d); [reflexivity|discriminate].
  - left. cbn [scan_int] in H. destruct (is_digit a); [reflexivity|discriminate].
Qed.

(** On a digit, or a minus sign before a digit, the scanner reads a number. *)
Lemma scan_once_number_head (f : nat) (a : ascii) (t : string) :
  is_digit a = true \/
  (a = "-"%char /\ exists d t', t = String d t' /\ is_digit d = true) ->
  scan_once (S f) (String a t)
  = match scan_number (String a t) with
    | Some (n, r) => Some (JNum n, r)
    | None => None
    end.
Proof.
  intros [H|(-> & d & t' & -> & H)].
  - apply digit_cases in H. simpl in H.
    repeat (destruct H as [<-|H]; [reflexivity|]). contradiction.
  - apply digit_cases in H. simpl in H.
    repeat (destruct H as [<-|H]; [reflexivity|]). contradiction.
Qed.

Lemma scans_back_string (f : nat) (s : string) : scans_back (S f) (JStr s).
Proof. intros c r _. apply scan_once_string. Qed.

Lemma scans_back_float (f : nat) (x : spec_float) :
  float_text_ok x -> scans_back (S f) (JNum (PFloat x)).
Proof.
  intros Hx c r Hc. unfold float_text_ok in Hx. cbn [json_dumps encode_num].
  pose proof (scan_number_app c r _ _ _ Hc Hx) as Happ. cbn [append] in Happ.
  destruct (scan_number_first _ _ _ Hx) as (a & t & Hs & Hhead).
  rewrite Hs in *. cbn [append] in *.
  rewrite scan_once_number_head.
  - now rewrite Happ.
  - destruct Hhead as [H|(-> & d & t' & -> & H)]; [now left|].
    right. split; [reflexivity|]. exists d, (t' ++ String c r)%string.
    now split.
Qed.

Lemma ws_cases (a : ascii) :
  is_json_ws a = true -> In a [" "; "009"; "010"; "013"]%char.
Proof.
  destruct a as [b0 b1 b2 b3 b4 b5 b6 b7].
  destruct b0, b1, b2, b3, b4, b5, b6, b7; intros H;
    try discriminate H; simpl; tauto.
Qed.

Lemma scan_once_bad_head (f : nat) (a : ascii) (t : string) :
  is_json_ws a = true \/ a = "]"%char ->
  scan_once f (String a t) = None.
Proof.
  destruct f as [|f]; [reflexivity|].
  intros [H| ->]; [|reflexivity].
  apply ws_cases in H. simpl in H.
  repeat (destruct H as [<-|H]; [reflexivity|]). contradiction.
Qed.

Lemma scan_once_head (f : nat) (s : string) (x : json * string) :
  scan_once f s = Some x ->
  skip_ws s = s /\ forall r, s <> String "]" r.
Proof.
  destruct s as [|a t].
  - destruct f; discriminate.
  - intros H. split.
    + cbn [skip_ws]. destruct (is_json_ws a) eqn:E; [|reflexivity].
      rewrite scan_once_bad_head in H by now left. discriminate.
    + intros r [= -> _].
      rewrite scan_once_bad_head in H by now right. discriminate.
Qed.

Lemma items_text_cons (v : json) (l : list json) (rest : string) :
  items_text (v :: l) rest
  = (json_dumps v ++
     match l with
     | [] => String "]" rest
     | _ :: _ => String "," (String " " (items_text l rest))
     end)%string.
Proof.
  unfold items_text. destruct l as [|w l]; cbn [map join].
  - reflexivity.
  - rewrite !append_assoc. reflexivity.
Qed.

Lemma array_items_last (scan : string -> option (json * string))
  (fuel : nat) (s r : string) (v : json) :
  scan s = Some (v, String "]" r) ->
  array_items scan (S fuel) s = Some ([v], r).
Proof. intros H. cbn [array_items]. rewrite H. reflexivity. Qed.

Lemma array_items_more (scan : string -> option (json * string))
  (fuel : nat) (s t : string) (v : json) :
  scan s = Some (v, String "," (String " " t)) ->
  skip_ws t = t ->
  array_items scan (S fuel) s
  = match array_items scan fuel t with
    | Some (vs, rest) => Some (v :: vs, rest)
    | None => None
    end.
Proof.
  intros H Ht. cbn [array_items]. rewrite H.
  change (skip_ws (String "," (String " " t))) with (String "," (String " " t)).
  cbv iota.
  change (skip_ws (String " " t)) with (skip_ws t).
  now rewrite Ht.
Qed.

Lemma items_text_head (f : nat) (v : json) (l : list json) (rest : string) :
  scans_back f v ->
  skip_ws (items_text (v :: l) rest) = items_text (v :: l) rest
  /\ forall r, items_text (v :: l) rest <> String "]" r.
Proof.
  intros Hv. rewrite items_text_cons. destruct l as [|u l].
  - apply (scan_once_head f _ _ (Hv "]"%char rest (or_intror (or_intror eq_refl)))).
  - apply (scan_once_head f _ _ (Hv ","%char _ (or_introl eq_refl))).
Qed.

Lemma array_items_text (f : nat) (l : list json) (fuel : nat) (rest : string) :
  l <> [] -> Forall (scans_back f) l -> (List.length l <= fuel)%nat ->
  array_items (scan_once f) fuel (items_text l rest) = Some (l, rest).
Proof.
  revert fuel. induction l as [|v l IH]; intros fuel Hne Hl Hlen;
    [contradiction|].
  inversion Hl as [|? ? Hv Hl']; subst.
  destruct fuel as [|fuel]; [simpl in Hlen; lia|].
  rewrite items_text_cons.
  destruct l as [|w l].
  - apply array_items_last. apply Hv. right; now right.
  - rewrite (array_items_more _ _ _ (items_text (w :: l) rest) v).
    + rewrite IH; [reflexivity|discriminate|assumption|simpl in *; lia].
    + apply Hv. now left.
    + inversion Hl' as [|? ? Hw _]; subst.
      now apply (items_text_head f w l rest).
Qed.

Lemma scan_once_open_array (f : nat) (t : string) :
  skip_ws t = t -> (forall r, t <> String "]" r) ->
  scan_once (S f) (String "[" t)
  = match array_items (scan_once f) f t with
    | Some (vs, r) => Some (JArr vs, r)
    | None => None
    end.
Proof.
  intros Hskip Hnot. cbn [scan_once].
  change (code "[" =? 34)%N with false. change (Ascii.eqb "[" "{") with false.
  change (Ascii.eqb "[" "[") with true. cbv iota.
  rewrite Hskip.
  destruct t as [|a t]; [reflexivity|].
  destruct a as [b0 b1 b2 b3 b4 b5 b6 b7].
  destruct b0, b1, b2, b3, b4, b5, b6, b7; try reflexivity.
  exfalso. now apply (Hnot t).
Qed.

Lemma scan_once_array (f : nat) (l : list json) (rest : string) :
  Forall (scans_back f) l -> (List.length l <= f)%nat ->
  scan_once (S f) (json_dumps (JArr l) ++ rest) = Some (JArr l, rest).
Proof.
  intros Hl Hlen. cbn [json_dumps].
  destruct l as [|v l].
  - reflexivity.
  - change (("[" ++ join ", " (map json_dumps (v :: l)) ++ "]") ++ rest)%string
      with (String "[" ((join ", " (map json_dumps (v :: l)) ++ "]") ++ rest))%string.
    rewrite append_assoc.
    change (join ", " (map json_dumps (v :: l)) ++ "]" ++ rest)%string
      with (items_text (v :: l) rest).
    inversion Hl as [|? ? Hv _]; subst.
    destruct (items_text_head f v l rest Hv) as [Hskip Hnot].
    rewrite (scan_once_open_array f _ Hskip Hnot).
    now rewrite (array_items_text f (v :: l) f rest ltac:(discriminate) Hl Hlen).
Qed.

(** ** Objects *)
Lemma members_text_cons (k : string) (v : json) (d : list (string * json))
  (rest : string) :
  members_text ((k, v) :: d) rest
  = (encode_string k ++
     String ":" (String " "
       (json_dumps v ++
        match d with
        | [] => String "}" rest
        | _ :: _ => String "," (String " " (members_text d rest))
        end)))%string.
Proof.
  unfold members_text, member_text. destruct d as [|kv d]; cbn [map join fst snd].
  - rewrite !append_assoc. reflexivity.
  - rewrite !append_assoc. reflexivity.
Qed.

Lemma members_text_head (kv : string * json) (d : list (string * json))
  (rest : string) :
  skip_ws (members_text (kv :: d) rest) = members_text (kv :: d) rest
  /\ forall r, members_text (kv :: d) rest <> String "}" r.
Proof.
  destruct kv as [k v]. rewrite members_text_cons. unfold encode_string.
  cbn [append]. split; [reflexivity|discriminate].
Qed.

Lemma object_items_last (scan : string -> option (json * string))
  (fuel : nat) (k t r : string) (v : json) :
  scan t = Some (v, String "}" r) -> skip_ws t = t ->
  object_items scan (S fuel)
    (encode_string k ++ String ":" (String " " t))
  = Some ([(k, v)], r).
Proof.
  intros H Ht. unfold encode_string. cbn [append object_items].
  change (code quote =? 34)%N with true. cbv iota.
  rewrite append_assoc. cbn [append].
  rewrite scanstring_escape.
  change (skip_ws (String ":" (String " " t))) with (String ":" (String " " t)).
  cbv iota.
  change (skip_ws (String " " t)) with (skip_ws t).
  rewrite Ht, H. reflexivity.
Qed.

Lemma object_items_more (scan : string -> option (json * string))
  (fuel : nat) (k t next : string) (v : json) :
  scan t = Some (v, String "," (String " " next)) -> skip_ws t = t ->
  skip_ws next = next ->
  object_items scan (S fuel)
    (encode_string k ++ String ":" (String " " t))
  = match object_items scan fuel next with
    | Some (kvs, rest) => Some ((k, v) :: kvs, rest)
    | None => None
    end.
Proof.
  intros H Ht Hn. unfold encode_string. cbn [append object_items].
  change (code quote =? 34)%N with true. cbv iota.
  rewrite append_assoc. cbn [append].
  rewrite scanstring_escape.
  change (skip_ws (String ":" (String " " t))) with (String ":" (String " " t)).
  cbv iota.
  change (skip_ws (String " " t)) with (skip_ws t).
  rewrite Ht, H.
  change (skip_ws (String "," (String " " next)))
    with (String "," (String " " next)).
  cbv iota.
  change (skip_ws (String " " next)) with (skip_ws next).
  now rewrite Hn.
Qed.

Lemma object_items_text (f : nat) (d : list (string * json)) (fuel : nat)
  (rest : string) :
  d <> [] -> Forall (fun kv => scans_back f (snd kv)) d ->
  (List.length d <= fuel)%nat ->
  object_items (scan_once f) fuel (members_text d rest) = Some (d, rest).
Proof.
  revert fuel. induction d as [|[k v] d IH]; intros fuel Hne Hd Hlen;
    [contradiction|].
  inversion Hd as [|? ? Hv Hd']; subst. cbn [snd] in Hv.
  destruct fuel as [|fuel]; [simpl in Hlen; lia|].
  rewrite members_text_cons.
  destruct d as [|kv d].
  - apply object_items_last.
    + apply Hv. right; now left.
    + eapply scan_once_head. apply (Hv "}"%char rest). right; now left.
  - rewrite (object_items_more _ _ _ _ (members_text (kv :: d) rest) v).
    + rewrite IH; [reflexivity|discriminate|assumption|simpl in *; lia].
    + apply Hv. now left.
    + eapply scan_once_head. apply (Hv ","%char). now left.
    + apply members_text_head.
Qed.

Lemma scan_once_open_object (f : nat) (t : string) :
  skip_ws t = t -> (forall r, t <> String "}" r) ->
  scan_once (S f) (String "{" t)
  = match object_items (scan_once f) f t with
    | Some (kvs, r) => Some (JObj (dict_of_pairs kvs), r)
    | None => None
    end.
Proof.
  intros Hskip Hnot. cbn [scan_once].
  change (code "{" =? 34)%N with false. change (Ascii.eqb "{" "{") with true.
  cbv iota. rewrite Hskip.
  destruct t as [|a t]; [reflexivity|].
  destruct a as [b0 b1 b2 b3 b4 b5 b6 b7].
  destruct b0, b1, b2, b3, b4, b5, b6, b7; try reflexivity.
  exfalso. now apply (Hnot t).
Qed.

Lemma scan_once_object (f : nat) (d : list (string * json)) (rest : string) :
  Forall (fun kv => scans_back f (snd kv)) d -> (List.length d <= f)%nat ->
  scan_once (S f) (json_dumps (JObj d) ++ rest)
  = Some (JObj (dict_of_pairs d), rest).
Proof.
  intros Hd Hlen. cbn [json_dumps].
  destruct d as [|kv d].
  - reflexivity.
  - change (fun kv0 : string * json =>
              (encode_string (fst kv0) ++ ": " ++ json_dumps (snd kv0))%string)
      with member_text.
    change (("{" ++ join ", " (map member_text (kv :: d)) ++ "}") ++ rest)%string
      with (String "{" ((join ", " (map member_text (kv :: d)) ++ "}") ++ rest))%string.
    rewrite append_assoc.
    change (join ", " (map member_text (kv :: d)) ++ "}" ++ rest)%string
      with (members_text (kv :: d) rest).
    destruct (members_text_head kv d rest) as [Hskip Hnot].
    rewrite (scan_once_open_object f _ Hskip Hnot).
    now rewrite (object_items_text f (kv :: d) f rest ltac:(discriminate) Hd Hlen).
Qed.

(** ** Entries and leaderboards *)
Lemma scans_back_entry (f : nat) (e : ScoreEntry) :
  float_text_ok (entry_score e) ->
  forall rest,
    scan_once (S (S (S (S f)))) (json_dumps (entry_json e) ++ rest)
    = Some (entry_json e, rest).
Proof.
  intros Hx rest. unfold entry_json, new_entry.
  rewrite scan_once_object.
  - reflexivity.
  - repeat constructor; cbn [snd].
    + apply scans_back_string.
    + now apply scans_back_float.
    + apply scans_back_string.
  - simpl. lia.
Qed.

Lemma length_join_ge (sep : string) (xs : list string) :
  Forall (fun x => (2 <= String.length x)%nat) xs ->
  (2 * List.length xs <= String.length (join sep xs))%nat.
Proof.
  induction 1 as [|x xs Hx Hxs IH]; [simpl; lia|].
  destruct xs as [|y xs].
  - simpl in *. lia.
  - change (join sep (x :: y :: xs)) with (x ++ sep ++ join sep (y :: xs))%string.
    rewrite !length_append. simpl List.length in *. lia.
Qed.

Lemma append_nil_r (s : string) : (s ++ EmptyString)%string = s.
Proof. induction s as [|c s IH]; simpl; [reflexivity|now rewrite IH]. Qed.

Lemma leaderboard_json_inj (l l' : list ScoreEntry) :
  leaderboard_json l = leaderboard_json l' -> l = l'.
Proof.
  unfold leaderboard_json. intros [= H]. revert l' H.
  induction l as [|[n x t] l IH]; intros [|[n' x' t'] l'] H;
    try discriminate; [reflexivity|].
  injection H as -> -> -> H. f_equal. now apply IH.
Qed.

(* ================================================================== *)
(** * Scores are written as texts that read back *)

(** ** Rounding a quotient to binary64 *)

Lemma digits2_pos_bounds (p : positive) :
  2 ^ (Zpos (digits2_pos p) - 1) <= Zpos p < 2 ^ Zpos (digits2_pos p).
Proof.
  induction p as [p IH|p IH|].
  - cbn [digits2_pos]. rewrite Pos2Z.inj_succ, (Pos2Z.inj_xI p).
    replace (Z.succ (Zpos (digits2_pos p)) - 1)
      with (Z.succ (Zpos (digits2_pos p) - 1)) by lia.
    rewrite !Z.pow_succ_r by lia. lia.
  - cbn [digits2_pos]. rewrite Pos2Z.inj_succ, (Pos2Z.inj_xO p).
    replace (Z.succ (Zpos (digits2_pos p)) - 1)
      with (Z.succ (Zpos (digits2_pos p) - 1)) by lia.
    rewrite !Z.pow_succ_r by lia. lia.
  - cbn. lia.
Qed.

Lemma pow2_lt_inv (a b : Z) : 2 ^ a < 2 ^ b -> a < b.
Proof.
  intros H. destruct (Z_lt_le_dec a b) as [|Hle]; [assumption|].
  apply (Z.pow_le_mono_r 2) in Hle; lia.
Qed.

Lemma Zdigits2_unique (p : positive) (k : Z) :
  2 ^ (k - 1) <= Zpos p < 2 ^ k -> Zpos (digits2_pos p) = k.
Proof.
  intros [H1 H2]. destruct (digits2_pos_bounds p) as [B1 B2].
  assert (k - 1 < Zpos (digits2_pos p)) by (apply pow2_lt_inv; lia).
  assert (Zpos (digits2_pos p) - 1 < k) by (apply pow2_lt_inv; lia).
  lia.
Qed.

Lemma new_location_compare (d r : Z) :
  0 < d -> 0 <= r < d ->
  new_location d r = if r =? 0 then loc_Exact else loc_Inexact (2 * r ?= d).
Proof.
  intros Hd Hr. unfold new_location.
  destruct (Z.even d) eqn:E.
  - reflexivity.
  - unfold new_location_odd. destruct (r =? 0); [reflexivity|].
    rewrite <- Z.negb_odd in E. apply negb_false_iff in E.
    apply Z.odd_spec in E as [k ->].
    f_equal.
    destruct (Z.compare_spec (2 * r + 1) (2 * k + 1)),
             (Z.compare_spec (2 * r) (2 * k + 1)); try reflexivity; lia.
Qed.

Lemma round_exact_quotient (N d : Z) :
  0 < d -> 0 <= N ->
  round_nearest_even (N / d) (new_location d (N mod d)) = div_half_even N d.
Proof.
  intros Hd HN. pose proof (Z.mod_pos_bound N d Hd) as Hr.
  rewrite new_location_compare by assumption.
  unfold div_half_even, round_nearest_even.
  destruct (Z.eqb_spec (N mod d) 0) as [E|E].
  - rewrite E. destruct (Z.compare_spec (2 * 0) d); try reflexivity; lia.
  - destruct (2 * (N mod d) ?= d); reflexivity.
Qed.

Ltac shr_cbn :=
  cbn [shr_record_of_loc shr_1 shr_m loc_of_shr_record round_nearest_even
       orb].

Lemma round_halved_quotient (N d : Z) :
  0 < d -> 0 <= N -> 0 < 2 * N / d ->
  let q := 2 * N / d in
  let r := (2 * N) mod d in
  round_nearest_even
    (shr_m (shr_1 (shr_record_of_loc q (new_location d r))))
    (loc_of_shr_record (shr_1 (shr_record_of_loc q (new_location d r))))
  = div_half_even N d.
Proof.
  intros Hd HN Hq q r.
  pose proof (Z.mod_pos_bound (2 * N) d Hd) as Hr. fold r in Hr.
  pose proof (Z.div_mod (2 * N) d ltac:(lia)) as Hdm. fold q r in Hdm.
  rewrite new_location_compare by assumption.
  unfold div_half_even.
  destruct q as [|[p|p|]|p] eqn:Eq; try lia.
  - (* an odd quotient *)
    assert (HN' : N = d * Zpos p + (N - d * Zpos p)) by lia.
    assert (Hb : 0 <= N - d * Zpos p < d) by lia.
    rewrite <- (Z.div_unique_pos N d (Zpos p) _ Hb HN').
    rewrite <- (Z.mod_unique_pos N d (Zpos p) _ Hb HN').
    destruct (Z.eqb_spec r 0) as [E|E]; [|destruct (2 * r ?= d)]; shr_cbn;
      destruct (Z.compare_spec (2 * (N - d * Zpos p)) d);
      try reflexivity; lia.
  - (* an even quotient *)
    assert (HN' : N = d * Zpos p + (N - d * Zpos p)) by lia.
    assert (Hb : 0 <= N - d * Zpos p < d) by lia.
    rewrite <- (Z.div_unique_pos N d (Zpos p) _ Hb HN').
    rewrite <- (Z.mod_unique_pos N d (Zpos p) _ Hb HN').
    destruct (Z.eqb_spec r 0) as [E|E]; [|destruct (2 * r ?= d)]; shr_cbn;
      destruct (Z.compare_spec (2 * (N - d * Zpos p)) d);
      try reflexivity; lia.
  - (* the quotient is one *)
    assert (HN' : N = d * 0 + N) by lia.
    assert (Hb : 0 <= N < d) by lia.
    rewrite <- (Z.div_unique_pos N d 0 _ Hb HN').
    rewrite <- (Z.mod_unique_pos N d 0 _ Hb HN').
    destruct (Z.eqb_spec r 0) as [E|E]; [|destruct (2 * r ?= d)]; shr_cbn;
      destruct (Z.compare_spec (2 * N) d); try reflexivity; lia.
Qed.

Lemma fexp_normal (x : Z) : -1021 <= x -> fexp 53 1024 x = x - 53.
Proof. unfold fexp, emin. lia. Qed.

Lemma loc_of_shr_record_of_loc (m : Z) (l : location) :
  loc_of_shr_record (shr_record_of_loc m l) = l
  /\ shr_m (shr_record_of_loc m l) = m.
Proof. destruct l as [|[]]; split; reflexivity. Qed.

Lemma shr_1_halves (q : Z) (l : location) :
  0 <= q ->
  2 * shr_m (shr_1 (shr_record_of_loc q l)) <= q
  <= 2 * shr_m (shr_1 (shr_record_of_loc q l)) + 1.
Proof.
  intros Hq. destruct q as [|[p|p|]|p]; try lia;
    destruct l as [|[]]; cbn [shr_record_of_loc shr_1 shr_m]; lia.
Qed.

Lemma round_nearest_even_bounds (x : Z) (l : location) :
  x <= round_nearest_even x l <= x + 1.
Proof.
  destruct l as [|[]]; cbn [round_nearest_even]; try lia.
  destruct (Z.even x); lia.
Qed.

(** The last step of [binary_round_aux]: a rounded mantissa of 53 bits is
    kept, and [2^53] is written with the next exponent. *)
Lemma shr_fexp_rounded (s : bool) (m e : Z) :
  2 ^ 52 <= m <= 2 ^ 53 -> -1074 <= e <= 970 ->
  (let '(mrs, e'') := shr_fexp 53 1024 m e loc_Exact in
   match shr_m mrs with
   | Z0 => S754_zero s
   | Zpos p =>
       if e'' <=? 1024 - 53 then S754_finite s p e'' else S754_infinity s
   | Zneg _ => S754_nan
   end) = finite53 s (norm53 m e).
Proof.
  intros Hm He. unfold norm53, finite53, shr_fexp.
  destruct m as [|p|p]; try lia. cbn [Zdigits2].
  destruct (Z.eqb_spec (Zpos p) (2 ^ 53)) as [E|E].
  - rewrite (Zdigits2_unique p 54) by (rewrite E; cbn; lia).
    rewrite fexp_normal by lia.
    replace (54 + e - 53 - e) with 1 by lia.
    injection E as ->.
    cbn [shr iter_pos shr_record_of_loc shr_1 shr_m fst snd].
    destruct (Z.leb_spec (e + 1) (1024 - 53)); [reflexivity|lia].
  - rewrite (Zdigits2_unique p 53) by (cbn; lia).
    rewrite fexp_normal by lia.
    replace (53 + e - 53 - e) with 0 by lia.
    cbn [shr shr_record_of_loc shr_m fst snd].
    destruct (Z.leb_spec e (1024 - 53)); [reflexivity|lia].
Qed.

Lemma binary_round_aux_53 (s : bool) (q e : Z) (l : location) :
  2 ^ 52 <= q < 2 ^ 53 -> -1074 <= e <= 970 ->
  binary_round_aux 53 1024 s q e l
  = finite53 s (norm53 (round_nearest_even q l) e).
Proof.
  intros Hq He. unfold binary_round_aux.
  assert (H1 : shr_fexp 53 1024 q e l = (shr_record_of_loc q l, e)).
  { unfold shr_fexp. destruct q as [|p|p]; try lia. cbn [Zdigits2].
    rewrite (Zdigits2_unique p 53) by (cbn; lia).
    rewrite fexp_normal by lia.
    replace (53 + e - 53 - e) with 0 by lia. reflexivity. }
  rewrite H1.
  destruct (loc_of_shr_record_of_loc q l) as [-> ->].
  apply shr_fexp_rounded; [|assumption].
  pose proof (round_nearest_even_bounds q l). lia.
Qed.

Lemma binary_round_aux_54 (s : bool) (q e : Z) (l : location) :
  2 ^ 53 <= q < 2 ^ 54 -> -1074 <= e <= 969 ->
  binary_round_aux 53 1024 s q e l
  = finite53 s
      (norm53 (round_nearest_even
                 (shr_m (shr_1 (shr_record_of_loc q l)))
                 (loc_of_shr_record (shr_1 (shr_record_of_loc q l))))
              (e + 1)).
Proof.
  intros Hq He. unfold binary_round_aux.
  assert (H1 : shr_fexp 53 1024 q e l
               = (shr_1 (shr_record_of_loc q l), e + 1)).
  { unfold shr_fexp. destruct q as [|p|p]; try lia. cbn [Zdigits2].
    rewrite (Zdigits2_unique p 54) by (cbn; lia).
    rewrite fexp_normal by lia.
    replace (54 + e - 53 - e) with 1 by lia. reflexivity. }
  rewrite H1.
  apply shr_fexp_rounded; [|lia].
  pose proof (shr_1_halves q l ltac:(lia)).
  pose proof (round_nearest_even_bounds
                (shr_m (shr_1 (shr_record_of_loc q l)))
                (loc_of_shr_record (shr_1 (shr_record_of_loc q l)))).
  lia.
Qed.

(** [SFdiv] rounds to nearest, ties to even: when [n / d] lies between
    [2^(e+52)] and [2^(e+53)], the quotient in binary64 is the integer
    nearest to [n / d / 2^e], with the exponent [e]. *)
Lemma f64_of_ratio_round (s : bool) (n d : positive) (e : Z) :
  -1000 <= e <= -1 ->
  2 ^ 52 * Zpos d <= Zpos n * 2 ^ (- e) < 2 ^ 53 * Zpos d ->
  f64_of_ratio s n d = finite53 s (round_ratio (Zpos n) (Zpos d) e).
Proof.
  intros He [Hlo Hhi].
  unfold f64_of_ratio, f64_div, f64_prec, f64_emax, SFdiv, round_ratio.
  rewrite xorb_false_r. unfold SFdiv_core_binary. cbn [Zdigits2].
  destruct (digits2_pos_bounds n) as [N1 N2].
  destruct (digits2_pos_bounds d) as [D1 D2].
  set (dn := Zpos (digits2_pos n)) in *.
  set (dd := Zpos (digits2_pos d)) in *.
  assert (HE : 0 < 2 ^ (- e)) by (apply Z.pow_pos_nonneg; lia).
  assert (Hdn : 1 <= dn) by (unfold dn; lia).
  assert (Hdd : 1 <= dd) by (unfold dd; lia).
  assert (Hge : e + 52 <= dn - dd).
  { assert (H : 2 ^ (52 + (dd - 1)) < 2 ^ (dn + - e)).
    { rewrite !Z.pow_add_r by lia.
      apply Z.le_lt_trans with (Zpos n * 2 ^ (- e)); [nia|].
      apply Z.mul_lt_mono_pos_r; assumption. }
    apply pow2_lt_inv in H. lia. }
  assert (Hle : dn - dd <= e + 53).
  { assert (H : 2 ^ ((dn - 1) + - e) < 2 ^ (53 + dd)).
    { rewrite !Z.pow_add_r by lia.
      apply Z.le_lt_trans with (Zpos n * 2 ^ (- e)).
      - apply Z.mul_le_mono_nonneg_r; lia.
      - nia. }
    apply pow2_lt_inv in H. lia. }
  rewrite fexp_normal by lia.
  replace (Z.min (dn + 0 - (dd + 0) - 53) (0 - 0)) with (dn - dd - 53)
    by lia.
  replace (0 - 0 - (dn - dd - 53)) with (53 - (dn - dd)) by lia.
  destruct (53 - (dn - dd)) as [|sh|sh] eqn:Esh; try lia.
  rewrite Z.shiftl_mul_pow2 by lia.
  assert (Hq : fst (Z.div_eucl (Zpos n * 2 ^ Zpos sh) (Zpos d))
               = Zpos n * 2 ^ Zpos sh / Zpos d) by reflexivity.
  assert (Hr : snd (Z.div_eucl (Zpos n * 2 ^ Zpos sh) (Zpos d))
               = (Zpos n * 2 ^ Zpos sh) mod Zpos d) by reflexivity.
  destruct (Z.div_eucl (Zpos n * 2 ^ Zpos sh) (Zpos d)) as [q r].
  cbn [fst snd] in Hq, Hr. subst q r.
  assert (Hcase : Zpos sh = - e \/ Zpos sh = - e + 1) by lia.
  destruct Hcase as [Hs|Hs]; rewrite Hs.
  - (* the quotient has 53 bits *)
    rewrite binary_round_aux_53.
    + rewrite round_exact_quotient by lia.
      replace (dn - dd - 53) with e by lia. reflexivity.
    + split.
      * apply Z.div_le_lower_bound; lia.
      * apply Z.div_lt_upper_bound; lia.
    + lia.
  - (* the quotient has 54 bits *)
    replace (- e + 1) with (Z.succ (- e)) by lia.
    rewrite Z.pow_succ_r by lia.
    replace (Zpos n * (2 * 2 ^ (- e))) with (2 * (Zpos n * 2 ^ (- e)))
      by lia.
    rewrite binary_round_aux_54.
    + rewrite round_halved_quotient.
      * replace (dn - dd - 53 + 1) with e by lia. reflexivity.
      * lia.
      * lia.
      * apply Z.lt_le_trans with (2 ^ 53); [lia|].
        apply Z.div_le_lower_bound; lia.
    + split.
      * apply Z.div_le_lower_bound; lia.
      * apply Z.div_lt_upper_bound; lia.
    + lia.
Qed.

(** Scaling the numerator and the denominator leaves the quotient as it
    is. *)
Lemma div_half_even_scale (n d c : Z) :
  0 < d -> 0 < c -> div_half_even (n * c) (d * c) = div_half_even n d.
Proof.
  intros Hd Hc. unfold div_half_even.
  rewrite Z.div_mul_cancel_r by lia.
  rewrite Zmult_mod_distr_r.
  replace (2 * (n mod d * c)) with (2 * (n mod d) * c) by lia.
  destruct (Z.compare_spec (2 * (n mod d) * c) (d * c)),
           (Z.compare_spec (2 * (n mod d)) d); try reflexivity; nia.
Qed.

Lemma f64_of_ratio_scale (s : bool) (n d c : positive) (e : Z) :
  -1000 <= e <= -1 ->
  2 ^ 52 * Zpos d <= Zpos n * 2 ^ (- e) < 2 ^ 53 * Zpos d ->
  f64_of_ratio s (n * c) (d * c) = f64_of_ratio s n d.
Proof.
  intros He H.
  rewrite (f64_of_ratio_round s n d e He H).
  rewrite (f64_of_ratio_round s (n * c) (d * c) e He)
    by (rewrite !Pos2Z.inj_mul; nia).
  unfold round_ratio. rewrite !Pos2Z.inj_mul.
  replace (Zpos n * Zpos c * 2 ^ (- e)) with (Zpos n * 2 ^ (- e) * Zpos c)
    by lia.
  rewrite div_half_even_scale by lia. reflexivity.
Qed.

(** A quotient between [2^-5] and [2^52] has such an exponent. *)
Lemma binade_exists (n d : Z) :
  0 < d -> d <= n * 2 ^ 5 -> n < d * 2 ^ 52 ->
  exists e, -57 <= e <= -1 /\ 2 ^ 52 * d <= n * 2 ^ (- e) < 2 ^ 53 * d.
Proof.
  intros Hd Hlo Hhi.
  set (L := Z.log2 (n * 2 ^ 5 / d)).
  assert (Hq : 0 < n * 2 ^ 5 / d) by (apply Z.div_str_pos; lia).
  destruct (Z.log2_spec _ Hq) as [L1 L2]. fold L in L1, L2.
  assert (HL0 : 0 <= L) by apply Z.log2_nonneg.
  assert (H1 : 2 ^ L * d <= n * 2 ^ 5).
  { pose proof (Z.mul_div_le (n * 2 ^ 5) d Hd). nia. }
  assert (H2 : n * 2 ^ 5 < 2 ^ Z.succ L * d).
  { pose proof (Z.mod_pos_bound (n * 2 ^ 5) d Hd).
    pose proof (Z.div_mod (n * 2 ^ 5) d ltac:(lia)). nia. }
  assert (HL : L <= 56).
  { assert (2 ^ L < 2 ^ 57); [|apply pow2_lt_inv in H; lia].
    change (2 ^ 57) with (2 ^ 5 * 2 ^ 52). nia. }
  exists (L - 57). split; [lia|].
  replace (- (L - 57)) with (57 - L) by lia.
  assert (HP : 2 ^ 57 = 2 ^ L * 2 ^ (57 - L)).
  { rewrite <- Z.pow_add_r by lia. f_equal. lia. }
  assert (HP0 : 0 < 2 ^ (57 - L)) by (apply Z.pow_pos_nonneg; lia).
  assert (HPL : 0 < 2 ^ L) by (apply Z.pow_pos_nonneg; lia).
  rewrite Z.pow_succ_r in H2 by lia.
  change (2 ^ 57) with (2 ^ 5 * 2 ^ 52) in HP.
  change (2 ^ 53) with (2 * 2 ^ 52).
  split.
  - apply Z.mul_le_mono_pos_l with (2 ^ 5 * 2 ^ L); [lia|].
    replace (2 ^ 5 * 2 ^ L * (2 ^ 52 * d))
      with (2 ^ L * d * (2 ^ 5 * 2 ^ 52)) by lia.
    replace (2 ^ 5 * 2 ^ L * (n * 2 ^ (57 - L)))
      with (n * 2 ^ 5 * (2 ^ L * 2 ^ (57 - L))) by lia.
    rewrite <- HP. apply Z.mul_le_mono_nonneg_r; lia.
  - apply Z.mul_lt_mono_pos_l with (2 ^ 5 * 2 ^ L); [lia|].
    replace (2 ^ 5 * 2 ^ L * (2 * 2 ^ 52 * d))
      with (2 * 2 ^ L * d * (2 ^ 5 * 2 ^ 52)) by lia.
    replace (2 ^ 5 * 2 ^ L * (n * 2 ^ (57 - L)))
      with (n * 2 ^ 5 * (2 ^ L * 2 ^ (57 - L))) by lia.
    rewrite <- HP. apply Z.mul_lt_mono_pos_r; lia.
Qed.

(** ** The nearest integer to a quotient *)

Lemma div_half_even_err (N D : Z) :
  0 < D -> - D <= 2 * (D * div_half_even N D - N) <= D.
Proof.
  intros HD. unfold div_half_even.
  pose proof (Z.div_mod N D ltac:(lia)) as H.
  pose proof (Z.mod_pos_bound N D HD) as Hr.
  destruct (Z.compare_spec (2 * (N mod D)) D); [destruct (Z.even (N / D))| |];
    nia.
Qed.

Lemma div_half_even_near (N D k : Z) :
  0 < D -> - D < 2 * (N - k * D) < D -> div_half_even N D = k.
Proof.
  intros HD Hk. unfold div_half_even.
  pose proof (Z.div_mod N D ltac:(lia)) as H.
  pose proof (Z.mod_pos_bound N D HD) as Hr.
  assert (Hq : N / D = k \/ N / D = k - 1) by nia.
  destruct Hq as [Hq|Hq]; rewrite Hq in *;
    destruct (Z.compare_spec (2 * (N mod D)) D); try nia.
Qed.

Lemma div_half_even_lower (N D c : Z) :
  0 < D -> c * D <= N -> c <= div_half_even N D.
Proof.
  intros HD Hc. unfold div_half_even.
  assert (c <= N / D) by (apply Z.div_le_lower_bound; lia).
  destruct (2 * (N mod D) ?= D); [destruct (Z.even (N / D))| |]; lia.
Qed.

Lemma div_half_even_upper (N D c : Z) :
  0 < D -> N <= c * D -> div_half_even N D <= c.
Proof.
  intros HD Hc. unfold div_half_even.
  pose proof (Z.div_mod N D ltac:(lia)) as H.
  pose proof (Z.mod_pos_bound N D HD) as Hr.
  assert (Hq : N / D < c \/ (N / D = c /\ N mod D = 0)) by nia.
  destruct Hq as [Hq|[Hq Hz]].
  - destruct (2 * (N mod D) ?= D); [destruct (Z.even (N / D))| |]; lia.
  - rewrite Hq, Hz. destruct (Z.compare_spec (2 * 0) D); lia.
Qed.

(** ** Decimals that are read as the same number *)

Lemma pow10_pos (k : Z) : 0 < 10 ^ Z.max 0 k.
Proof. apply Z.pow_pos_nonneg; lia. Qed.

Lemma f64_of_ratio_same (s : bool) (n d n' d' : positive) (c : Z) :
  0 < c -> Zpos n' = Zpos n * c -> Zpos d' = Zpos d * c ->
  Zpos d <= Zpos n * 2 ^ 5 -> Zpos n < Zpos d * 2 ^ 52 ->
  f64_of_ratio s n' d' = f64_of_ratio s n d.
Proof.
  intros Hc Hn Hd Hlo Hhi. destruct c as [|c|c]; try lia.
  assert (n' = (n * c)%positive) by lia.
  assert (d' = (d * c)%positive) by lia. subst.
  destruct (binade_exists (Zpos n) (Zpos d)) as (e & He & H); try lia.
  apply (f64_of_ratio_scale s n d c e); [lia | exact H].
Qed.

Lemma to_pos_pow10 (k : Z) : 0 <= k -> Zpos (Z.to_pos (10 ^ k)) = 10 ^ k.
Proof. intros H. apply Z2Pos.id. apply Z.pow_pos_nonneg; lia. Qed.

(** Zeros appended to the digits, with the exponent lowered as much, do
    not change the number that is read. *)
Lemma float_of_decimal_scale (s : bool) (p : positive) (M : N) (e10 j : Z) :
  0 <= j -> Z.of_N M = Zpos p * 10 ^ j -> dec_range p e10 ->
  float_of_decimal s M (e10 - j) = float_of_decimal s (Npos p) e10.
Proof.
  intros Hj HM [Hlo Hhi].
  assert (Hpj : 0 < 10 ^ j) by (apply Z.pow_pos_nonneg; lia).
  destruct M as [|q]; [change (Z.of_N 0) with 0 in HM; nia|].
  cbn [Z.of_N] in HM.
  unfold float_of_decimal.
  apply f64_of_ratio_same with (c := 10 ^ Z.max 0 (j - Z.max 0 e10)).
  - apply pow10_pos.
  - rewrite !Pos2Z.inj_mul, !to_pos_pow10, HM by lia.
    rewrite <- !Z.mul_assoc, <- !Z.pow_add_r by lia.
    f_equal. f_equal. lia.
  - rewrite !to_pos_pow10 by lia.
    rewrite <- !Z.pow_add_r by lia. f_equal. lia.
  - rewrite Pos2Z.inj_mul, !to_pos_pow10 by lia. exact Hlo.
  - rewrite Pos2Z.inj_mul, !to_pos_pow10 by lia. exact Hhi.
Qed.

(** ** The decimal exponent *)

Lemma pow10_le_spec (k n d : Z) : pow10_le k n d = true <-> ge10 k n d.
Proof.
  unfold pow10_le, scale10, ge10.
  destruct (Z.leb_spec 0 (- k)); rewrite Z.leb_le.
  - replace (Z.max 0 k) with 0 by lia.
    replace (Z.max 0 (- k)) with (- k) by lia.
    rewrite Z.pow_0_r. lia.
  - replace (Z.max 0 k) with k by lia.
    replace (Z.max 0 (- k)) with 0 by lia.
    rewrite Z.opp_involutive, Z.pow_0_r. lia.
Qed.

Lemma ge10_mono (a b n d : Z) :
  0 < n -> 0 < d -> a <= b -> ge10 b n d -> ge10 a n d.
Proof.
  unfold ge10. intros Hn Hd Hab H.
  assert (H1 : 10 ^ Z.max 0 a <= 10 ^ Z.max 0 b)
    by (apply Z.pow_le_mono_r; lia).
  assert (H2 : 10 ^ Z.max 0 (- b) <= 10 ^ Z.max 0 (- a))
    by (apply Z.pow_le_mono_r; lia).
  pose proof (pow10_pos a). pose proof (pow10_pos (- b)).
  apply Z.le_trans with (d * 10 ^ Z.max 0 b); [nia|].
  apply Z.le_trans with (n * 10 ^ Z.max 0 (- b)); [assumption|nia].
Qed.

Lemma decimal_exponent_correct (n d K : Z) :
  0 < n -> 0 < d ->
  ge10 (K - 1) n d -> ~ ge10 K n d ->
  (Z.log2 n - Z.log2 d) * 30103 / 100000 - 1 <= K
    <= (Z.log2 n - Z.log2 d) * 30103 / 100000 + 3 ->
  decimal_exponent n d = K.
Proof.
  intros Hn Hd Hlo Hhi Hest. unfold decimal_exponent.
  set (est := (Z.log2 n - Z.log2 d) * 30103 / 100000) in *.
  assert (Hup : forall a, ge10 a n d -> a < K).
  { intros a Ha. destruct (Z_lt_le_dec a K) as [|Hle]; [assumption|].
    exfalso. apply Hhi. apply (ge10_mono K a); assumption. }
  assert (Hdn : forall a, ~ ge10 a n d -> K - 1 < a).
  { intros a Ha. destruct (Z_lt_le_dec (K - 1) a) as [|Hle]; [assumption|].
    exfalso. apply Ha. apply (ge10_mono a (K - 1)); assumption. }
  destruct (pow10_le (est + 2) n d) eqn:E1.
  { apply pow10_le_spec, Hup in E1. lia. }
  assert (N1 : ~ ge10 (est + 2) n d) by (rewrite <- pow10_le_spec; congruence).
  apply Hdn in N1.
  destruct (pow10_le (est + 1) n d) eqn:E2.
  { apply pow10_le_spec, Hup in E2. lia. }
  assert (N2 : ~ ge10 (est + 1) n d) by (rewrite <- pow10_le_spec; congruence).
  apply Hdn in N2.
  destruct (pow10_le est n d) eqn:E3.
  { apply pow10_le_spec, Hup in E3. lia. }
  assert (N3 : ~ ge10 est n d) by (rewrite <- pow10_le_spec; congruence).
  apply Hdn in N3.
  destruct (pow10_le (est - 1) n d) eqn:E4.
  { apply pow10_le_spec, Hup in E4. lia. }
  assert (N4 : ~ ge10 (est - 1) n d) by (rewrite <- pow10_le_spec; congruence).
  apply Hdn in N4. lia.
Qed.

Lemma est_check_ok (L : Z) : -5 <= L <= 22 -> est_check L = true.
Proof.
  intros H.
  assert (HL : exists n : nat, L = Z.of_nat n - 5 /\ (n <= 27)%nat)
    by (exists (Z.to_nat (L + 5)); lia).
  destruct HL as (n & -> & Hn).
  do 28 (destruct n as [|n]; [vm_compute; reflexivity|]). lia.
Qed.

(** The estimate made from the binary exponent is near enough. *)
Lemma decimal_exponent_float (m : positive) (e K : Z) :
  2 ^ 52 <= Zpos m < 2 ^ 53 -> -57 <= e <= -30 ->
  ge10 (K - 1) (Zpos m) (2 ^ (- e)) -> ~ ge10 K (Zpos m) (2 ^ (- e)) ->
  decimal_exponent (Zpos m) (2 ^ (- e)) = K.
Proof.
  intros Hm He Hlo Hhi.
  assert (HE : 0 < 2 ^ (- e)) by (apply Z.pow_pos_nonneg; lia).
  apply decimal_exponent_correct; try assumption; [lia|].
  rewrite Z.log2_pow2 by lia.
  rewrite (Z.log2_unique (Zpos m) 52) by (change (Z.succ 52) with 53; lia).
  replace (52 - - e) with (52 + e) by lia.
  pose proof (est_check_ok (52 + e) ltac:(lia)) as Hc.
  unfold est_check in Hc.
  set (est := (52 + e) * 30103 / 100000) in *.
  apply andb_true_iff in Hc as [Hc1 Hc2].
  apply Z.leb_le in Hc1, Hc2.
  replace (52 - (52 + e)) with (- e) in Hc1, Hc2 by lia.
  split.
  - destruct (Z_le_gt_dec (est - 1) K) as [|Hgt]; [assumption|].
    exfalso. apply Hhi. apply (ge10_mono K (est - 2)); try lia.
    unfold ge10. pose proof (pow10_pos (- (est - 2))). nia.
  - destruct (Z_le_gt_dec K (est + 3)) as [|Hgt]; [assumption|].
    exfalso.
    assert (Hg : ge10 (est + 3) (Zpos m) (2 ^ (- e)))
      by (apply (ge10_mono (est + 3) (K - 1)); try lia; assumption).
    unfold ge10 in Hg. pose proof (pow10_pos (- (est + 3))). nia.
Qed.

(** ** The scores of the data model as binary64 numbers *)

Lemma pow2_opp_pos (e : Z) : e <= 0 -> 0 < 2 ^ (- e).
Proof. intros H. apply Z.pow_pos_nonneg; lia. Qed.

Lemma tenths_structure (k : positive) (K : Z) :
  1 <= K <= 6 -> 10 ^ K <= Zpos k < 10 ^ (K + 1) ->
  exists m e,
    tenths k = S754_finite false m e /\ float_in_decade m e K
    /\ div_half_even (10 * Zpos m) (2 ^ (- e)) = Zpos k.
Proof.
  intros HK Hk.
  assert (Hk6 : 10 <= Zpos k < 10 ^ 7).
  { assert (10 ^ 1 <= 10 ^ K) by (apply Z.pow_le_mono_r; lia).
    assert (10 ^ (K + 1) <= 10 ^ 7) by (apply Z.pow_le_mono_r; lia).
    lia. }
  unfold tenths, float_of_decimal.
  change (Z.to_pos (10 ^ Z.max 0 (-1))) with 1%positive.
  change (Z.to_pos (10 ^ Z.max 0 (- -1))) with 10%positive.
  rewrite Pos.mul_1_r.
  destruct (binade_exists (Zpos k) 10) as (e0 & He0 & Hb0); try lia.
  rewrite (f64_of_ratio_round false k 10 e0) by (try lia; exact Hb0).
  unfold round_ratio, norm53, finite53.
  pose proof (pow2_opp_pos e0 ltac:(lia)) as HE0.
  set (E0 := 2 ^ (- e0)) in *.
  set (m0 := div_half_even (Zpos k * E0) 10).
  assert (Hm0 : 2 ^ 52 <= m0 <= 2 ^ 53).
  { split; [apply div_half_even_lower|apply div_half_even_upper]; lia. }
  assert (HE35 : 2 ^ 32 < E0) by nia.
  assert (He36 : e0 <= -33) by (apply pow2_lt_inv in HE35; lia).
  pose proof (div_half_even_err (Zpos k * E0) 10 ltac:(lia)) as Herr.
  fold m0 in Herr.
  assert (Hnear : div_half_even (10 * m0) E0 = Zpos k)
    by (apply div_half_even_near; lia).
  assert (HK1 : 10 ^ K = 10 * 10 ^ (K - 1)).
  { replace K with (Z.succ (K - 1)) at 1 by lia.
    apply Z.pow_succ_r. lia. }
  assert (HK2 : 10 ^ (K + 1) = 10 * 10 ^ K) by (apply Z.pow_succ_r; lia).
  assert (HpK : 0 < 10 ^ (K - 1)) by (apply Z.pow_pos_nonneg; lia).
  assert (Hlow : E0 * 10 ^ (K - 1) <= m0)
    by (apply div_half_even_lower; nia).
  assert (Hupp : m0 <= E0 * 10 ^ K - 1)
    by (apply div_half_even_upper; nia).
  destruct (Z.eqb_spec m0 (2 ^ 53)) as [E|E]; cbn [fst snd].
  - exists (Z.to_pos (2 ^ 52)), (e0 + 1).
    assert (HE : E0 = 2 ^ (- (e0 + 1)) * 2).
    { unfold E0. replace (- e0) with (Z.succ (- (e0 + 1))) by lia.
      rewrite Z.pow_succ_r by lia. lia. }
    pose proof (pow2_opp_pos (e0 + 1) ltac:(lia)) as HE1.
    split; [reflexivity|]. split.
    + unfold float_in_decade. rewrite Z2Pos.id by lia.
      repeat split; try lia; nia.
    + rewrite Z2Pos.id by lia.
      rewrite <- (div_half_even_scale _ _ 2) by lia.
      rewrite <- HE. rewrite <- Hnear, E. f_equal.
  - exists (Z.to_pos m0), e0.
    split; [reflexivity|]. split.
    + unfold float_in_decade. rewrite Z2Pos.id by lia. fold E0.
      repeat split; lia.
    + rewrite Z2Pos.id by lia. exact Hnear.
Qed.

Lemma float_in_decade_exponent (m : positive) (e K : Z) :
  float_in_decade m e K -> decimal_exponent (Zpos m) (2 ^ (- e)) = K.
Proof.
  intros (Hm & He & HK & Hlo & Hhi).
  apply decimal_exponent_float; try assumption; unfold ge10.
  - replace (Z.max 0 (K - 1)) with (K - 1) by lia.
    replace (Z.max 0 (- (K - 1))) with 0 by lia.
    rewrite Z.pow_0_r. lia.
  - replace (Z.max 0 K) with K by lia.
    replace (Z.max 0 (- K)) with 0 by lia.
    rewrite Z.pow_0_r. lia.
Qed.

(** ** The search for the shortest digits *)

Lemma same_float_sound (x : spec_float) (m : positive) (e : Z) :
  match x with
  | S754_finite false m' e' => Pos.eqb m' m && (e' =? e)
  | _ => false
  end = true ->
  x = S754_finite false m e.
Proof.
  destruct x as [| | |[|] m' e']; try discriminate.
  intros H. apply andb_true_iff in H as [H1 H2].
  apply Pos.eqb_eq in H1. apply Z.eqb_eq in H2. now subst.
Qed.

Lemma scale10_decade (m : positive) (e K p : Z) :
  float_in_decade m e K -> 1 <= p ->
  0 < snd (scale10 (Zpos m) (2 ^ (- e)) (p - K))
  /\ 10 ^ (p - 1) * snd (scale10 (Zpos m) (2 ^ (- e)) (p - K))
     <= fst (scale10 (Zpos m) (2 ^ (- e)) (p - K))
     < 10 ^ p * snd (scale10 (Zpos m) (2 ^ (- e)) (p - K)).
Proof.
  intros (Hm & He & HK & Hlo & Hhi) Hp.
  pose proof (pow2_opp_pos e ltac:(lia)) as HE.
  set (E := 2 ^ (- e)) in *.
  unfold scale10. destruct (Z.leb_spec 0 (p - K)); cbn [fst snd].
  - assert (H1 : 10 ^ (p - 1) = 10 ^ (K - 1) * 10 ^ (p - K)).
    { rewrite <- Z.pow_add_r by lia. f_equal. lia. }
    assert (H2 : 10 ^ p = 10 ^ K * 10 ^ (p - K)).
    { rewrite <- Z.pow_add_r by lia. f_equal. lia. }
    assert (0 < 10 ^ (p - K)) by (apply Z.pow_pos_nonneg; lia).
    rewrite H1, H2. split; [assumption|]. nia.
  - assert (H1 : 10 ^ (K - 1) = 10 ^ (p - 1) * 10 ^ (- (p - K))).
    { rewrite <- Z.pow_add_r by lia. f_equal. lia. }
    assert (H2 : 10 ^ K = 10 ^ p * 10 ^ (- (p - K))).
    { rewrite <- Z.pow_add_r by lia. f_equal. lia. }
    assert (0 < 10 ^ (- (p - K))) by (apply Z.pow_pos_nonneg; lia).
    rewrite H1 in Hlo. rewrite H2 in Hhi. split; nia.
Qed.

(** What [digits_at] returns is read as the number, and has [p] digits or
    is [10^p]. *)
Lemma digits_at_sound (m : positive) (e K p : Z) (c : N) (e10 : Z) :
  float_in_decade m e K -> 1 <= p ->
  digits_at m e p = Some (c, e10) ->
  float_of_decimal false c e10 = S754_finite false m e
  /\ e10 = K - p /\ 10 ^ (p - 1) <= Z.of_N c <= 10 ^ p.
Proof.
  intros Hf Hp. unfold digits_at, exact_ratio.
  pose proof (float_in_decade_exponent m e K Hf) as HKx.
  pose proof (scale10_decade m e K p Hf Hp) as (Hd & Hlo & Hhi).
  destruct Hf as (Hm & He & HK & _).
  destruct (Z.leb_spec 0 e); [lia|].
  rewrite HKx.
  destruct (scale10 (Zpos m) (2 ^ (- e)) (p - K)) as [n' d'].
  cbn [fst snd] in *.
  assert (Hp1 : 0 < 10 ^ (p - 1)) by (apply Z.pow_pos_nonneg; lia).
  assert (Hq : 10 ^ (p - 1) <= n' / d' < 10 ^ p).
  { split; [apply Z.div_le_lower_bound|apply Z.div_lt_upper_bound]; lia. }
  set (lo := n' / d') in *.
  set (first := if n' mod d' =? 0 then lo
                else match 2 * (n' mod d') ?= d' with
                     | Lt => lo | Gt => lo + 1
                     | Eq => if Z.even lo then lo else lo + 1
                     end).
  assert (Hfirst : first = lo \/ first = lo + 1).
  { unfold first. destruct (n' mod d' =? 0); [now left|].
    destruct (2 * (n' mod d') ?= d'); [destruct (Z.even lo)| |]; auto. }
  set (second := if first =? lo then lo + 1 else lo).
  assert (Hsecond : second = lo \/ second = lo + 1).
  { unfold second. destruct (first =? lo); auto. }
  destruct (match float_of_decimal false (Z.to_N first) (K - p) with
            | S754_finite false m' e' => Pos.eqb m' m && (e' =? e)
            | _ => false
            end) eqn:E1.
  - intros [= <- <-]. apply same_float_sound in E1.
    split; [assumption|]. split; [reflexivity|]. rewrite Z2N.id; lia.
  - destruct (negb (n' mod d' =? 0)
              && match float_of_decimal false (Z.to_N second) (K - p) with
                 | S754_finite false m' e' => Pos.eqb m' m && (e' =? e)
                 | _ => false
                 end) eqn:E2; [|discriminate].
    intros [= <- <-]. apply andb_true_iff in E2 as [_ E2].
    apply same_float_sound in E2.
    split; [assumption|]. split; [reflexivity|]. rewrite Z2N.id; lia.
Qed.

(** For the score of [k] tenths, the digits of [k] are found when as many
    digits are tried as [k] has. *)
Lemma digits_at_tenths (k m : positive) (e K : Z) :
  tenths k = S754_finite false m e -> float_in_decade m e K ->
  div_half_even (10 * Zpos m) (2 ^ (- e)) = Zpos k ->
  digits_at m e (K + 1) = Some (Npos k, -1).
Proof.
  intros Ht Hf Hk. unfold digits_at, exact_ratio.
  pose proof (float_in_decade_exponent m e K Hf) as HKx.
  destruct Hf as (Hm & He & HK & _).
  pose proof (pow2_opp_pos e ltac:(lia)) as HE.
  destruct (Z.leb_spec 0 e); [lia|].
  rewrite HKx.
  replace (K + 1 - K) with 1 by lia.
  replace (K - (K + 1)) with (-1) by lia.
  unfold scale10. cbn [Z.leb Z.compare]. rewrite Z.pow_1_r.
  assert (Hfirst :
    (if (Zpos m * 10) mod 2 ^ (- e) =? 0 then Zpos m * 10 / 2 ^ (- e)
     else match 2 * ((Zpos m * 10) mod 2 ^ (- e)) ?= 2 ^ (- e) with
          | Eq => if Z.even (Zpos m * 10 / 2 ^ (- e))
                  then Zpos m * 10 / 2 ^ (- e)
                  else Zpos m * 10 / 2 ^ (- e) + 1
          | Lt => Zpos m * 10 / 2 ^ (- e)
          | Gt => Zpos m * 10 / 2 ^ (- e) + 1
          end) = Zpos k).
  { rewrite <- Hk. unfold div_half_even.
    replace (10 * Zpos m) with (Zpos m * 10) by lia.
    destruct (Z.eqb_spec ((Zpos m * 10) mod 2 ^ (- e)) 0) as [E|E];
      [|reflexivity].
    rewrite E.
    destruct (Z.compare_spec (2 * 0) (2 ^ (- e))); try reflexivity; lia. }
  rewrite Hfirst.
  change (Z.to_N (Zpos k)) with (Npos k).
  change (float_of_decimal false (Npos k) (-1)) with (tenths k).
  rewrite Ht, Pos.eqb_refl, Z.eqb_refl. reflexivity.
Qed.

Lemma shortest_digits_found (m : positive) (e : Z) (fuel : nat) (p p0 : Z) :
  p <= p0 < p + Z.of_nat fuel -> digits_at m e p0 <> None ->
  exists q, p <= q <= p0 /\ digits_at m e q = Some (shortest_digits m e fuel p).
Proof.
  revert p. induction fuel as [|fuel IH]; intros p Hp H0; [lia|].
  cbn [shortest_digits].
  destruct (digits_at m e p) as [r|] eqn:E.
  - exists p. split; [lia|assumption].
  - destruct (Z.eq_dec p p0) as [->|Hne]; [congruence|].
    destruct (IH (p + 1)) as (q & Hq & Hs); [lia|assumption|].
    exists q. split; [lia|assumption].
Qed.

(** ** Digit strings *)

Lemma read_digits_all (s rest : string) (acc : N) (cnt : Z) :
  all_digits s = true -> no_digit_head rest ->
  read_digits (s ++ rest) acc cnt
  = (str_val s acc, cnt + Z.of_nat (String.length s), rest).
Proof.
  intros Hs Hr. revert acc cnt.
  induction s as [|c s IH]; intros acc cnt.
  - cbn [append str_val String.length]. rewrite Z.add_0_r.
    destruct rest as [|x r]; [reflexivity|].
    cbn [read_digits]. cbn [no_digit_head] in Hr. now rewrite Hr.
  - cbn [all_digits] in Hs. apply andb_true_iff in Hs as [Hc Hs].
    cbn [append read_digits str_val String.length]. rewrite Hc.
    rewrite (IH Hs). f_equal. f_equal. lia.
Qed.

Lemma str_val_app (s t : string) (a : N) :
  str_val (s ++ t) a = str_val t (str_val s a).
Proof.
  revert a. induction s as [|c s IH]; intros a; cbn [append str_val];
    [reflexivity|apply IH].
Qed.

Lemma all_digits_app (s t : string) :
  all_digits (s ++ t) = all_digits s && all_digits t.
Proof.
  induction s as [|c s IH]; cbn [append all_digits]; [reflexivity|].
  now rewrite IH, andb_assoc.
Qed.

Lemma zeros_digits (z : nat) :
  all_digits (zeros z) = true /\ String.length (zeros z) = z
  /\ forall a, Z.of_N (str_val (zeros z) a) = Z.of_N a * 10 ^ Z.of_nat z.
Proof.
  induction z as [|z (IH1 & IH2 & IH3)].
  - repeat split. intros a. cbn [zeros str_val].
    change (10 ^ Z.of_nat 0) with 1. lia.
  - split; [|split].
    + cbn [zeros all_digits]. now rewrite IH1.
    + cbn [zeros String.length]. now rewrite IH2.
    + intros a. cbn [zeros str_val]. rewrite IH3.
      change (digit_val "0") with 0%N.
      rewrite Nat2Z.inj_succ, Z.pow_succ_r by lia. lia.
Qed.

Lemma digit_char (r : N) :
  (r < 10)%N ->
  is_digit (ascii_of_N (48 + r)) = true
  /\ digit_val (ascii_of_N (48 + r)) = r
  /\ (r <> 0%N -> Ascii.eqb (ascii_of_N (48 + r)) "0" = false).
Proof.
  intros H.
  assert (Hr : (r = 0 \/ r = 1 \/ r = 2 \/ r = 3 \/ r = 4 \/ r = 5 \/ r = 6
                \/ r = 7 \/ r = 8 \/ r = 9)%N) by lia.
  repeat (destruct Hr as [->|Hr];
          [split; [reflexivity|split; [reflexivity|]];
           try reflexivity; congruence|]).
  subst r. split; [reflexivity|split; reflexivity].
Qed.

Lemma digits_aux_S (fuel : nat) (n : N) (acc : string) :
  digits_aux (S fuel) n acc
  = if (n / 10 =? 0)%N then String (ascii_of_N (48 + n mod 10)) acc
    else digits_aux fuel (n / 10)%N (String (ascii_of_N (48 + n mod 10)) acc).
Proof. reflexivity. Qed.

Lemma digits_aux_spec (fuel : nat) :
  forall (n : N) (acc : string),
    Z.of_N n < 2 ^ Z.of_nat (S fuel) ->
    exists D, digits_aux (S fuel) n acc = (D ++ acc)%string /\ digits_of D n.
Proof.
  induction fuel as [|fuel IH]; intros n acc Hn.
  - change (2 ^ Z.of_nat 1) with 2 in Hn.
    assert (Hq : (n / 10 = 0)%N) by (apply N.div_small; lia).
    cbn [digits_aux]. rewrite Hq. cbn [N.eqb].
    assert (Hm : (n mod 10 = n)%N) by (apply N.mod_small; lia). rewrite Hm.
    destruct (digit_char n ltac:(lia)) as (H1 & H2 & H3).
    exists (String (ascii_of_N (48 + n)) EmptyString).
    split; [reflexivity|]. unfold digits_of.
    cbn [all_digits str_val String.length].
    rewrite H1, H2. change (10 ^ Z.of_nat 1) with 10.
    change (10 ^ (Z.of_nat 1 - 1)) with 1.
    repeat split; try lia. cbn [no_leading_zero]. apply H3. lia.
  - rewrite digits_aux_S.
    pose proof (N.mod_lt n 10 ltac:(lia)) as Hlt.
    pose proof (N.div_mod' n 10) as Hdm.
    destruct (digit_char (n mod 10)%N Hlt) as (H1 & H2 & H3).
    set (c := ascii_of_N (48 + n mod 10)) in *.
    destruct (N.eqb_spec (n / 10) 0) as [Hq|Hq].
    + assert (Hm : (n mod 10 = n)%N) by lia.
      rewrite Hm in *.
      exists (String c EmptyString).
      split; [reflexivity|]. unfold digits_of.
    cbn [all_digits str_val String.length].
      rewrite H1, H2. change (10 ^ Z.of_nat 1) with 10.
      change (10 ^ (Z.of_nat 1 - 1)) with 1.
      repeat split; try lia. cbn [no_leading_zero]. apply H3. lia.
    + destruct (IH (n / 10)%N (String c acc)) as (D & HD & Hds).
      { rewrite Nat2Z.inj_succ, Z.pow_succ_r in Hn by lia. lia. }
      destruct Hds as (A1 & A2 & A3 & A4 & A5).
      exists (D ++ String c EmptyString)%string. split.
      { rewrite HD, append_assoc. reflexivity. }
      unfold digits_of. rewrite all_digits_app, length_append.
      cbn [all_digits String.length]. rewrite A1, H1.
      replace (Z.of_nat (String.length D + 1))
        with (Z.succ (Z.of_nat (String.length D))) by lia.
      rewrite Z.pow_succ_r by lia.
      destruct A5 as [A5 A6]; [lia|].
      split; [reflexivity|]. split; [|split; [|split]].
      * intros a. rewrite str_val_app. cbn [str_val]. rewrite H2.
        rewrite N2Z.inj_add, N2Z.inj_mul, A2. cbn [Z.of_N]. lia.
      * lia.
      * lia.
      * intros _. split.
        -- replace (Z.succ (Z.of_nat (String.length D)) - 1)
             with (Z.succ (Z.of_nat (String.length D) - 1)) by lia.
           rewrite Z.pow_succ_r by lia. lia.
        -- destruct D as [|x D]; [contradiction|exact A6].
Qed.

Lemma digits_of_N_spec (n : N) : digits_of (digits_of_N n) n.
Proof.
  unfold digits_of_N.
  destruct (digits_aux_spec (N.to_nat (N.log2 n)) n EmptyString)
    as (D & HD & Hds).
  - destruct n as [|p]; [cbn; lia|].
    pose proof (N.log2_spec (Npos p) ltac:(lia)) as [_ H].
    rewrite Nat2Z.inj_succ, N_nat_Z.
    rewrite <- N2Z.inj_succ.
    change 2 with (Z.of_N 2). rewrite <- N2Z.inj_pow. lia.
  - rewrite HD, append_nil_r. exact Hds.
Qed.

Lemma drop_trailing_zeros_spec (fuel : nat) :
  forall (n : N) (e10 : Z),
    0 < Z.of_N n ->
    exists j, 0 <= j
      /\ Z.of_N n = Z.of_N (fst (drop_trailing_zeros fuel n e10)) * 10 ^ j
      /\ snd (drop_trailing_zeros fuel n e10) = e10 + j
      /\ 0 < Z.of_N (fst (drop_trailing_zeros fuel n e10)).
Proof.
  induction fuel as [|fuel IH]; intros n e10 Hn.
  - exists 0. cbn [drop_trailing_zeros fst snd]. rewrite Z.pow_0_r. lia.
  - cbn [drop_trailing_zeros].
    destruct ((n mod 10 =? 0) && negb (n =? 0))%N eqn:E.
    + apply andb_true_iff in E as [E _]. apply N.eqb_eq in E.
      pose proof (N.div_mod' n 10) as Hdm.
      destruct (IH (n / 10)%N (e10 + 1)) as (j & Hj & H1 & H2 & H3); [lia|].
      exists (j + 1). split; [lia|]. split; [|split; [lia|assumption]].
      replace (j + 1) with (Z.succ j) by lia. rewrite Z.pow_succ_r by lia.
      lia.
    + exists 0. cbn [fst snd]. rewrite Z.pow_0_r. lia.
Qed.

(** ** The text of a number in fixed notation *)

Lemma substring_all (s : string) : substring 0 (String.length s) s = s.
Proof.
  induction s as [|c s IH]; [reflexivity|].
  cbn [String.length substring]. now rewrite IH.
Qed.

Lemma substring_split (a : nat) :
  forall D : string, (a <= String.length D)%nat ->
    D = (substring 0 a D ++ substring a (String.length D - a) D)%string
    /\ String.length (substring 0 a D) = a.
Proof.
  induction a as [|a IH]; intros D Ha.
  - rewrite Nat.sub_0_r, substring_all.
    destruct D; split; reflexivity.
  - destruct D as [|c D]; [cbn in Ha; lia|].
    cbn [String.length] in Ha.
    destruct (IH D ltac:(lia)) as [H1 H2].
    cbn [String.length substring Nat.sub append].
    split; [now rewrite <- H1|now rewrite H2].
Qed.

Lemma digit_not_minus (c : ascii) :
  is_digit c = true -> Ascii.eqb c "-" = false.
Proof.
  intros H. apply digit_cases in H. simpl in H.
  repeat (destruct H as [<-|H]; [reflexivity|]). contradiction.
Qed.

Lemma scan_int_digits (D R : string) :
  all_digits D = true -> no_leading_zero D -> no_digit_head R ->
  scan_minus (D ++ R) = (false, (D ++ R)%string)
  /\ scan_int (D ++ R) = Some (str_val D 0, R).
Proof.
  intros HD Hz HR. destruct D as [|c D]; [contradiction|].
  cbn [no_leading_zero] in Hz.
  pose proof HD as HD'. cbn [all_digits] in HD'.
  apply andb_true_iff in HD' as [Hc _].
  split.
  - cbn [append scan_minus]. now rewrite (digit_not_minus c Hc).
  - unfold scan_int. cbn [append]. rewrite Hc, Hz.
    change (String c (D ++ R)) with (String c D ++ R)%string.
    rewrite (read_digits_all _ _ _ _ HD HR). reflexivity.
Qed.

Lemma scan_format (D : string) (n : N) (decpt : Z) :
  digits_of D n -> 0 < Z.of_N n -> 1 <= decpt <= 16 ->
  exists M j,
    0 <= j /\ Z.of_N M = Z.of_N n * 10 ^ j
    /\ scan_number (format_short D decpt)
       = Some (PFloat (float_of_decimal false M
                         (decpt - Z.of_nat (String.length D) - j)),
               EmptyString).
Proof.
  intros (A1 & A2 & A3 & A4 & A5) Hn Hd.
  destruct (A5 Hn) as [A6 A7].
  unfold format_short.
  set (nd := Z.of_nat (String.length D)).
  destruct (Z.leb_spec decpt (-4)); [lia|].
  destruct (Z.ltb_spec 16 decpt); [lia|]. cbn [orb].
  destruct (Z.leb_spec decpt 0); [lia|].
  destruct (Z.leb_spec nd decpt) as [Hle|Hlt].
  - (* the digits, zeros, and [.0] *)
    set (z := Z.to_nat (decpt - nd)).
    destruct (zeros_digits z) as (Z1 & Z2 & Z3).
    rewrite <- append_assoc.
    destruct (scan_int_digits (D ++ zeros z) ".0") as [Hm Hi].
    { rewrite all_digits_app, A1, Z1. reflexivity. }
    { destruct D; [contradiction|exact A7]. }
    { reflexivity. }
    unfold scan_number. rewrite Hm, Hi.
    change (scan_frac (str_val (D ++ zeros z) 0) ".0")
      with ((10 * str_val (D ++ zeros z) 0 + 0)%N, 1, EmptyString).
    cbn [read_exponent Z.eqb].
    exists (10 * str_val (D ++ zeros z) 0 + 0)%N, (decpt - nd + 1).
    split; [lia|]. split.
    + rewrite N2Z.inj_add, N2Z.inj_mul, str_val_app, Z3, A2.
      change (Z.of_N 0) with 0. change (Z.of_N 10) with 10.
      replace (decpt - nd + 1) with (Z.succ (Z.of_nat z)) by lia.
      rewrite Z.pow_succ_r by lia. lia.
    + replace (decpt - nd - (decpt - nd + 1)) with (- (1)) by lia.
      reflexivity.
  - (* the point falls within the digits *)
    destruct (substring_split (Z.to_nat decpt) D ltac:(lia)) as [HD HA].
    replace (Z.to_nat (nd - decpt))
      with (String.length D - Z.to_nat decpt)%nat by lia.
    set (A := substring 0 (Z.to_nat decpt) D) in *.
    set (B := substring (Z.to_nat decpt) (String.length D - Z.to_nat decpt) D)
      in *.
    assert (HAB : all_digits A = true /\ all_digits B = true).
    { apply andb_true_iff. rewrite <- all_digits_app, <- HD. exact A1. }
    destruct HAB as [HdA HdB].
    assert (HlB : (String.length B = String.length D - Z.to_nat decpt)%nat).
    { pose proof (f_equal String.length HD) as H3.
      rewrite length_append in H3. lia. }
    assert (HzA : no_leading_zero A).
    { destruct A as [|x A]; [cbn in HA; lia|].
      rewrite HD in A7. exact A7. }
    destruct (scan_int_digits A (String "." B) HdA HzA) as [Hm Hi];
      [reflexivity|].
    unfold scan_number. cbn [append]. rewrite Hm, Hi.
    destruct B as [|d B'] eqn:EB; [cbn in HlB; lia|].
    pose proof HdB as HdB'. cbn [all_digits] in HdB'.
    apply andb_true_iff in HdB' as [Hdd _].
    cbn [scan_frac]. rewrite Hdd. cbn [Ascii.eqb Bool.eqb andb].
    rewrite <- (append_nil_r (String d B')).
    rewrite (read_digits_all _ EmptyString _ _ HdB I).
    cbn [read_exponent].
    destruct (Z.eqb_spec (0 + Z.of_nat (String.length (String d B'))) 0);
      [lia|].
    exists (str_val (String d B') (str_val A 0)), 0.
    split; [lia|]. split.
    + rewrite <- str_val_app, <- HD, A2. rewrite Z.pow_0_r.
      change (Z.of_N 0) with 0. lia.
    + replace (- (0 + Z.of_nat (String.length (String d B'))))
        with (decpt - nd - 0) by lia.
      reflexivity.
Qed.

Lemma pow10_le_inv (a b : Z) : 0 <= a -> 10 ^ a <= 10 ^ b -> a <= b.
Proof.
  intros Ha H. destruct (Z_le_gt_dec a b) as [|Hgt]; [assumption|].
  destruct (Z_lt_le_dec b 0) as [Hb|Hb].
  - rewrite (Z.pow_neg_r 10 b Hb) in H.
    assert (0 < 10 ^ a) by (apply Z.pow_pos_nonneg; lia). lia.
  - assert (10 ^ b < 10 ^ a) by (apply Z.pow_lt_mono_r; lia). lia.
Qed.

Lemma pow10_lt_inv (a b : Z) : 10 ^ a < 10 ^ b -> a < b.
Proof.
  intros H. destruct (Z_lt_le_dec a b) as [|Hle]; [assumption|].
  apply (Z.pow_le_mono_r 10) in Hle; lia.
Qed.

Lemma dec_range_digits (p : positive) (e1 nd : Z) :
  10 ^ (nd - 1) <= Zpos p < 10 ^ nd -> 1 <= nd -> 1 <= nd + e1 <= 15 ->
  dec_range p e1.
Proof.
  intros [Hlo Hhi] Hnd He. unfold dec_range.
  destruct (Z_le_gt_dec 0 e1) as [H0|H0].
  - replace (Z.max 0 (- e1)) with 0 by lia.
    replace (Z.max 0 e1) with e1 by lia.
    assert (Hp : 0 < 10 ^ e1) by (apply Z.pow_pos_nonneg; lia).
    assert (H1 : 10 ^ nd * 10 ^ e1 <= 10 ^ 15).
    { rewrite <- Z.pow_add_r by lia. apply Z.pow_le_mono_r; lia. }
    rewrite Z.pow_0_r. split; [nia|].
    apply Z.lt_le_trans with (10 ^ nd * 10 ^ e1); [nia|lia].
  - replace (Z.max 0 (- e1)) with (- e1) by lia.
    replace (Z.max 0 e1) with 0 by lia.
    assert (Hp : 0 < 10 ^ (- e1)) by (apply Z.pow_pos_nonneg; lia).
    assert (H1 : 10 ^ (- e1) <= 10 ^ (nd - 1))
      by (apply Z.pow_le_mono_r; lia).
    assert (H2 : 10 ^ nd = 10 ^ (- e1) * 10 ^ (nd + e1)).
    { rewrite <- Z.pow_add_r by lia. f_equal. lia. }
    assert (H3 : 10 ^ (nd + e1) <= 10 ^ 15)
      by (apply Z.pow_le_mono_r; lia).
    rewrite Z.pow_0_r. split; [lia|].
    rewrite H2 in Hhi. nia.
Qed.

(** ** The text of a number is read back *)

(** When the search finds digits, the text made of them is read as the
    number. *)
Lemma repr_reads_back (m : positive) (e K p0 : Z) :
  float_in_decade m e K -> 1 <= p0 <= 17 -> digits_at m e p0 <> None ->
  float_text_ok (S754_finite false m e).
Proof.
  intros Hf Hp0 H0.
  destruct (shortest_digits_found m e 17 1 p0) as (q & Hq & Hs);
    [lia|assumption|].
  destruct (shortest_digits m e 17 1) as [c e10] eqn:Es.
  destruct (digits_at_sound m e K q c e10 Hf ltac:(lia) Hs)
    as (Hfl & He10 & Hc).
  assert (HK : 1 <= K <= 14) by (destruct Hf as (_ & _ & HK & _); lia).
  assert (Hq1 : 0 < 10 ^ (q - 1)) by (apply Z.pow_pos_nonneg; lia).
  unfold float_text_ok, encode_float, float_repr. rewrite Es.
  destruct (drop_trailing_zeros_spec 17 c e10 ltac:(lia))
    as (j & Hj & Hc1 & He1 & Hn1).
  destruct (drop_trailing_zeros 17 c e10) as [n1 e1].
  cbn [fst snd] in Hc1, He1, Hn1.
  pose proof (digits_of_N_spec n1) as Hds.
  set (D := digits_of_N n1) in *.
  pose proof Hds as (A1 & A2 & A3 & A4 & A5).
  destruct (A5 Hn1) as [A6 A7].
  set (nd := Z.of_nat (String.length D)) in *.
  assert (Hj0 : 0 < 10 ^ j) by (apply Z.pow_pos_nonneg; lia).
  assert (B1 : nd - 1 + j <= q).
  { apply pow10_le_inv; [lia|]. rewrite Z.pow_add_r by lia. nia. }
  assert (B2 : q - 1 < nd + j).
  { apply pow10_lt_inv. rewrite Z.pow_add_r by lia. nia. }
  destruct (scan_format D n1 (nd + e1) Hds Hn1 ltac:(lia))
    as (M & j' & Hj' & HM & Hscan).
  rewrite Hscan. f_equal. f_equal. f_equal.
  rewrite <- Hfl.
  destruct n1 as [|p1]; [cbn in Hn1; lia|].
  assert (Hr : dec_range p1 e1) by (apply (dec_range_digits p1 e1 nd); lia).
  replace (nd + e1 - Z.of_nat (String.length D) - j') with (e1 - j')
    by (unfold nd; lia).
  rewrite (float_of_decimal_scale false p1 M e1 j' Hj' HM Hr).
  replace e10 with (e1 - j) by lia.
  rewrite (float_of_decimal_scale false p1 c e1 j Hj Hc1 Hr).
  reflexivity.
Qed.

(** Every score of the data model, from 0.1 to 100000.0 in steps of 0.1
    (and further, below 1000000.0), is written as a text that is read back
    as the same number. *)
Lemma tenths_read_back (k : positive) :
  Zpos k < 10 ^ 7 -> float_text_ok (tenths k).
Proof.
  intros Hk.
  destruct (Z_lt_le_dec (Zpos k) 10) as [Hs|Hs].
  - assert (H : (k = 1 \/ k = 2 \/ k = 3 \/ k = 4 \/ k = 5 \/ k = 6 \/ k = 7
                 \/ k = 8 \/ k = 9)%positive) by lia.
    repeat (destruct H as [->|H]; [vm_compute; reflexivity|]).
    subst k. vm_compute. reflexivity.
  - assert (HK : exists K, 1 <= K <= 6 /\ 10 ^ K <= Zpos k < 10 ^ (K + 1)).
    { destruct (Z_lt_le_dec (Zpos k) (10 ^ 2)); [exists 1; cbn; lia|].
      destruct (Z_lt_le_dec (Zpos k) (10 ^ 3)); [exists 2; cbn; lia|].
      destruct (Z_lt_le_dec (Zpos k) (10 ^ 4)); [exists 3; cbn; lia|].
      destruct (Z_lt_le_dec (Zpos k) (10 ^ 5)); [exists 4; cbn; lia|].
      destruct (Z_lt_le_dec (Zpos k) (10 ^ 6)); [exists 5; cbn; lia|].
      exists 6; cbn; lia. }
    destruct HK as (K & HK & HkK).
    destruct (tenths_structure k K HK HkK) as (m & e & Ht & Hf & Hd).
    rewrite Ht. apply (repr_reads_back m e K (K + 1) Hf); [lia|].
    rewrite (digits_at_tenths k m e K Ht Hf Hd). discriminate.
Qed.

(* ================================================================== *)
(** * The leaderboard as JSON text *)

(** C8.  Writing a leaderboard as JSON text with [json.dumps] and reading
    the text with [json.loads] gives the leaderboard back: the same entries
    with the same names, scores and timestamps in the same order.  It holds
    for every leaderboard of the data model, whatever its length, names and
    timestamps: the scores are the decimals with one digit after the point,
    above 0 and up to 100000. *)
Theorem C8_leaderboard_round_trip (l : list ScoreEntry) :
  Forall (fun e => model_score (entry_score e)) l ->
  json_loads (json_dumps (leaderboard_json l)) = Some (leaderboard_json l)
  /\ forall l', json_loads (json_dumps (leaderboard_json l))
               = Some (leaderboard_json l') -> l' = l.
Proof.
  intros Hm.
  assert (Hl : Forall (fun e => float_text_ok (entry_score e)) l).
  { apply Forall_forall. intros x Hx.
    rewrite Forall_forall in Hm. destruct (Hm x Hx) as (k & Hk & ->).
    apply tenths_read_back. change (10 ^ 7) with 10000000. lia. }
  assert (Hrt : json_loads (json_dumps (leaderboard_json l))
                = Some (leaderboard_json l));
    [|split; [exact Hrt|];
      intros l' H; rewrite Hrt in H;
      symmetry; apply leaderboard_json_inj; congruence].
  unfold json_loads, leaderboard_json.
  set (text := json_dumps (JArr (map entry_json l))).
  assert (Hhead : skip_ws text = text) by reflexivity.
  rewrite Hhead.
  destruct l as [|e l]; [reflexivity|].
  assert (Hlen : (2 + 2 * List.length (e :: l) <= String.length text)%nat).
  { subst text. cbn [json_dumps]. rewrite length_append. cbn [String.length].
    rewrite length_append. cbn [String.length].
    pose proof (length_join_ge ", " (map json_dumps (map entry_json (e :: l)))) as H.
    rewrite !length_map in H.
    assert (HF : Forall (fun x : string => (2 <= String.length x)%nat)
                   (map json_dumps (map entry_json (e :: l)))).
    { apply Forall_map, Forall_map. apply Forall_forall. intros x _.
      unfold entry_json, new_entry.
      change (json_dumps (JObj ?d)) with
        (String "{" (join ", " (map member_text d) ++ "}"))%string.
      cbn [String.length]. rewrite length_append. cbn [String.length]. lia. }
    specialize (H HF). lia. }
  destruct (String.length text) as [|[|[|[|f]]]] eqn:E;
    try (simpl List.length in Hlen; lia).
  rewrite <- (append_nil_r text). subst text.
  rewrite scan_once_array.
  - reflexivity.
  - apply Forall_map. rewrite Forall_forall in Hl |- *. intros x Hx c r _.
    apply scans_back_entry. now apply Hl.
  - rewrite length_map. simpl List.length in *. lia.
Qed.

Lemma C8_witness :
  json_loads (json_dumps (leaderboard_json sample_board))
  = Some (leaderboard_json sample_board)
  /\ forall l', json_loads (json_dumps (leaderboard_json sample_board))
               = Some (leaderboard_json l') -> l' = sample_board.
Proof.
  apply (C8_leaderboard_round_trip sample_board).
  apply Forall_cons.
  { exists 500%positive. split; [lia|vm_compute; reflexivity]. }
  apply Forall_cons.
  { exists 999999%positive. split; [lia|reflexivity]. }
  apply Forall_nil.
Defined.

Lemma float_text_check_ok (x : spec_float) :
  float_text_check x = true -> float_text_ok x.
Proof.
  unfold float_text_check, float_text_ok.
  destruct (scan_number (encode_float x))
    as [[[z|[s|s| |s m e]] [|c r]]|],
       x as [s'|s'| |s' m' e'];
    try discriminate; intros H.
  - apply Bool.eqb_prop in H. now subst.
  - apply andb_true_iff in H as [H He].
    apply andb_true_iff in H as [Hs Hm].
    apply Bool.eqb_prop in Hs. apply Pos.eqb_eq in Hm. apply Z.eqb_eq in He.
    now subst.
Qed.

(** The scores from 0.1 to 100.0, in steps of 0.1, are all written as
    texts that read back as the same numbers. *)
Lemma tenths_text_ok : Forall float_text_ok (tenths_from 1000 1).
Proof.
  apply Forall_forall. intros x Hx. apply float_text_check_ok.
  assert (H : forallb float_text_check (tenths_from 1000 1) = true)
    by (vm_compute; reflexivity).
  rewrite forallb_forall in H. now apply H.
Qed.

(* ================================================================== *)
(** * What every request does *)

(** The three ways in which [submit] ends. *)
Lemma submit_outcome (now : string) (request : Request) (st st' : cloud)
  (o : result response) :
  submit now request st = (o, st') ->
  (st' = st /\ o = Ok (Text "Bad request", 400, headers)
   /\ exists e, submit_try request = Raise e)
  \/ (st' = st /\ (exists e, o = Raise e)
      /\ exists name score, submit_try request = Ok (name, score))
  \/ (exists name score text l0 s,
        submit_try request = Ok (name, score)
        /\ download_fault st = None /\ object st = Some text
        /\ json_loads text = Some (JArr l0)
        /\ sorted (new_entry name score now :: l0) score_key = Ok s
        /\ upload_fault st = None
        /\ o = Ok (Data (JArr (firstn 10 s)), 200, headers)
        /\ st' = uploaded (json_dumps (JArr (firstn 10 s))) st).
Proof.
  unfold submit.
  destruct (submit_try request) as [[name score]|e] eqn:Ht.
  2: { unfold ret. intros [= <- <-]. left. repeat split. now exists e. }
  unfold bind, read_storage, download_as_text, lift, write_storage,
    upload_from_string, ret.
  destruct (download_fault st) as [e|] eqn:Hd.
  { intros [= <- <-]. right; left. repeat split; eauto. }
  destruct (object st) as [text|] eqn:Ho; cbn [or_raise].
  2: { intros [= <- <-]. right; left. repeat split; eauto. }
  destruct (json_loads text) as [v|] eqn:Hj; cbn [or_raise].
  2: { intros [= <- <-]. right; left. repeat split; eauto. }
  destruct v as [| | | |l0|d]; cbn [insert0];
    try (intros [= <- <-]; right; left; repeat split; eauto).
  destruct (sorted (new_entry name score now :: l0) score_key) as [s|e] eqn:Hs.
  2: { intros [= <- <-]. right; left. repeat split; eauto. }
  destruct (upload_fault st) as [e|] eqn:Hu.
  { intros [= <- <-]. right; left. repeat split; eauto. }
  intros [= <- <-]. right; right.
  exists name, score, text, l0, s. unfold uploaded. rewrite Hd, Hu.
  repeat split; try assumption.
Qed.

Lemma list_highscores_listing (st : cloud) :
  list_highscores st = (listing st, st).
Proof.
  unfold list_highscores, listing, bind, read_storage, download_as_text, ret.
  destruct (download_fault st); [reflexivity|].
  destruct (object st); reflexivity.
Qed.

(** X1.  A request for "/" is answered from the store alone, whatever its
    method and parameters: the persisted text as it is (it is not parsed)
    with status 200, [NotFound] raised when the object does not exist, the
    failure of the download otherwise; the store is never changed. *)
Theorem X1_root_lists_persisted_text
  (now : string) (request : Request) (st : cloud) :
  path request = "/" ->
  main now request st = (listing st, st).
Proof.
  intros Hp. unfold main. rewrite Hp. cbn.
  apply list_highscores_listing.
Qed.

(** X2.  Every answer of [main] carries the CORS header and has status 200
    or 400; an answer of status 400 has the body "Bad request" and comes
    with the store unchanged. *)
Theorem X2_answers_are_200_or_400
  (now : string) (request : Request) (st st' : cloud)
  (b : body) (status : Z) (h : list (string * string)) :
  main now request st = (Ok (b, status, h), st') ->
  h = headers
  /\ (status = 200
      \/ (status = 400 /\ b = Text "Bad request" /\ st' = st)).
Proof.
  unfold main.
  destruct (String.eqb (path request) "/").
  { rewrite list_highscores_listing. unfold listing.
    destruct (download_fault st); [discriminate|].
    destruct (object st); [|discriminate].
    intros [= <- <- <- <-]. split; [reflexivity|now left]. }
  destruct (String.eqb (path request) "/submit"
            && String.eqb (method request) "POST").
  - intros H. apply submit_outcome in H.
    destruct H as [(-> & [= <- <- <-] & _)
                  |[(_ & [e He] & _)
                   |(n & sc & t & l0 & s & _ & _ & _ & _ & _ & _ & He & _)]].
    + split; [reflexivity|right; now repeat split].
    + discriminate.
    + split; [congruence|left; congruence].
  - unfold ret. intros [= <- <- <- <-].
    split; [reflexivity|right; now repeat split].
Qed.

(** X3.  One request changes the store by at most one upload, and only a
    POST to "/submit" does: either the store is as it was, or the request is
    an accepted submission, answered 200 with a list of at most ten
    elements, and the store has that list uploaded.  A request that raises
    or is answered 400 leaves the store as it was. *)
Theorem X3_store_changes_only_by_one_upload
  (now : string) (request : Request) (st st' : cloud)
  (o : result response) :
  main now request st = (o, st') ->
  st' = st
  \/ (path request = "/submit" /\ method request = "POST"
      /\ exists l, o = Ok (Data (JArr l), 200, headers)
           /\ st' = uploaded (json_dumps (JArr l)) st
           /\ (List.length l <= 10)%nat).
Proof.
  unfold main.
  destruct (String.eqb (path request) "/").
  { rewrite list_highscores_listing. intros [= _ <-]. now left. }
  destruct (String.eqb_spec (path request) "/submit") as [Hp|_];
    [|unfold ret; intros [= _ <-]; now left].
  destruct (String.eqb_spec (method request) "POST") as [Hm|_];
    [|unfold ret; intros [= _ <-]; now left].
  cbn [andb]. intros H. apply submit_outcome in H.
  destruct H as [(-> & _)
                |[(-> & _)
                 |(n & sc & t & l0 & s & _ & _ & _ & _ & _ & _ & Ho & Hst)]].
  - now left.
  - now left.
  - right. repeat split; try assumption.
    exists (firstn 10 s). repeat split; try assumption.
    apply firstn_le_length.
Qed.

Lemma X1_witness :
  main now0 root_request (store_of board_AB)
  = (Ok (Text (json_dumps (JArr board_AB)), 200, headers), store_of board_AB)
  /\ main now0 root_request store_missing = (Raise NotFound, store_missing)
  /\ main now0 root_request (store_text "not json")
     = (Ok (Text "not json", 200, headers), store_text "not json").
Proof.
  split; [|split].
  - apply (X1_root_lists_persisted_text now0 root_request (store_of board_AB)).
    reflexivity.
  - apply (X1_root_lists_persisted_text now0 root_request store_missing).
    reflexivity.
  - apply (X1_root_lists_persisted_text now0 root_request
             (store_text "not json")).
    reflexivity.
Defined.

Lemma X2_witness :
  headers = headers
  /\ (400 = 200
      \/ (400 = 400 /\ Text "Bad request" = Text "Bad request"
          /\ store_of board_AB = store_of board_AB)).
Proof.
  apply (X2_answers_are_200_or_400 now0
           (post_submit (submission "C" "0")) (store_of board_AB)
           (store_of board_AB) (Text "Bad request") 400 headers).
  vm_compute. reflexivity.
Defined.

Lemma X3_witness :
  uploaded (json_dumps (JArr (new_entry "C" (float_of_Z 50) now0 :: board_AB)))
    (store_of board_AB) = store_of board_AB
  \/ (path (post_submit (submission "C" "50")) = "/submit"
      /\ method (post_submit (submission "C" "50")) = "POST"
      /\ exists l,
           Ok (Data (JArr (new_entry "C" (float_of_Z 50) now0 :: board_AB)),
               200, headers)
           = Ok (Data (JArr l), 200, headers)
           /\ uploaded
                (json_dumps
                   (JArr (new_entry "C" (float_of_Z 50) now0 :: board_AB)))
                (store_of board_AB)
              = uploaded (json_dumps (JArr l)) (store_of board_AB)
           /\ (List.length l <= 10)%nat).
Proof.
  apply (X3_store_changes_only_by_one_upload now0
           (post_submit (submission "C" "50")) (store_of board_AB)).
  vm_compute. reflexivity.
Defined.

Lemma getitem_raises (d : list (string * string)) (key : string) (e : exn) :
  getitem d key = Raise e -> e = KeyError.
Proof.
  induction d as [|[k v] d IH]; simpl.
  - now intros [= <-].
  - destruct (String.eqb k key); [discriminate|assumption].
Qed.

Lemma submit_try_raises_invalid (request : Request) (e : exn) :
  submit_try request = Raise e -> invalid_submission request.
Proof.
  unfold submit_try.
  destruct (getitem (args request) "name") as [n|e0] eqn:Hn.
  2: { intros _. left. now rewrite (getitem_raises _ _ _ Hn) in Hn. }
  cbn [rbind].
  destruct (String.length n =? 0)%nat eqn:L0.
  { intros _. right; left. exists n. split; [assumption|].
    left. now apply Nat.eqb_eq. }
  destruct (20 <? String.length n)%nat eqn:L20.
  { intros _. right; left. exists n. split; [assumption|].
    right. now apply Nat.ltb_lt. }
  cbn [orb].
  destruct (getitem (args request) "score") as [t|e1] eqn:Hs.
  2: { intros _. right; right; left.
       now rewrite (getitem_raises _ _ _ Hs) in Hs. }
  cbn [rbind].
  destruct (py_float t) as [x|] eqn:Hx; cbn [rbind or_raise].
  2: { intros _. right; right; right; left. now exists t. }
  destruct (num_le (PFloat (py_round1 x)) (PInt 0)) eqn:R0.
  { intros _. right; right; right; right. exists t, x.
    repeat split; try assumption. now left. }
  destruct (num_gt (PFloat (py_round1 x)) (PInt 100000)) eqn:R1.
  { intros _. right; right; right; right. exists t, x.
    repeat split; try assumption. now right. }
  discriminate.
Qed.

(** X4.  [submit] answers 400 "Bad request" exactly for the submissions
    whose name is missing, empty or longer than 20 characters, or whose
    score is missing, is not read by [float], or is [<= 0] or [> 100000]
    once rounded: no other submission is answered so, whatever the store. *)
Theorem X4_bad_request_exactly_when_invalid
  (now : string) (request : Request) (st : cloud) :
  fst (submit now request st) = Ok (Text "Bad request", 400, headers)
  <-> invalid_submission request.
Proof.
  split.
  - destruct (submit now request st) as [o st'] eqn:H. cbn [fst]. intros ->.
    apply submit_outcome in H.
    destruct H as [(_ & _ & e & He)
                  |[(_ & [e He] & _)
                   |(n & sc & t & l0 & s & _ & _ & _ & _ & _ & _ & He & _)]].
    + now apply (submit_try_raises_invalid request e).
    + discriminate.
    + discriminate.
  - intros H. destruct (invalid_submission_try request H) as [e He].
    now rewrite (submit_rejects now request st e He).
Qed.

Lemma listing_uploaded (text : string) (st : cloud) :
  download_fault st = None ->
  listing (uploaded text st) = Ok (Text text, 200, headers).
Proof. intros H. unfold listing, uploaded. cbn. now rewrite H. Qed.

(** X6.  What [submit] returned is what a later request for "/" reads:
    after an accepted submission answered with the value [v], the list
    handler answers the text [json.dumps(v)] with status 200. *)
Theorem X6_list_after_submit
  (now now' : string) (request request' : Request) (st st' : cloud)
  (v : json) (status : Z) (h : list (string * string)) :
  submit now request st = (Ok (Data v, status, h), st') ->
  path request' = "/" ->
  main now' request' st' = (Ok (Text (json_dumps v), 200, headers), st').
Proof.
  intros H Hp. apply submit_outcome in H.
  destruct H as [(_ & He & _)
                |[(_ & [e He] & _)
                 |(n & sc & t & l0 & s & _ & Hd & _ & _ & _ & _ & He & ->)]];
    try discriminate.
  assert (Hv : v = JArr (firstn 10 s)) by congruence. subst v.
  unfold main. rewrite Hp. cbn.
  rewrite list_highscores_listing. now rewrite listing_uploaded.
Qed.

Lemma X6_witness :
  main now0 root_request
    (uploaded
       (json_dumps (JArr (new_entry "C" (float_of_Z 50) now0 :: board_AB)))
       (store_of board_AB))
  = (Ok (Text (json_dumps
                 (JArr (new_entry "C" (float_of_Z 50) now0 :: board_AB))),
         200, headers),
     uploaded
       (json_dumps (JArr (new_entry "C" (float_of_Z 50) now0 :: board_AB)))
       (store_of board_AB)).
Proof.
  apply (X6_list_after_submit now0 now0
           (post_submit (submission "C" "50")) root_request
           (store_of board_AB) _ _ 200 headers).
  - vm_compute. reflexivity.
  - reflexivity.
Defined.

Lemma map_result_app_raise {A B : Type} (f : A -> result B)
  (good : list A) (x : A) (rest : list A) (ks : list B) (e : exn) :
  map_result f good = Ok ks -> f x = Raise e ->
  map_result f (good ++ x :: rest) = Raise e.
Proof.
  revert ks. induction good as [|g good IH]; intros ks Hg Hx; simpl.
  - now rewrite Hx.
  - simpl in Hg. destruct (f g) as [k|e0]; [|discriminate]. cbn [rbind] in *.
    destruct (map_result f good) as [ks'|e0]; [|discriminate].
    now rewrite (IH ks' eq_refl Hx).
Qed.

(** X5.  An accepted submission is lost when the persisted text is not a
    list of entries with scores: [submit] raises and uploads nothing.  The
    exception is [JSONDecodeError] for a text that is not JSON,
    [AttributeError] for a JSON value that is not an array, and for an array
    the exception of the first entry whose key [-x["score"]] cannot be
    computed ([KeyError] when it has no score).  None of them is answered
    as a 400. *)
Theorem X5_unusable_store_raises
  (now : string) (request : Request) (st : cloud) (name : string)
  (score : spec_float) (text : string) :
  submit_try request = Ok (name, score) ->
  download_fault st = None -> object st = Some text ->
  (json_loads text = None ->
     submit now request st = (Raise JSONDecodeError, st))
  /\ (forall v, json_loads text = Some v -> (forall l, v <> JArr l) ->
        submit now request st = (Raise AttributeError, st))
  /\ (forall good x rest ks e,
        json_loads text = Some (JArr (good ++ x :: rest)) ->
        map_result score_key good = Ok ks -> score_key x = Raise e ->
        submit now request st = (Raise e, st)).
Proof.
  intros Ht Hd Ho.
  unfold submit. rewrite Ht.
  unfold bind, read_storage, download_as_text, lift.
  rewrite Hd, Ho. cbn [or_raise].
  split; [|split].
  - intros ->. reflexivity.
  - intros v -> Hv. cbn [or_raise].
    destruct v as [| | | |l|d]; try reflexivity.
    now destruct (Hv l).
  - intros good x rest ks e -> Hg Hx. cbn [or_raise insert0].
    unfold sorted.
    change (new_entry name score now :: good ++ x :: rest)
      with ((new_entry name score now :: good) ++ x :: rest).
    rewrite (map_result_app_raise score_key _ x rest
               (PFloat (f64_neg score) :: ks) e); [reflexivity| |assumption].
    simpl. now rewrite Hg.
Qed.

Lemma X5_witness :
  submit now0 (post_submit (submission "C" "50")) (store_text "not json")
  = (Raise JSONDecodeError, store_text "not json")
  /\ submit now0 (post_submit (submission "C" "50")) (store_text "{}")
     = (Raise AttributeError, store_text "{}")
  /\ submit now0 (post_submit (submission "C" "50"))
       (store_of (board_AB ++ [nameless_entry]))
     = (Raise KeyError, store_of (board_AB ++ [nameless_entry])).
Proof.
  split; [|split].
  - destruct (X5_unusable_store_raises now0
                (post_submit (submission "C" "50"))
                (store_text "not json") "C" (float_of_Z 50) "not json"
                ltac:(vm_compute; reflexivity) eq_refl eq_refl)
      as (H & _ & _).
    apply H. vm_compute. reflexivity.
  - destruct (X5_unusable_store_raises now0
                (post_submit (submission "C" "50"))
                (store_text "{}") "C" (float_of_Z 50) "{}"
                ltac:(vm_compute; reflexivity) eq_refl eq_refl)
      as (_ & H & _).
    apply (H (JObj [])); [vm_compute; reflexivity|discriminate].
  - destruct (X5_unusable_store_raises now0
                (post_submit (submission "C" "50"))
                (store_of (board_AB ++ [nameless_entry])) "C" (float_of_Z 50)
                (json_dumps (JArr (board_AB ++ [nameless_entry])))
                ltac:(vm_compute; reflexivity) eq_refl eq_refl)
      as (_ & _ & H).
    apply (H board_AB nameless_entry []
             [PFloat (float_of_Z (-50)); PFloat (float_of_Z (-40))]);
      vm_compute; reflexivity.
Defined.

(** X12.  Of the query parameters [submit] uses the first [name] and the
    first [score] and nothing else: two requests of the same path and
    method that agree on those are answered alike and change the store
    alike, whatever other or repeated parameters they carry. *)
Theorem X12_first_name_and_score_decide
  (now : string) (r1 r2 : Request) (st : cloud) :
  path r1 = path r2 -> method r1 = method r2 ->
  getitem (args r1) "name" = getitem (args r2) "name" ->
  getitem (args r1) "score" = getitem (args r2) "score" ->
  main now r1 st = main now r2 st.
Proof.
  intros Hp Hm Hn Hs. unfold main. rewrite Hp, Hm.
  assert (Ht : submit_try r1 = submit_try r2)
    by (unfold submit_try; now rewrite Hn, Hs).
  unfold submit. now rewrite Ht.
Qed.

Lemma X12_witness :
  main now0 (post_submit noisy_submission) (store_of board_AB)
  = main now0 (post_submit (submission "C" "50")) (store_of board_AB).
Proof.
  apply X12_first_name_and_score_decide; reflexivity.
Defined.

(* ================================================================== *)
(** * The leaderboard over time *)

Lemma float_text_ok_not_nan (x : spec_float) :
  float_text_ok x -> is_nan x = false.
Proof. destruct x; try reflexivity. discriminate. Qed.

Lemma entry_json_well_scored (e : ScoreEntry) :
  float_text_ok (entry_score e) -> well_scored (entry_json e) = true.
Proof.
  intros H. apply new_entry_well_scored. now apply float_text_ok_not_nan.
Qed.

(** The text of a leaderboard is read back as the leaderboard. *)
Lemma leaderboard_loads (l : list ScoreEntry) :
  Forall (fun e => float_text_ok (entry_score e)) l ->
  json_loads (json_dumps (leaderboard_json l)) = Some (leaderboard_json l).
Proof.
  intros Hl. unfold json_loads, leaderboard_json.
  set (text := json_dumps (JArr (map entry_json l))).
  assert (Hhead : skip_ws text = text) by reflexivity.
  rewrite Hhead.
  destruct l as [|e l]; [reflexivity|].
  assert (Hlen : (2 + 2 * List.length (e :: l) <= String.length text)%nat).
  { subst text. cbn [json_dumps]. rewrite length_append. cbn [String.length].
    rewrite length_append. cbn [String.length].
    pose proof (length_join_ge ", "
                  (map json_dumps (map entry_json (e :: l)))) as H.
    rewrite !length_map in H.
    assert (HF : Forall (fun x : string => (2 <= String.length x)%nat)
                   (map json_dumps (map entry_json (e :: l)))).
    { apply Forall_map, Forall_map. apply Forall_forall. intros x _.
      unfold entry_json, new_entry.
      change (json_dumps (JObj ?d)) with
        (String "{" (join ", " (map member_text d) ++ "}"))%string.
      cbn [String.length]. rewrite length_append. cbn [String.length]. lia. }
    specialize (H HF). lia. }
  destruct (String.length text) as [|[|[|[|f]]]] eqn:E;
    try (simpl List.length in Hlen; lia).
  rewrite <- (append_nil_r text). subst text.
  rewrite scan_once_array.
  - reflexivity.
  - apply Forall_map. rewrite Forall_forall in Hl |- *. intros x Hx c r _.
    apply scans_back_entry. now apply Hl.
  - rewrite length_map. simpl List.length in *. lia.
Qed.

(** Sorting leaderboards of the data model is sorting their JSON values. *)
Lemma sort_entries_typed (L : list ScoreEntry) :
  sort_entries (map entry_json L) = map entry_json (insertion_sort entry_lt L).
Proof.
  unfold sort_entries. symmetry.
  apply insertion_sort_map. reflexivity.
Qed.

Lemma top10_typed (e : ScoreEntry) (L : list ScoreEntry) :
  top10 (entry_json e) (map entry_json L)
  = map entry_json (firstn 10 (insertion_sort entry_lt (e :: L))).
Proof.
  unfold top10.
  change (entry_json e :: map entry_json L) with (map entry_json (e :: L)).
  rewrite sort_entries_typed. apply firstn_map.
Qed.

Lemma Forall_firstn {A : Type} (P : A -> Prop) (n : nat) (l : list A) :
  Forall P l -> Forall P (firstn n l).
Proof.
  rewrite !Forall_forall. intros H x Hx. apply H. now apply In_firstn in Hx.
Qed.

Lemma descending_typed (L : list ScoreEntry) :
  StronglySorted score_ge (map entry_json L) -> StronglySorted entry_ge L.
Proof.
  induction L as [|a L IH]; intros H; [constructor|].
  inversion H as [|? ? Hs Ha]; subst. constructor; [now apply IH|].
  rewrite Forall_map in Ha. exact Ha.
Qed.

(** An accepted submission of a score written as a number, on a store that
    holds a leaderboard of such scores. *)
Lemma submit_persisted (now : string) (request : Request) (st : cloud)
  (L : list ScoreEntry) (name : string) (score : spec_float) :
  persisted st L ->
  Forall (fun e => float_text_ok (entry_score e)) L ->
  submit_try request = Ok (name, score) -> float_text_ok score ->
  let e := {| entry_name := name; entry_score := score;
              entry_timestamp := now |} in
  let L' := firstn 10 (insertion_sort entry_lt (e :: L)) in
  submit now request st
  = (Ok (Data (leaderboard_json L'), 200, headers),
     uploaded (json_dumps (leaderboard_json L')) st)
  /\ persisted (uploaded (json_dumps (leaderboard_json L')) st) L'
  /\ Forall (fun e => float_text_ok (entry_score e)) L'
  /\ List.length L' = Nat.min (List.length L + 1) 10
  /\ StronglySorted entry_ge L'.
Proof.
  intros (Hd & Hu & Ho) HL Ht Hs e L'.
  assert (HeL : Forall (fun e => float_text_ok (entry_score e)) (e :: L))
    by now constructor.
  assert (Hw : forallb well_scored (map entry_json L) = true).
  { apply forallb_forall. intros x Hx. apply in_map_iff in Hx.
    destruct Hx as (a & <- & Ha). apply entry_json_well_scored.
    rewrite Forall_forall in HL. now apply HL. }
  assert (Hwe : well_scored (entry_json e) = true)
    by now apply entry_json_well_scored.
  destruct (well_scored_keys (entry_json e :: map entry_json L)) as [ks Hk].
  { simpl forallb. now rewrite Hwe, Hw. }
  pose proof (submit_accepted now request st name score _ _ ks Ht Hd Ho
                (leaderboard_loads L HL) Hk Hu) as Hsub.
  cbn zeta in Hsub.
  change (new_entry name score now) with (entry_json e) in Hsub.
  rewrite top10_typed in Hsub. fold L' in Hsub.
  split; [exact Hsub|].
  split; [unfold persisted, uploaded; cbn; now repeat split|].
  split.
  { apply Forall_firstn. rewrite Forall_forall in HeL |- *.
    intros x Hx. apply HeL. now apply (insertion_sort_In entry_lt). }
  split.
  { unfold L'. rewrite length_firstn, insertion_sort_length.
    cbn [List.length]. lia. }
  apply descending_typed. unfold L'. rewrite <- top10_typed.
  now apply top10_descending.
Qed.

(** X7.  An accepted submission whose score is written as a number, on a
    store that holds a leaderboard of such scores, leaves a store that
    holds the answered leaderboard: the uploaded text reads back as the list
    that was returned, which has the new entry or prior entries only, at
    most ten of them, in non-increasing order of scores. *)
Theorem X7_submission_leaves_a_leaderboard
  (now : string) (request : Request) (st : cloud)
  (L : list ScoreEntry) (name : string) (score : spec_float) :
  persisted st L ->
  Forall (fun e => float_text_ok (entry_score e)) L ->
  submit_try request = Ok (name, score) -> float_text_ok score ->
  exists L' st',
    submit now request st = (Ok (Data (leaderboard_json L'), 200, headers), st')
    /\ healthy st' /\ persisted st' L'
    /\ json_loads (json_dumps (leaderboard_json L')) = Some (leaderboard_json L')
    /\ List.length L' = Nat.min (List.length L + 1) 10
    /\ (forall x, In x L' ->
          x = {| entry_name := name; entry_score := score;
                 entry_timestamp := now |} \/ In x L).
Proof.
  intros Hp HL Ht Hs.
  pose proof (submit_persisted now request st L name score Hp HL Ht Hs) as H.
  cbn zeta in H.
  set (L' := firstn 10 (insertion_sort entry_lt
                          ({| entry_name := name; entry_score := score;
                              entry_timestamp := now |} :: L))) in *.
  destruct H as (Hsub & Hp' & HL' & Hlen & Hsorted).
  exists L', (uploaded (json_dumps (leaderboard_json L')) st).
  split; [exact Hsub|].
  split.
  { exists L'. split; [exact Hp'|]. split; [exact HL'|].
    split; [rewrite Hlen; lia|exact Hsorted]. }
  split; [exact Hp'|].
  split; [now apply leaderboard_loads|].
  split; [exact Hlen|].
  intros x Hx. apply In_firstn in Hx.
  destruct (proj1 (insertion_sort_In entry_lt _ x) Hx) as [<-|Hx']; auto.
Qed.

Lemma X7_witness :
  exists L' st',
    submit now0 (post_submit (submission "C" "50"))
      (store_of (map entry_json sample_board))
    = (Ok (Data (leaderboard_json L'), 200, headers), st')
    /\ healthy st' /\ persisted st' L'
    /\ json_loads (json_dumps (leaderboard_json L'))
       = Some (leaderboard_json L')
    /\ List.length L' = Nat.min (List.length sample_board + 1) 10
    /\ (forall x, In x L' ->
          x = {| entry_name := "C"; entry_score := float_of_Z 50;
                 entry_timestamp := now0 |} \/ In x sample_board).
Proof.
  apply (X7_submission_leaves_a_leaderboard now0
           (post_submit (submission "C" "50"))
           (store_of (map entry_json sample_board)) sample_board
           "C" (float_of_Z 50)).
  - repeat split.
  - apply Forall_cons; [vm_compute; reflexivity|].
    apply Forall_cons; [vm_compute; reflexivity|].
    apply Forall_nil.
  - vm_compute. reflexivity.
  - vm_compute. reflexivity.
Defined.

(** One request on a store in good order. *)
Lemma main_healthy (now : string) (request : Request) (st : cloud) :
  healthy st -> numeric_request request = true ->
  exists resp st', main now request st = (Ok resp, st') /\ healthy st'.
Proof.
  intros Hh Hn. pose proof Hh as (L & Hp & HL & Hlen & Hsorted).
  unfold main.
  destruct (String.eqb (path request) "/").
  { rewrite list_highscores_listing. unfold listing.
    destruct Hp as (-> & _ & ->). eexists. exists st. now split. }
  destruct (String.eqb (path request) "/submit"
            && String.eqb (method request) "POST").
  2: { eexists. exists st. now split. }
  unfold numeric_request in Hn.
  destruct (submit_try request) as [[name score]|e] eqn:Ht.
  - apply float_text_check_ok in Hn.
    pose proof (submit_persisted now request st L name score Hp HL Ht Hn) as H.
    cbn zeta in H.
    set (L' := firstn 10 (insertion_sort entry_lt
                            ({| entry_name := name; entry_score := score;
                                entry_timestamp := now |} :: L))) in *.
    destruct H as (Hsub & Hp' & HL' & Hlen' & Hsorted').
    eexists. eexists. split; [exact Hsub|].
    exists L'. split; [exact Hp'|]. split; [exact HL'|].
    split; [rewrite Hlen'; lia|exact Hsorted'].
  - rewrite (submit_rejects now request st e Ht).
    eexists. exists st. now split.
Qed.

(** X8.  A store in good order stays in good order, and no request fails:
    starting from a store that answers and holds a leaderboard of at most
    ten entries in non-increasing order, an instance that handles any
    requests one after the other, every accepted score being written as a
    text that reads back as the same number (which leaves out the NaN),
    answers every one of them (no exception is raised), and the store holds
    such a leaderboard at the end. *)
Theorem X8_healthy_store_stays_healthy
  (requests : list (string * Request)) (st : cloud) :
  healthy st ->
  forallb (fun r => numeric_request (snd r)) requests = true ->
  Forall (fun o => exists resp, o = Ok resp) (fst (serve requests st))
  /\ healthy (snd (serve requests st)).
Proof.
  revert st. induction requests as [|[now request] rest IH]; intros st Hh Hn.
  - split; [constructor|assumption].
  - cbn [forallb snd] in Hn. apply andb_true_iff in Hn as [Hr Hrest].
    destruct (main_healthy now request st Hh Hr) as (resp & st1 & Hm & Hh1).
    cbn [serve]. rewrite Hm.
    destruct (IH st1 Hh1 Hrest) as [Ha Hh2].
    destruct (serve rest st1) as [answers st2]. cbn [fst snd] in *.
    split; [|assumption].
    constructor; [now exists resp|assumption].
Qed.

Lemma X8_witness :
  Forall (fun o => exists resp, o = Ok resp)
         (fst (serve session (store_of [])))
  /\ healthy (snd (serve session (store_of []))).
Proof.
  apply (X8_healthy_store_stays_healthy session (store_of [])).
  - exists []. split; [repeat split|].
    split; [apply Forall_nil|].
    split; [cbn; lia|apply SSorted_nil].
  - vm_compute. reflexivity.
Defined.

(* ================================================================== *)
(** * Who gets in and who drops out *)

Lemma StronglySorted_app_order {A : Type} (R : A -> A -> Prop)
  (a b : list A) :
  StronglySorted R (a ++ b) -> forall x y, In x a -> In y b -> R x y.
Proof.
  induction a as [|h a IH]; intros H x y Hx Hy; [contradiction|].
  simpl in H. inversion H as [|? ? Hs Hh]; subst.
  destruct Hx as [<-|Hx].
  - rewrite Forall_forall in Hh. apply Hh. apply in_or_app. now right.
  - now apply IH.
Qed.

(** A strictly higher score is not also at most as high. *)
Lemma score_gt_not_le (y x : json) : score_gt y x -> score_ge x y -> False.
Proof.
  unfold score_gt, score_ge.
  destruct (fscore y) as [fy|]; [|contradiction].
  destruct (fscore x) as [fx|]; [|contradiction].
  intros L G.
  assert (Ny : is_nan fy = false)
    by (destruct fy; try reflexivity; destruct fx; discriminate).
  assert (Nx : is_nan fx = false) by (destruct fx; try reflexivity; discriminate).
  apply f64_lt_spec in L; auto. apply f64_le_spec in G; auto.
Qed.

(** X9.  An entry is pushed out only by entries that score at least as
    high: for a valid submission, the entries that the truncation drops
    (prior entries or the new one) all have a score at most that of every
    entry that is kept. *)
Theorem X9_dropped_entries_score_lowest
  (now : string) (request : Request) (st : cloud) (name : string)
  (score : spec_float) (text : string) (l : list json) :
  valid_submission request = Some (name, score) ->
  download_fault st = None -> upload_fault st = None ->
  object st = Some text -> json_loads text = Some (JArr l) ->
  forallb well_scored l = true ->
  exists kept dropped,
    submit now request st
    = (Ok (Data (JArr kept), 200, headers),
       uploaded (json_dumps (JArr kept)) st)
    /\ Permutation (kept ++ dropped) (new_entry name score now :: l)
    /\ List.length dropped = (List.length l + 1 - 10)%nat
    /\ forall x y, In x kept -> In y dropped -> score_ge x y.
Proof.
  intros Hv Hd Hu Ho Hj Hw.
  destruct (valid_submission_try _ _ _ Hv) as [_ Hn].
  pose proof (new_entry_well_scored name now score Hn) as He.
  set (entry := new_entry name score now) in *.
  exists (top10 entry l), (skipn 10 (sort_entries (entry :: l))).
  split; [now apply (submit_valid now request st name score text l)|].
  unfold top10. split; [|split].
  - rewrite firstn_skipn. now apply sort_entries_permutation.
  - rewrite length_skipn. unfold sort_entries.
    rewrite insertion_sort_length. cbn [List.length]. lia.
  - apply StronglySorted_app_order. rewrite firstn_skipn.
    now apply sort_entries_descending.
Qed.

Lemma X9_witness :
  exists kept dropped,
    submit now0 (post_submit (submission "K" "60")) (store_of board_full)
    = (Ok (Data (JArr kept), 200, headers),
       uploaded (json_dumps (JArr kept)) (store_of board_full))
    /\ Permutation (kept ++ dropped)
         (new_entry "K" (float_of_Z 60) now0 :: board_full)
    /\ List.length dropped = (List.length board_full + 1 - 10)%nat
    /\ forall x y, In x kept -> In y dropped -> score_ge x y.
Proof.
  apply (X9_dropped_entries_score_lowest now0
           (post_submit (submission "K" "60")) (store_of board_full)
           "K" (float_of_Z 60) (json_dumps (JArr board_full)) board_full);
    vm_compute; reflexivity.
Defined.

(** X10.  A valid submission that does not make the top ten is still
    answered 200: when the persisted list is in non-increasing order and its
    first ten entries all score strictly higher than the submission, the
    answer is those ten entries, without the new one, and they are uploaded
    again; the answer does not tell the submission from one that got in. *)
Theorem X10_submission_below_the_top_ten
  (now : string) (request : Request) (st : cloud) (name : string)
  (score : spec_float) (text : string) (l : list json) :
  valid_submission request = Some (name, score) ->
  download_fault st = None -> upload_fault st = None ->
  object st = Some text -> json_loads text = Some (JArr l) ->
  forallb well_scored l = true ->
  Sorted score_ge l -> (10 <= List.length l)%nat ->
  Forall (fun y => score_gt y (new_entry name score now)) (firstn 10 l) ->
  submit now request st
  = (Ok (Data (JArr (firstn 10 l)), 200, headers),
     uploaded (json_dumps (JArr (firstn 10 l))) st).
Proof.
  intros Hv Hd Hu Ho Hj Hw Hsorted Hlen Hhigh.
  destruct (valid_submission_try _ _ _ Hv) as [_ Hn].
  pose proof (new_entry_well_scored name now score Hn) as He.
  set (entry := new_entry name score now) in *.
  pose proof (submit_valid now request st name score text l
                Hv Hd Hu Ho Hj Hw) as Hsub.
  cbn zeta in Hsub. fold entry in Hsub.
  destruct (sort_entries_new_entry entry l He Hw)
    as (pre & post & Hs & Hi & Hpre & Hpost).
  rewrite (sort_entries_sorted l Hw Hsorted) in Hs.
  assert (Hp : (10 <= List.length pre)%nat).
  { destruct (Nat.lt_ge_cases (List.length pre) 10) as [Hlt|]; [|assumption].
    exfalso. destruct post as [|h t].
    - rewrite app_nil_r in Hs. subst l. lia.
    - assert (Hin : In h (firstn 10 l)).
      { rewrite Hs, firstn_app. apply in_or_app. right.
        destruct (10 - List.length pre)%nat eqn:E; [lia|]. now left. }
      rewrite Forall_forall in Hhigh. inversion Hpost; subst.
      eapply score_gt_not_le; [apply Hhigh, Hin|assumption]. }
  assert (Htop : top10 entry l = firstn 10 l).
  { unfold top10. rewrite Hi, Hs.
    now rewrite !firstn_app_short by assumption. }
  now rewrite Htop in Hsub.
Qed.

Lemma X10_witness :
  submit now0 (post_submit (submission "K" "10")) (store_of board_full)
  = (Ok (Data (JArr (firstn 10 board_full)), 200, headers),
     uploaded (json_dumps (JArr (firstn 10 board_full))) (store_of board_full)).
Proof.
  apply (X10_submission_below_the_top_ten now0
           (post_submit (submission "K" "10")) (store_of board_full)
           "K" (float_of_Z 10) (json_dumps (JArr board_full)) board_full).
  - vm_compute. reflexivity.
  - reflexivity.
  - reflexivity.
  - reflexivity.
  - vm_compute. reflexivity.
  - vm_compute. reflexivity.
  - repeat (apply Sorted_cons;
            [|first [apply HdRel_nil
                    |apply HdRel_cons; vm_compute; reflexivity]]).
    apply Sorted_nil.
  - cbn. lia.
  - repeat (apply Forall_cons; [vm_compute; reflexivity|]). apply Forall_nil.
Defined.

(** X11.  A valid submission that scores at least as high as every
    persisted entry becomes the first entry of the list, before prior
    entries of the same score; the prior entries follow in their sorted
    order, nine of them at most. *)
Theorem X11_highest_score_goes_first
  (now : string) (request : Request) (st : cloud) (name : string)
  (score : spec_float) (text : string) (l : list json) :
  valid_submission request = Some (name, score) ->
  download_fault st = None -> upload_fault st = None ->
  object st = Some text -> json_loads text = Some (JArr l) ->
  forallb well_scored l = true ->
  Forall (fun y => score_ge (new_entry name score now) y) l ->
  let data := JArr (new_entry name score now :: firstn 9 (sort_entries l)) in
  submit now request st
  = (Ok (Data data, 200, headers), uploaded (json_dumps data) st).
Proof.
  intros Hv Hd Hu Ho Hj Hw Hbest data. subst data.
  destruct (valid_submission_try _ _ _ Hv) as [_ Hn].
  pose proof (new_entry_well_scored name now score Hn) as He.
  set (entry := new_entry name score now) in *.
  pose proof (submit_valid now request st name score text l
                Hv Hd Hu Ho Hj Hw) as Hsub.
  cbn zeta in Hsub. fold entry in Hsub.
  destruct (sort_entries_new_entry entry l He Hw)
    as (pre & post & Hs & Hi & Hpre & Hpost).
  destruct pre as [|p pre].
  - unfold top10 in Hsub. rewrite Hi in Hsub. cbn [app] in *.
    rewrite Hs. exact Hsub.
  - exfalso. inversion Hpre as [|? ? Hp _]; subst.
    apply (score_gt_not_le p entry Hp).
    rewrite Forall_forall in Hbest. apply Hbest.
    apply (insertion_sort_In key_lt). fold (sort_entries l).
    rewrite Hs. now left.
Qed.

Lemma X11_witness :
  let data :=
    JArr (new_entry "C" (float_of_Z 50) now0
          :: firstn 9 (sort_entries board_AB)) in
  submit now0 (post_submit (submission "C" "50")) (store_of board_AB)
  = (Ok (Data data, 200, headers),
     uploaded (json_dumps data) (store_of board_AB)).
Proof.
  apply (X11_highest_score_goes_first now0
           (post_submit (submission "C" "50")) (store_of board_AB)
           "C" (float_of_Z 50) (json_dumps (JArr board_AB)) board_AB).
  - vm_compute. reflexivity.
  - reflexivity.
  - reflexivity.
  - reflexivity.
  - vm_compute. reflexivity.
  - vm_compute. reflexivity.
  - repeat (apply Forall_cons; [vm_compute; reflexivity|]). apply Forall_nil.
Defined.

(* ================================================================== *)
(** * A store that cannot be read *)

Lemma main_unreadable (now : string) (request : Request) (st : cloud)
  (e : exn) :
  read_storage st = (Raise e, st) ->
  main now request st = (Raise e, st)
  \/ main now request st = (Ok (Text "Bad request", 400, headers), st).
Proof.
  intros Hr. unfold main.
  destruct (String.eqb (path request) "/").
  { left. unfold list_highscores, bind. now rewrite Hr. }
  destruct (String.eqb (path request) "/submit"
            && String.eqb (method request) "POST"); [|now right].
  destruct (submit_try request) as [[name score]|e'] eqn:Ht.
  - left. now apply (submit_read_fails now request st st name score e).
  - right. now apply (submit_rejects now request st e').
Qed.

(** X13.  The service never creates or repairs the persisted object: while
    the download fails (the object does not exist, or the store does not
    answer), no request is answered 200 and no sequence of requests changes
    the store; each request raises the failure of the download or is
    answered 400. *)
Theorem X13_unreadable_store_is_never_written
  (requests : list (string * Request)) (st : cloud) (e : exn) :
  read_storage st = (Raise e, st) ->
  snd (serve requests st) = st
  /\ Forall (fun o => o = Raise e
                      \/ o = Ok (Text "Bad request", 400, headers))
            (fst (serve requests st)).
Proof.
  intros Hr. induction requests as [|[now request] rest IH].
  - split; [reflexivity|constructor].
  - cbn [serve].
    destruct IH as [IHs IHa].
    destruct (main_unreadable now request st e Hr) as [Hm|Hm]; rewrite Hm;
      destruct (serve rest st) as [answers st2]; cbn [fst snd] in *;
      (split; [assumption|constructor; [|assumption]]).
    + now left.
    + now right.
Qed.

Lemma X13_witness :
  snd (serve session store_missing) = store_missing
  /\ Forall (fun o => o = Raise NotFound
                      \/ o = Ok (Text "Bad request", 400, headers))
            (fst (serve session store_missing)).
Proof.
  apply (X13_unreadable_store_is_never_written session store_missing NotFound).
  reflexivity.
Defined.
